(** * EEVEE screen-space effects: resources, scheduling and buffer hand-off

    A shallow embedding of [source/blender/draw/engines/eevee/eevee_effects.c]:
    the effect configuration of [EEVEE_effects_init], the pass bindings of
    [EEVEE_effects_cache_init], and the per-frame drivers
    [EEVEE_create_minmax_buffer], [EEVEE_effects_do_ssr] and
    [EEVEE_draw_effects].

    Conventions of the embedding.
    - A [GPUTexture *] or [GPUFrameBuffer *] is an [option]: [None] is NULL.
    - Every pointer-valued field that the C code takes the address of
      ([&txl->bloom_blit], [&effects->source_buffer], ...) is a named
      _slot_; the engine data is a store from slots to pointers, so that
      two C expressions denoting the same field denote the same slot.
    - [int] values are [Z]; the bitmask tests are written with [Z.land]
      and [Z.lor] as in the source.
    - Calls into the draw manager and the GPU module are recorded, in
      program order, in a trace of [event]s.
    - A [float] is an IEEE binary32 value and a [double] a binary64
      value; their arithmetic rounds to nearest, ties to even, as the
      Standard Library's [SpecFloat] specifies it.
    - Float-valued shader parameters that no resource decision depends on
      (thresholds, matrices, texel sizes) are not part of the state. *)

From Stdlib Require Import ZArith QArith Reals Lra List Bool String Lia.
From Stdlib Require Import Floats.SpecFloat.
From stdpp Require Import base decidable option list functions.
Import ListNotations.
Local Open Scope string_scope.
Local Open Scope Z_scope.

(** ** GPU objects *)

(** DRWTextureFormat values used by this file. *)
Inductive DRWTextureFormat :=
  | DRW_TEX_RGBA_8 | DRW_TEX_RGBA_16 | DRW_TEX_RGB_11_11_10
  | DRW_TEX_RG_16 | DRW_TEX_DEPTH_24.

(** A texture object: its identity and the size it was created with. *)
Record GPUTexture := mkTex {
  tex_id : positive;
  tex_width : Z;
  tex_height : Z;
  tex_format : DRWTextureFormat }.

Record GPUFrameBuffer := mkFb { fb_id : positive }.

Global Instance DRWTextureFormat_eq_dec : EqDecision DRWTextureFormat.
Proof. solve_decision. Defined.
Global Instance GPUTexture_eq_dec : EqDecision GPUTexture.
Proof. solve_decision. Defined.
Global Instance GPUFrameBuffer_eq_dec : EqDecision GPUFrameBuffer.
Proof. solve_decision. Defined.

(** DRWTextureFlag values used by this file; a flag word [A | B] is the
    list of its flags. *)
Inductive DRWTextureFlag :=
  | DRW_TEX_FILTER | DRW_TEX_MIPMAP | DRW_TEX_TEMP.

Global Instance DRWTextureFlag_eq_dec : EqDecision DRWTextureFlag.
Proof. solve_decision. Defined.

(** ** Slots: the pointer-valued fields of the engine data *)

(** [GPUTexture *] fields of [EEVEE_TextureList] (txl), of
    [stl->g_data] (g), of [EEVEE_EffectsInfo] (effects), of the static
    [e_data], and the depth texture of the viewport's default list. *)
Inductive tex_slot :=
  | TXL_color | TXL_color_post | TXL_color_double_buffer
  | TXL_bloom_blit
  | TXL_bloom_downsample (i : Z)
  | TXL_bloom_upsample (i : Z)
  | TXL_dof_down_near | TXL_dof_down_far | TXL_dof_coc
  | TXL_dof_near_blur | TXL_dof_far_blur
  | TXL_ssr_normal_input | TXL_ssr_specrough_input
  | TXL_maxzbuffer | TXL_planar_depth | TXL_planar_pool
  | G_minzbuffer | G_volumetric | G_volumetric_transmit
  | G_ssr_hit_output (i : Z)
  | EFX_source_buffer | EFX_unf_source_buffer | EFX_unf_base_buffer
  | E_depth_src | E_color_src
  | SL_shadow_depth_cube_pool | SL_irradiance_pool | SL_probe_pool
  | DTXL_depth.

(** [GPUFrameBuffer *] fields of [EEVEE_FramebufferList] (fbl), the
    [target_buffer] of [EEVEE_EffectsInfo], and the viewport's default
    framebuffer. *)
Inductive fb_slot :=
  | FBL_main | FBL_double_buffer | FBL_effect_fb
  | FBL_bloom_blit_fb
  | FBL_bloom_down_fb (i : Z)
  | FBL_bloom_accum_fb (i : Z)
  | FBL_dof_down_fb | FBL_dof_scatter_far_fb | FBL_dof_scatter_near_fb
  | FBL_volumetric_fb | FBL_screen_tracing_fb | FBL_downsample_fb
  | EFX_target_buffer
  | DFBL_default_fb.

Global Instance tex_slot_eq_dec : EqDecision tex_slot.
Proof. solve_decision. Defined.
Global Instance fb_slot_eq_dec : EqDecision fb_slot.
Proof. solve_decision. Defined.

(** The passes of [EEVEE_PassList] that this file creates or draws. *)
Inductive pass :=
  | PSL_volumetric_integrate_ps | PSL_volumetric_resolve_ps
  | PSL_volumetric_resolve_transmit_ps
  | PSL_ssr_raytrace | PSL_ssr_resolve
  | PSL_color_downsample_ps
  | PSL_minz_downlevel_ps | PSL_maxz_downlevel_ps
  | PSL_minz_downdepth_ps | PSL_maxz_downdepth_ps
  | PSL_minz_downdepth_layer_ps | PSL_maxz_downdepth_layer_ps
  | PSL_minz_copydepth_ps | PSL_maxz_copydepth_ps
  | PSL_motion_blur
  | PSL_bloom_downsample_first | PSL_bloom_downsample | PSL_bloom_upsample
  | PSL_bloom_blit | PSL_bloom_resolve
  | PSL_dof_down | PSL_dof_scatter | PSL_dof_resolve.

Global Instance pass_eq_dec : EqDecision pass.
Proof. solve_decision. Defined.

(** [DRWFboTexture]: the address of a texture field, a format, a flag
    word. *)
Record DRWFboTexture := mkFboTex {
  fbo_tex : tex_slot;
  fbo_format : DRWTextureFormat;
  fbo_flag : list DRWTextureFlag }.

(** ** C arithmetic on [float] and [double] *)

(** Both are [spec_float]s: a zero, an infinity, a NaN, or a finite
    [(-1)^s * m * 2^e].  What tells them apart is the format an operation
    rounds into: 24 bits of mantissa and infinities at 2^128 for [float],
    53 bits and 2^1024 for [double]. *)
Definition float : Type := spec_float.
Definition double : Type := spec_float.

Definition float_sub : float → float → float := SFsub 24 128.
Definition double_add : double → double → double := SFadd 53 1024.
Definition double_div : double → double → double := SFdiv 53 1024.

(** A value rounded into a format; exact when the format holds it. *)
Definition round_to (prec emax : Z) (x : spec_float) : spec_float :=
  match x with
  | S754_finite s m e => binary_normalize prec emax (cond_Zopp s (Zpos m)) e s
  | _ => x
  end.

(** The conversions C makes: the promotion of a [float] operand to
    [double], the rounding of a [double] stored into a [float], and the
    conversions of an [int]. *)
Definition float_to_double (x : float) : double := round_to 53 1024 x.
Definition double_to_float (x : double) : float := round_to 24 128 x.
Definition int_to_float (n : Z) : float := binary_normalize 24 128 n 0 false.
Definition int_to_double (n : Z) : double := binary_normalize 53 1024 n 0 false.

Definition INT_MIN : Z := - 2 ^ 31.
Definition INT_MAX : Z := 2 ^ 31 - 1.

(** The value of a finite [float] truncated toward zero. *)
Definition float_trunc (x : float) : Z :=
  match x with
  | S754_finite s m e => cond_Zopp s (Z.shiftl (Zpos m) e)
  | _ => 0
  end.

Definition is_finite (x : spec_float) : bool :=
  match x with
  | S754_zero _ | S754_finite _ _ _ => true
  | _ => false
  end.

(** [(int)x] truncates toward zero.  C defines the conversion only of a
    finite value whose truncation fits [int]; otherwise the model gives
    what the conversion instruction of x86 (cvttss2si) gives, INT_MIN. *)
Definition float_to_int_defined (x : float) : bool :=
  is_finite x && bool_decide (INT_MIN ≤ float_trunc x ≤ INT_MAX).

Definition float_to_int (x : float) : Z :=
  if float_to_int_defined x then float_trunc x else INT_MIN.

(** The real number a finite value stands for (0 for the others). *)
Definition float_value (x : spec_float) : R :=
  match x with
  | S754_finite s m e => (IZR (cond_Zopp s (Zpos m)) * powerRZ 2 e)%R
  | _ => 0%R
  end.

(** *** A logarithm to run the model with *)

(** The C library is not among the sources at hand, and [log] is a
    parameter of the embedding (below).  To run the model on concrete
    frames, [log_nearest] computes the natural logarithm in fixed point
    with 200 fractional bits, from ln x = k ln 2 + 2 atanh((y - 1) / (y + 1))
    for x = y * 2^k with 1 <= y < 2, and rounds it to [double]; the
    special cases are those of C's [log]. *)
Definition log_precision : Z := 200.

(** [terms] terms of sum_j z^(2j+1) / (2j+1), [pw] being the current odd
    power of z and [zsq] its square, all scaled by 2^[log_precision]. *)
Fixpoint atanh_sum (terms : nat) (k pw zsq : Z) : Z :=
  match terms with
  | O => 0
  | S terms =>
      pw / k + atanh_sum terms (k + 2) (Z.shiftr (pw * zsq) log_precision) zsq
  end.

(** atanh(a / b), scaled, for 0 <= a / b <= 1/3: 70 terms leave less than
    9^-70 < 2^-200 of the series. *)
Definition atanh_fix (a b : Z) : Z :=
  let z := Z.shiftl a log_precision / b in
  atanh_sum 70 1 z (Z.shiftr (z * z) log_precision).

Definition ln_fix (m : positive) (e : Z) : Z :=
  let d := Zpos (digits2_pos m) in
  let one := Z.shiftl 1 (d - 1) in
  (e + d - 1) * (2 * atanh_fix 1 3) + 2 * atanh_fix (Zpos m - one) (Zpos m + one).

Definition log_nearest (x : double) : double :=
  match x with
  | S754_nan => S754_nan
  | S754_infinity false => x
  | S754_infinity true => S754_nan
  | S754_zero _ => S754_infinity true
  | S754_finite true _ _ => S754_nan
  | S754_finite false m e =>
      if bool_decide (Zpos m = Z.shiftl 1 (- e)) then S754_zero false
      else binary_normalize 53 1024 (ln_fix m e) (- log_precision) false
  end.

(** ** Constants of eevee_private.h *)

(** The effects that own bits of [EEVEE_EffectsInfo.enabled_effects]. *)
Inductive effect :=
  | MOTION_BLUR | BLOOM | DOF | VOLUMETRIC | SSR | DOUBLE_BUFFER.

Global Instance effect_eq_dec : EqDecision effect.
Proof. solve_decision. Defined.

(** [eevee_private.h] is not among the sources at hand.  What this file
    uses of it is taken as a parameter: the enumerators [EFFECT_*], each
    a single bit [1 << k] with the six [k] distinct, and the array bound
    [MAX_BLOOM_STEP], at least 1.  So is the one function of the C
    library that the file calls, [log] of math.h, here [libm_log]: any
    function from [double] to [double]. *)
Class EEVEE_private := {
  effect_bit : effect → Z;
  effect_bit_nonneg : ∀ e, 0 ≤ effect_bit e;
  effect_bit_inj : ∀ e1 e2, effect_bit e1 = effect_bit e2 → e1 = e2;
  MAX_BLOOM_STEP : Z;
  MAX_BLOOM_STEP_pos : 1 ≤ MAX_BLOOM_STEP;
  libm_log : double → double }.

Definition EFFECT `{EEVEE_private} (e : effect) : Z :=
  Z.shiftl 1 (effect_bit e).

Abbreviation EFFECT_MOTION_BLUR := (EFFECT MOTION_BLUR).
Abbreviation EFFECT_BLOOM := (EFFECT BLOOM).
Abbreviation EFFECT_DOF := (EFFECT DOF).
Abbreviation EFFECT_VOLUMETRIC := (EFFECT VOLUMETRIC).
Abbreviation EFFECT_SSR := (EFFECT SSR).
Abbreviation EFFECT_DOUBLE_BUFFER := (EFFECT DOUBLE_BUFFER).

(** The values the header gives them in the Blender tree of the time,
    and [log_nearest] for the logarithm; used to run the model on
    concrete frames. *)
Definition blender_effect_bit (e : effect) : Z :=
  match e with
  | MOTION_BLUR => 0 | BLOOM => 1 | DOF => 2
  | VOLUMETRIC => 3 | SSR => 4 | DOUBLE_BUFFER => 5
  end.

Program Definition blender_private : EEVEE_private :=
  {| effect_bit := blender_effect_bit; MAX_BLOOM_STEP := 16;
     libm_log := log_nearest |}.
Next Obligation. intros []; simpl; lia. Qed.
Next Obligation. intros [] []; simpl; intros; congruence. Qed.
Next Obligation. lia. Qed.

(** ** Events and the engine state *)

(** A float[4] clear colour, by the decimal literals of the source. *)
Definition vec4 : Type := (Q * Q * Q * Q)%type.

(** One constructor per external call made by this file, with the
    arguments as they are at the time of the call; for
    [DRW_framebuffer_init], which is given the address of a framebuffer
    field, also what the field holds then.  A drawn pass reads its
    buffer uniforms through the slots they were bound to, so the event of
    a draw lists, per uniform name, the texture found in the slot then.
    [Ev_mip_target] is emitted by the recursive downsample driver (below)
    when it makes a mip level of a texture the render target.
    [Ev_swap_double_buffers] is not a call: it marks the place where the
    body of SWAP_DOUBLE_BUFFERS exchanges the main and history targets. *)
Inductive event :=
  | Ev_framebuffer_bind (fb : option GPUFrameBuffer)
  | Ev_draw_pass (p : pass) (buffers : list (string * option GPUTexture))
  | Ev_framebuffer_clear (color depth stencil : bool) (clear_col : vec4)
  | Ev_framebuffer_texture_attach
      (fb : option GPUFrameBuffer) (t : option GPUTexture) (slot mip : Z)
  | Ev_framebuffer_texture_detach (t : option GPUTexture)
  | Ev_transform_to_display (t : option GPUTexture)
  | Ev_framebuffer_init
      (s : fb_slot) (found : option GPUFrameBuffer) (width height : Z)
      (textures : list DRWFboTexture) (textures_len : Z)
  | Ev_texture_create_2D (t : GPUTexture) (flags : list DRWTextureFlag)
  | Ev_framebuffer_free (fb : GPUFrameBuffer)
  | Ev_texture_free (t : GPUTexture)
  | Ev_mip_target
      (fb : option GPUFrameBuffer) (t : option GPUTexture)
      (level width height : Z)
  | Ev_viewport_request_redraw
  | Ev_record_prev_persmat
  | Ev_swap_double_buffers.

(** The engine data reachable from [vedata], [sldata], [e_data] and the
    draw manager, as far as this file reads or writes it. *)
Record World := mkWorld {
  tex : tex_slot → option GPUTexture;
  fb : fb_slot → option GPUFrameBuffer;
  (** effects->enabled_effects *)
  enabled_effects : Z;
  (** effects->bloom_iteration_ct *)
  bloom_iteration_ct : Z;
  (** effects->ssr_ray_count *)
  ssr_ray_count : Z;
  (** effects->reflection_trace_full *)
  reflection_trace_full : bool;
  (** stl->g_data->valid_double_buffer *)
  valid_double_buffer : bool;
  (** sldata->volumetrics: NULL, or its use_colored_transmit *)
  volumetrics : option bool;
  (** e_data.depth_src_layer *)
  depth_src_layer : Z;
  (** per pass of psl, the buffer uniforms of its shading group *)
  psl : pass → list (string * tex_slot);
  (** identity given to the next GPU object created *)
  next_id : positive;
  (** the external calls made so far, oldest first *)
  trace : list event }.

Definition set_tex (s : tex_slot) (v : option GPUTexture) (w : World) : World :=
  let '(mkWorld a b c d e f g h i j k l) := w in
  mkWorld (<[s := v]> a) b c d e f g h i j k l.
Definition set_fb (s : fb_slot) (v : option GPUFrameBuffer) (w : World) : World :=
  let '(mkWorld a b c d e f g h i j k l) := w in
  mkWorld a (<[s := v]> b) c d e f g h i j k l.
Definition set_enabled_effects (v : Z) (w : World) : World :=
  let '(mkWorld a b c d e f g h i j k l) := w in
  mkWorld a b v d e f g h i j k l.
Definition set_bloom_iteration_ct (v : Z) (w : World) : World :=
  let '(mkWorld a b c d e f g h i j k l) := w in
  mkWorld a b c v e f g h i j k l.
Definition set_ssr_ray_count (v : Z) (w : World) : World :=
  let '(mkWorld a b c d e f g h i j k l) := w in
  mkWorld a b c d v f g h i j k l.
Definition set_reflection_trace_full (v : bool) (w : World) : World :=
  let '(mkWorld a b c d e f g h i j k l) := w in
  mkWorld a b c d e v g h i j k l.
Definition set_valid_double_buffer (v : bool) (w : World) : World :=
  let '(mkWorld a b c d e f g h i j k l) := w in
  mkWorld a b c d e f v h i j k l.
Definition set_volumetrics (v : option bool) (w : World) : World :=
  let '(mkWorld a b c d e f g h i j k l) := w in
  mkWorld a b c d e f g v i j k l.
Definition set_depth_src_layer (v : Z) (w : World) : World :=
  let '(mkWorld a b c d e f g h i j k l) := w in
  mkWorld a b c d e f g h v j k l.
Definition set_psl (p : pass) (v : list (string * tex_slot)) (w : World) : World :=
  let '(mkWorld a b c d e f g h i j k l) := w in
  mkWorld a b c d e f g h i (<[p := v]> j) k l.
Definition set_next_id (v : positive) (w : World) : World :=
  let '(mkWorld a b c d e f g h i j k l) := w in
  mkWorld a b c d e f g h i j v l.
Definition log (e : event) (w : World) : World :=
  let '(mkWorld a b c d e' f g h i j k l) := w in
  mkWorld a b c d e' f g h i j k (l ++ [e]).

(** ** The command monad: state passing over [World] *)

Definition M (A : Type) : Type := World → A * World.

Global Instance M_ret : MRet M := λ A a w, (a, w).
Global Instance M_bind : MBind M :=
  λ A B f m w, let '(a, w') := m w in f a w'.

Definition gets {A} (f : World → A) : M A := λ w, (f w, w).
Definition modify (f : World → World) : M unit := λ w, (tt, f w).
Definition exec {A} (m : M A) (w : World) : World := snd (m w).

Definition when (b : bool) (m : M unit) : M unit :=
  if b then m else mret tt.

(** [for (i in l) body(i);] *)
Fixpoint for_each {A} (l : list A) (body : A → M unit) : M unit :=
  match l with
  | [] => mret tt
  | i :: l' => body i ;; for_each l' body
  end.

(** The events emitted between an earlier state and a later one. *)
Definition emitted (w w' : World) : list event :=
  drop (length (trace w)) (trace w').

(** The number of exchanges of the main and history targets in a trace. *)
Fixpoint swap_count (t : list event) : nat :=
  match t with
  | [] => 0
  | Ev_swap_double_buffers :: t' => S (swap_count t')
  | _ :: t' => swap_count t'
  end.

(** [for (i in l) { s = body(i, s); }], for a loop that updates a local. *)
Fixpoint for_fold {A S} (l : list A) (s : S) (body : A → S → M S) : M S :=
  match l with
  | [] => mret s
  | i :: l' => s' ← body i s; for_fold l' s' body
  end.

(** ** Draw-manager calls *)

Definition emit (e : event) : M unit := modify (log e).
Definition get_tex (s : tex_slot) : M (option GPUTexture) :=
  gets (λ w, tex w s).
Definition get_fb (s : fb_slot) : M (option GPUFrameBuffer) :=
  gets (λ w, fb w s).
Definition put_tex (s : tex_slot) (v : option GPUTexture) : M unit :=
  modify (set_tex s v).
Definition put_fb (s : fb_slot) (v : option GPUFrameBuffer) : M unit :=
  modify (set_fb s v).

Definition DRW_framebuffer_bind (f : option GPUFrameBuffer) : M unit :=
  emit (Ev_framebuffer_bind f).

(** Drawing a pass dereferences the slots its buffer uniforms point to. *)
Definition DRW_draw_pass (p : pass) : M unit :=
  λ w, emit (Ev_draw_pass p (map (λ b, (b.1, tex w b.2)) (psl w p))) w.

Definition DRW_framebuffer_clear
    (color depth stencil : bool) (clear_col : vec4) : M unit :=
  emit (Ev_framebuffer_clear color depth stencil clear_col).
Definition DRW_framebuffer_texture_attach
    (f : option GPUFrameBuffer) (t : option GPUTexture) (slot mip : Z) : M unit :=
  emit (Ev_framebuffer_texture_attach f t slot mip).
Definition DRW_framebuffer_texture_detach (t : option GPUTexture) : M unit :=
  emit (Ev_framebuffer_texture_detach t).
Definition DRW_transform_to_display (t : option GPUTexture) : M unit :=
  emit (Ev_transform_to_display t).
Definition DRW_viewport_request_redraw : M unit :=
  emit Ev_viewport_request_redraw.

(** ** EEVEE_draw_effects *)

Section draw_effects.
Context `{EEVEE_private}.

(** The macro SWAP_DOUBLE_BUFFERS; the local [swap_double_buffer] of
    [EEVEE_draw_effects] that it reads and clears is passed in and out. *)
Definition SWAP_DOUBLE_BUFFERS (swap_double_buffer : bool) : M bool :=
  if swap_double_buffer then
    main ← get_fb FBL_main;
    double_buffer ← get_fb FBL_double_buffer;
    put_fb FBL_main double_buffer;;
    put_fb FBL_double_buffer main;;
    color ← get_tex TXL_color;
    color_double_buffer ← get_tex TXL_color_double_buffer;
    put_tex TXL_color color_double_buffer;;
    put_tex TXL_color_double_buffer color;;
    emit Ev_swap_double_buffers;;
    mret false
  else mret swap_double_buffer.

(** The macro SWAP_BUFFERS. *)
Definition SWAP_BUFFERS (swap_double_buffer : bool) : M bool :=
  source_buffer ← get_tex EFX_source_buffer;
  color ← get_tex TXL_color;
  if bool_decide (source_buffer = color) then
    swap_double_buffer ← SWAP_DOUBLE_BUFFERS swap_double_buffer;
    color_post ← get_tex TXL_color_post;
    put_tex EFX_source_buffer color_post;;
    main ← get_fb FBL_main;
    put_fb EFX_target_buffer main;;
    mret swap_double_buffer
  else
    swap_double_buffer ← SWAP_DOUBLE_BUFFERS swap_double_buffer;
    color ← get_tex TXL_color;
    put_tex EFX_source_buffer color;;
    effect_fb ← get_fb FBL_effect_fb;
    put_fb EFX_target_buffer effect_fb;;
    mret swap_double_buffer.

Definition clear_col_zero : vec4 := (0, 0, 0, 0)%Q.

Definition draw_motion_blur (swap_double_buffer : bool) : M bool :=
  target ← get_fb EFX_target_buffer;
  DRW_framebuffer_bind target;;
  DRW_draw_pass PSL_motion_blur;;
  SWAP_BUFFERS swap_double_buffer.

Definition draw_dof (swap_double_buffer : bool) : M bool :=
  (* Downsample *)
  dof_down_fb ← get_fb FBL_dof_down_fb;
  DRW_framebuffer_bind dof_down_fb;;
  DRW_draw_pass PSL_dof_down;;
  (* Scatter Far *)
  dof_down_far ← get_tex TXL_dof_down_far;
  put_tex EFX_unf_source_buffer dof_down_far;;
  far_fb ← get_fb FBL_dof_scatter_far_fb;
  DRW_framebuffer_bind far_fb;;
  DRW_framebuffer_clear true false false clear_col_zero;;
  DRW_draw_pass PSL_dof_scatter;;
  (* Scatter Near *)
  e ← gets enabled_effects;
  (if bool_decide (Z.land e EFFECT_BLOOM ≠ 0) then
     t ← get_tex (TXL_bloom_downsample 0);
     put_tex EFX_unf_source_buffer t
   else
     t ← get_tex TXL_dof_down_near;
     put_tex EFX_unf_source_buffer t);;
  near_fb ← get_fb FBL_dof_scatter_near_fb;
  DRW_framebuffer_bind near_fb;;
  DRW_framebuffer_clear true false false clear_col_zero;;
  DRW_draw_pass PSL_dof_scatter;;
  (* Resolve *)
  target ← get_fb EFX_target_buffer;
  DRW_framebuffer_bind target;;
  DRW_draw_pass PSL_dof_resolve;;
  SWAP_BUFFERS swap_double_buffer.

Definition draw_bloom (swap_double_buffer : bool) : M bool :=
  (* Extract bright pixels *)
  source_buffer ← get_tex EFX_source_buffer;
  put_tex EFX_unf_source_buffer source_buffer;;
  blit_fb ← get_fb FBL_bloom_blit_fb;
  DRW_framebuffer_bind blit_fb;;
  DRW_draw_pass PSL_bloom_blit;;
  (* Downsample *)
  bloom_blit ← get_tex TXL_bloom_blit;
  put_tex EFX_unf_source_buffer bloom_blit;;
  down_fb0 ← get_fb (FBL_bloom_down_fb 0);
  DRW_framebuffer_bind down_fb0;;
  DRW_draw_pass PSL_bloom_downsample_first;;
  last ← get_tex (TXL_bloom_downsample 0);
  ct ← gets bloom_iteration_ct;
  (* for (i = 1; i < ct; ++i) *)
  last ← for_fold (seqZ 1 (ct - 1)) last (λ i last,
    put_tex EFX_unf_source_buffer last;;
    down_fb ← get_fb (FBL_bloom_down_fb i);
    DRW_framebuffer_bind down_fb;;
    DRW_draw_pass PSL_bloom_downsample;;
    get_tex (TXL_bloom_downsample i));
  (* Upsample and accumulate: for (i = ct - 2; i >= 0; --i) *)
  last ← for_fold (reverse (seqZ 0 (ct - 1))) last (λ i last,
    t ← get_tex (TXL_bloom_downsample i);
    put_tex EFX_unf_source_buffer t;;
    put_tex EFX_unf_base_buffer last;;
    accum_fb ← get_fb (FBL_bloom_accum_fb i);
    DRW_framebuffer_bind accum_fb;;
    DRW_draw_pass PSL_bloom_upsample;;
    get_tex (TXL_bloom_upsample i));
  (* Resolve *)
  put_tex EFX_unf_source_buffer last;;
  source_buffer ← get_tex EFX_source_buffer;
  put_tex EFX_unf_base_buffer source_buffer;;
  target ← get_fb EFX_target_buffer;
  DRW_framebuffer_bind target;;
  DRW_draw_pass PSL_bloom_resolve;;
  SWAP_BUFFERS swap_double_buffer.

(** The [switch (G.debug_value)] that routes an intermediate buffer to
    the display. *)
Definition draw_debug (debug_value : Z) : M unit :=
  let show (s : tex_slot) : M unit :=
    t ← get_tex s;
    when (bool_decide (t ≠ None)) (DRW_transform_to_display t) in
  when (bool_decide (0 < debug_value) && bool_decide (debug_value ≤ 5))
    (match debug_value with
     | 1 => show G_minzbuffer
     | 2 => show (G_ssr_hit_output 0)
     | 3 => show TXL_ssr_normal_input
     | 4 => show TXL_ssr_specrough_input
     | 5 => show TXL_color_double_buffer
     | _ => mret tt
     end).

(** [G.debug_value] and the answer of [DRW_state_is_image_render] are
    inputs of the frame. *)
Definition EEVEE_draw_effects
    (debug_value : Z) (is_image_render : bool) : M unit :=
  (* only once per frame after the first post process *)
  e ← gets enabled_effects;
  let swap_double_buffer := bool_decide (Z.land e EFFECT_DOUBLE_BUFFER ≠ 0) in
  (* Init pointers *)
  color ← get_tex TXL_color;
  put_tex EFX_source_buffer color;;
  effect_fb ← get_fb FBL_effect_fb;
  put_fb EFX_target_buffer effect_fb;;
  (* Detach depth for effects to use it *)
  depth ← get_tex DTXL_depth;
  DRW_framebuffer_texture_detach depth;;
  (* Motion Blur *)
  e ← gets enabled_effects;
  swap_double_buffer ←
    (if bool_decide (Z.land e EFFECT_MOTION_BLUR ≠ 0)
     then draw_motion_blur swap_double_buffer else mret swap_double_buffer);
  (* Depth Of Field *)
  e ← gets enabled_effects;
  swap_double_buffer ←
    (if bool_decide (Z.land e EFFECT_DOF ≠ 0)
     then draw_dof swap_double_buffer else mret swap_double_buffer);
  (* Bloom *)
  e ← gets enabled_effects;
  swap_double_buffer ←
    (if bool_decide (Z.land e EFFECT_BLOOM ≠ 0)
     then draw_bloom swap_double_buffer else mret swap_double_buffer);
  (* Restore default framebuffer *)
  default_fb ← get_fb DFBL_default_fb;
  depth ← get_tex DTXL_depth;
  DRW_framebuffer_texture_attach default_fb depth 0 0;;
  DRW_framebuffer_bind default_fb;;
  (* Tonemapping *)
  source_buffer ← get_tex EFX_source_buffer;
  DRW_transform_to_display source_buffer;;
  (* Debug : Ouput buffer to view. *)
  draw_debug debug_value;;
  (* If no post processes is enabled, buffers are still not swapped, do it now. *)
  swap_double_buffer ← SWAP_DOUBLE_BUFFERS swap_double_buffer;
  valid ← gets valid_double_buffer;
  e ← gets enabled_effects;
  when (negb valid && bool_decide (Z.land e EFFECT_DOUBLE_BUFFER ≠ 0)
        && negb is_image_render)
    DRW_viewport_request_redraw;;
  (* Record pers matrix for the next frame. *)
  emit Ev_record_prev_persmat;;
  (* Update double buffer status if render mode. *)
  when is_image_render
    (color_double_buffer ← get_tex TXL_color_double_buffer;
     modify (set_valid_double_buffer (bool_decide (color_double_buffer ≠ None)))).

End draw_effects.


(** The passes drawn and the textures sent to the display, in order. *)
Definition drawn (t : list event) : list pass :=
  omap (λ e, match e with Ev_draw_pass p _ => Some p | _ => None end) t.
Definition displayed (t : list event) : list (option GPUTexture) :=
  omap (λ e, match e with Ev_transform_to_display x => Some x | _ => None end) t.

(** What a trace shows of the screen-space reflection stage: the
    framebuffers bound, the clears, and the draws of its two passes. *)
Inductive ssr_step :=
  | Ssr_bind (fb : option GPUFrameBuffer)
  | Ssr_clear (color depth stencil : bool) (clear_col : vec4)
  | Ssr_raytrace
  | Ssr_resolve.

Definition ssr_steps (t : list event) : list ssr_step :=
  omap (λ e,
    match e with
    | Ev_framebuffer_bind f => Some (Ssr_bind f)
    | Ev_framebuffer_clear c d s col => Some (Ssr_clear c d s col)
    | Ev_draw_pass PSL_ssr_raytrace _ => Some Ssr_raytrace
    | Ev_draw_pass PSL_ssr_resolve _ => Some Ssr_resolve
    | _ => None
    end) t.

(** The mip levels made a render target, in order: texture, level, size. *)
Definition mip_levels (t : list event) : list (option GPUTexture * Z * Z * Z) :=
  omap (λ e,
    match e with
    | Ev_mip_target _ t l x y => Some (t, l, x, y)
    | _ => None
    end) t.

(** The calls of [DRW_framebuffer_init] on the framebuffer field [s], in
    order: size, texture descriptors, number of textures. *)
Definition framebuffer_inits (s : fb_slot) (t : list event)
  : list (Z * Z * list DRWFboTexture * Z) :=
  omap (λ e,
    match e with
    | Ev_framebuffer_init s' _ x y textures n =>
        if decide (s' = s) then Some (x, y, textures, n) else None
    | _ => None
    end) t.

(** What the framebuffer field [s] held at each of those calls. *)
Definition framebuffer_init_found (s : fb_slot) (t : list event)
  : list (option GPUFrameBuffer) :=
  omap (λ e,
    match e with
    | Ev_framebuffer_init s' found _ _ _ _ =>
        if decide (s' = s) then Some found else None
    | _ => None
    end) t.

(** The draws of the depth-of-field scatter pass, each with the textures
    its buffer uniforms resolved to. *)
Definition scatter_draws (t : list event)
  : list (list (string * option GPUTexture)) :=
  omap (λ e,
    match e with
    | Ev_draw_pass PSL_dof_scatter buffers => Some buffers
    | _ => None
    end) t.

(** The objects freed, in order. *)
Definition freed_framebuffers (t : list event) : list GPUFrameBuffer :=
  omap (λ e, match e with Ev_framebuffer_free f => Some f | _ => None end) t.
Definition freed_textures (t : list event) : list GPUTexture :=
  omap (λ e, match e with Ev_texture_free x => Some x | _ => None end) t.

(** ** Macros and draw-manager functions used by EEVEE_effects_init *)

(** Modelled from the spec: the macros CLAMP, MIN2 and MAX2 of
    BLI_utildefines.h, which is not among the sources at hand.  The spec
    reads CLAMP(a, b, c) as "clamped to [b, c]"; the macro assigns [b] when
    [a < b], else [c] when [a > c]. *)
Definition CLAMP (a b c : Z) : Z :=
  if a <? b then b else if a >? c then c else a.
Definition MIN2 (a b : Z) : Z := if a <? b then a else b.
Definition MAX2 (a b : Z) : Z := if a >? b then a else b.

(** The identity of a new GPU object. *)
Definition fresh_id : M positive :=
  id ← gets next_id;
  modify (set_next_id (Pos.succ id));;
  mret id.

(** Modelled from the spec: [DRW_texture_create_2D] of the draw manager,
    not among the sources at hand; it returns a new texture of the size
    and format asked for. *)
Definition DRW_texture_create_2D
    (width height : Z) (format : DRWTextureFormat)
    (flags : list DRWTextureFlag) : M (option GPUTexture) :=
  id ← fresh_id;
  let t := mkTex id width height format in
  emit (Ev_texture_create_2D t flags);;
  mret (Some t).

Definition is_temp (t : DRWFboTexture) : bool :=
  bool_decide (DRW_TEX_TEMP ∈ fbo_flag t).

(** Modelled from the spec: [DRW_framebuffer_init] of the draw manager,
    not among the sources at hand.  Spec section 3: framebuffers and
    textures are "created on first need"; a configuration change is
    handled by the caller, which frees the framebuffer and clears the
    field so that this call builds it again (as the source does for
    [dof_down_fb] and [volumetric_fb]).  So: when the framebuffer field is
    NULL a framebuffer is created, and each of the first [textures_len]
    texture fields that is NULL gets a new texture of the given size; a
    texture flagged DRW_TEX_TEMP belongs to the viewport's pool and is
    fetched anew on every call. *)
Definition fbo_texture_init
    (create_fb : bool) (width height : Z) (t : DRWFboTexture) : M unit :=
  cur ← get_tex (fbo_tex t);
  if is_temp t || (create_fb && bool_decide (cur = None)) then
    id ← fresh_id;
    put_tex (fbo_tex t) (Some (mkTex id width height (fbo_format t)))
  else mret tt.

Definition DRW_framebuffer_init
    (s : fb_slot) (width height : Z)
    (textures : list DRWFboTexture) (textures_len : Z) : M unit :=
  cur ← get_fb s;
  emit (Ev_framebuffer_init s cur width height textures textures_len);;
  let create_fb := bool_decide (cur = None) in
  when create_fb (id ← fresh_id; put_fb s (Some (mkFb id)));;
  for_each (take (Z.to_nat textures_len) textures)
    (fbo_texture_init create_fb width height).

(** Modelled from the spec: the macros DRW_TEXTURE_FREE_SAFE and
    DRW_FRAMEBUFFER_FREE_SAFE of DRW_render.h, not among the sources at
    hand: a non-NULL field is freed and set to NULL ("cleanup to release
    memory"), a NULL field is left alone. *)
Definition DRW_TEXTURE_FREE_SAFE (s : tex_slot) : M unit :=
  cur ← get_tex s;
  match cur with
  | Some t => emit (Ev_texture_free t);; put_tex s None
  | None => mret tt
  end.

Definition DRW_FRAMEBUFFER_FREE_SAFE (s : fb_slot) : M unit :=
  cur ← get_fb s;
  match cur with
  | Some f => emit (Ev_framebuffer_free f);; put_fb s None
  | None => mret tt
  end.

(** ** The bloom iteration count *)

(** [maxIter = (radius - 8.0f) + log(minDim) / log(2)] with
    [minDim = (float)MIN2(blitsize[0], blitsize[1])], as C evaluates it:
    the subtraction in [float]; [log] on the promoted [minDim] and on 2.0,
    their quotient and the sum in [double]; the result rounded into the
    [const float]. *)
Definition maxIter `{EEVEE_private} (radius : float) (blitsize : Z * Z) : float :=
  let minDim := int_to_float (MIN2 blitsize.1 blitsize.2) in
  double_to_float
    (double_add
       (float_to_double (float_sub radius (int_to_float 8)))
       (double_div (libm_log (float_to_double minDim))
                   (libm_log (int_to_double 2)))).

(** [maxIterInt = (int)maxIter] *)
Definition maxIterInt `{EEVEE_private} (radius : float) (blitsize : Z * Z) : Z :=
  float_to_int (maxIter radius blitsize).

(** The iteration count in the words of the spec (section 4.1):
    "iterations = floor(radius - 8 + log2(minDim)), clamped to
    [1, MAX_BLOOM_STEP]", minDim being the image's minor dimension. *)
Definition spec_bloom_iterations `{EEVEE_private}
    (radius : R) (width height : Z) : Z :=
  Z.max 1
    (Z.min (Zfloor (radius - 8 + ln (IZR (Z.min width height)) / ln 2)%R)
       MAX_BLOOM_STEP).

(** ** EEVEE_effects_init *)

(** What the init reads from outside the engine data: the viewport size
    (as the [int]s it is cast to), the evaluated scene-layer properties by
    name, and the outcome of the tests on the view and the scene. *)
Record FrameInput := {
  viewport_size : Z * Z;
  (** BKE_collection_engine_property_value_get_bool(props, name) *)
  get_bool : string → bool;
  (** BKE_collection_engine_property_value_get_int(props, name) *)
  get_int : string → Z;
  (** BKE_collection_engine_property_value_get_float(props, name) *)
  get_float : string → float;
  (** draw_ctx->evil_C != NULL *)
  evil_C : bool;
  (** rv3d->persp == RV3D_CAMOB && v3d->camera *)
  camera_view : bool;
  (** compare_m4m4(persmat, effects->current_ndc_to_world, 0.0001f) *)
  camera_not_keyed : bool;
  (** (wo != NULL) && (wo->use_nodes) && (wo->nodetree != NULL) *)
  world_nodetree : bool }.

Section effects_init.
Context `{EEVEE_private}.

(** The bloom block.  Here and below [enabled] is the local variable
    [enabled_effects] of the function, as opposed to the field
    [effects->enabled_effects]. *)
Definition init_bloom (inp : FrameInput) (enabled : Z) : M Z :=
  let blitsize := viewport_size inp in
  (* Blit Buffer *)
  DRW_framebuffer_init FBL_bloom_blit_fb blitsize.1 blitsize.2
    [mkFboTex TXL_bloom_blit DRW_TEX_RGB_11_11_10 [DRW_TEX_FILTER]] 1;;
  (* determine the iteration count *)
  let radius := get_float inp "bloom_radius" in
  modify (set_bloom_iteration_ct (maxIterInt radius blitsize));;
  ct ← gets bloom_iteration_ct;
  modify (set_bloom_iteration_ct (CLAMP ct 1 MAX_BLOOM_STEP));;
  (* Downsample buffers *)
  ct ← gets bloom_iteration_ct;
  for_fold (seqZ 0 ct) blitsize (λ i texsize,
    let texsize := (texsize.1 `quot` 2, texsize.2 `quot` 2) in
    let texsize := (MAX2 texsize.1 2, MAX2 texsize.2 2) in
    DRW_framebuffer_init (FBL_bloom_down_fb i) texsize.1 texsize.2
      [mkFboTex (TXL_bloom_downsample i) DRW_TEX_RGB_11_11_10 [DRW_TEX_FILTER]] 1;;
    mret texsize);;
  (* Upsample buffers *)
  ct ← gets bloom_iteration_ct;
  for_fold (seqZ 0 (ct - 1)) blitsize (λ i texsize,
    let texsize := (texsize.1 `quot` 2, texsize.2 `quot` 2) in
    let texsize := (MAX2 texsize.1 2, MAX2 texsize.2 2) in
    DRW_framebuffer_init (FBL_bloom_accum_fb i) texsize.1 texsize.2
      [mkFboTex (TXL_bloom_upsample i) DRW_TEX_RGB_11_11_10 [DRW_TEX_FILTER]] 1;;
    mret texsize);;
  mret (Z.lor enabled EFFECT_BLOOM).

(** The depth-of-field block, entered when the view is through a camera. *)
Definition init_dof (inp : FrameInput) (enabled : Z) : M Z :=
  let buffer_size :=
    ((viewport_size inp).1 `quot` 2, (viewport_size inp).2 `quot` 2) in
  (* effects->enabled_effects still holds the mask of the last frame *)
  last_enabled ← gets enabled_effects;
  (* Reuse buffer from Bloom if available *)
  let '(dof_down_near, fb_reset) :=
    if bool_decide (Z.land enabled EFFECT_BLOOM ≠ 0) then
      (TXL_bloom_downsample 0,
       if bool_decide (Z.land last_enabled EFFECT_BLOOM = 0) then true else false)
    else if bool_decide (Z.land last_enabled EFFECT_BLOOM ≠ 0) then
      (TXL_dof_down_near, true)
    else (TXL_dof_down_near, false) in
  (* if framebuffer config must be changed *)
  dof_down_fb ← get_fb FBL_dof_down_fb;
  (match dof_down_fb with
   | Some f =>
       when fb_reset (emit (Ev_framebuffer_free f);; put_fb FBL_dof_down_fb None)
   | None => mret tt
   end);;
  (* Setup buffers *)
  DRW_framebuffer_init FBL_dof_down_fb buffer_size.1 buffer_size.2
    [mkFboTex dof_down_near DRW_TEX_RGB_11_11_10 [DRW_TEX_FILTER];
     mkFboTex TXL_dof_down_far DRW_TEX_RGB_11_11_10 [];
     mkFboTex TXL_dof_coc DRW_TEX_RG_16 []] 3;;
  DRW_framebuffer_init FBL_dof_scatter_far_fb buffer_size.1 buffer_size.2
    [mkFboTex TXL_dof_far_blur DRW_TEX_RGBA_16 [DRW_TEX_FILTER]] 1;;
  DRW_framebuffer_init FBL_dof_scatter_near_fb buffer_size.1 buffer_size.2
    [mkFboTex TXL_dof_near_blur DRW_TEX_RGBA_16 [DRW_TEX_FILTER]] 1;;
  mret (Z.lor enabled EFFECT_DOF).

(** The volumetric block, entered when the world has a node tree. *)
Definition init_volumetric (inp : FrameInput) : M unit :=
  let size := ((viewport_size inp).1 `quot` 2, (viewport_size inp).2 `quot` 2) in
  e ← gets enabled_effects;
  modify (set_enabled_effects (Z.lor e EFFECT_VOLUMETRIC));;
  v ← gets volumetrics;
  (* a NULL sldata->volumetrics is allocated zeroed *)
  let last_use_colored_transmit := default false v in
  let use_colored_transmit := get_bool inp "volumetric_colored_transmittance" in
  modify (set_volumetrics (Some use_colored_transmit));;
  when (bool_decide (last_use_colored_transmit ≠ use_colored_transmit))
    (DRW_FRAMEBUFFER_FREE_SAFE FBL_volumetric_fb);;
  (* Integration result buffer(s) *)
  if bool_decide (use_colored_transmit = false) then
    DRW_framebuffer_init FBL_volumetric_fb size.1 size.2
      [mkFboTex G_volumetric DRW_TEX_RGBA_16
         [DRW_TEX_MIPMAP; DRW_TEX_FILTER; DRW_TEX_TEMP]] 1
  else
    DRW_framebuffer_init FBL_volumetric_fb size.1 size.2
      [mkFboTex G_volumetric DRW_TEX_RGB_11_11_10
         [DRW_TEX_MIPMAP; DRW_TEX_FILTER; DRW_TEX_TEMP];
       mkFboTex G_volumetric_transmit DRW_TEX_RGB_11_11_10
         [DRW_TEX_MIPMAP; DRW_TEX_FILTER; DRW_TEX_TEMP]] 2.

(** The array [tex_output] of the reflection block: the four hit
    outputs of the raytrace pass. *)
Definition tex_output : list DRWFboTexture :=
  [mkFboTex (G_ssr_hit_output 0) DRW_TEX_RGBA_16 [DRW_TEX_TEMP];
   mkFboTex (G_ssr_hit_output 1) DRW_TEX_RGBA_16 [DRW_TEX_TEMP];
   mkFboTex (G_ssr_hit_output 2) DRW_TEX_RGBA_16 [DRW_TEX_TEMP];
   mkFboTex (G_ssr_hit_output 3) DRW_TEX_RGBA_16 [DRW_TEX_TEMP]].

(** The screen-space reflection block and its [else] branch. *)
Definition init_ssr (inp : FrameInput) : M unit :=
  let viewport := viewport_size inp in
  if get_bool inp "ssr_enable" then
    e ← gets enabled_effects;
    modify (set_enabled_effects (Z.lor e EFFECT_SSR));;
    (* Enable double buffering to be able to read previous frame color *)
    e ← gets enabled_effects;
    modify (set_enabled_effects (Z.lor e EFFECT_DOUBLE_BUFFER));;
    modify (set_ssr_ray_count (get_int inp "ssr_ray_count"));;
    modify (set_reflection_trace_full (negb (get_bool inp "ssr_halfres")));;
    (* Important, can lead to breakage otherwise. *)
    rc ← gets ssr_ray_count;
    modify (set_ssr_ray_count (CLAMP rc 1 4));;
    full ← gets reflection_trace_full;
    let divisor := if (full : bool) then 1 else 2 in
    let tracing_res := (viewport.1 `quot` divisor, viewport.2 `quot` divisor) in
    (* MRT for the shading pass in order to output needed data for the SSR pass. *)
    nor ← get_tex TXL_ssr_normal_input;
    when (bool_decide (nor = None))
      (t ← DRW_texture_create_2D viewport.1 viewport.2 DRW_TEX_RG_16 [];
       put_tex TXL_ssr_normal_input t);;
    spec ← get_tex TXL_ssr_specrough_input;
    when (bool_decide (spec = None))
      (t ← DRW_texture_create_2D viewport.1 viewport.2 DRW_TEX_RGBA_16 [];
       put_tex TXL_ssr_specrough_input t);;
    (* Reattach textures to the right buffer *)
    nor ← get_tex TXL_ssr_normal_input;
    spec ← get_tex TXL_ssr_specrough_input;
    main ← get_fb FBL_main;
    DRW_framebuffer_texture_detach nor;;
    DRW_framebuffer_texture_detach spec;;
    DRW_framebuffer_texture_attach main nor 1 0;;
    DRW_framebuffer_texture_attach main spec 2 0;;
    (* Raytracing output *)
    rc ← gets ssr_ray_count;
    DRW_framebuffer_init FBL_screen_tracing_fb tracing_res.1 tracing_res.2
      tex_output rc
  else
    (* Cleanup to release memory *)
    DRW_TEXTURE_FREE_SAFE TXL_ssr_normal_input;;
    DRW_TEXTURE_FREE_SAFE TXL_ssr_specrough_input;;
    DRW_FRAMEBUFFER_FREE_SAFE FBL_screen_tracing_fb;;
    for_each (seqZ 0 4) (λ i, put_tex (G_ssr_hit_output i) None).

(** Setup double buffer so we can access last frame as it was before
    post processes; else cleanup to release memory. *)
Definition init_double_buffer (inp : FrameInput) : M unit :=
  let viewport := viewport_size inp in
  e ← gets enabled_effects;
  if bool_decide (Z.land e EFFECT_DOUBLE_BUFFER ≠ 0) then
    DRW_framebuffer_init FBL_double_buffer viewport.1 viewport.2
      [mkFboTex TXL_color_double_buffer DRW_TEX_RGB_11_11_10
         [DRW_TEX_FILTER; DRW_TEX_MIPMAP]] 1
  else
    DRW_TEXTURE_FREE_SAFE TXL_color_double_buffer;;
    DRW_FRAMEBUFFER_FREE_SAFE FBL_double_buffer.

(** The function, from the declaration of the local [enabled_effects] on;
    the shader compilation that precedes it touches none of the state
    modelled here. *)
Definition EEVEE_effects_init (inp : FrameInput) : M unit :=
  let viewport := viewport_size inp in
  let enabled := 0 in
  (* Motion blur *)
  let enabled :=
    if get_bool inp "motion_blur_enable" && evil_C inp then
      if camera_view inp then
        (* Only continue if camera is not being keyed *)
        if camera_not_keyed inp
        then Z.lor enabled EFFECT_MOTION_BLUR
        else enabled
      else enabled
    else enabled in
  (* Bloom *)
  enabled ←
    (if get_bool inp "bloom_enable"
     then init_bloom inp enabled else mret enabled);
  (* Depth Of Field *)
  enabled ←
    (if get_bool inp "dof_enable" then
       if camera_view inp
       then init_dof inp enabled else mret enabled
     else mret enabled);
  (* effects->enabled_effects = enabled_effects; *)
  modify (set_enabled_effects enabled);;
  (* Only allocate if at least one effect is activated *)
  e ← gets enabled_effects;
  when (bool_decide (e ≠ 0))
    (DRW_framebuffer_init FBL_effect_fb viewport.1 viewport.2
       [mkFboTex TXL_color_post DRW_TEX_RGB_11_11_10 [DRW_TEX_FILTER]] 1);;
  (* MinMax Pyramid *)
  DRW_framebuffer_init FBL_downsample_fb (viewport.1 `quot` 2) (viewport.2 `quot` 2)
    [mkFboTex G_minzbuffer DRW_TEX_DEPTH_24 [DRW_TEX_MIPMAP; DRW_TEX_TEMP]] 1;;
  (* Cannot define 2 depth texture for one framebuffer. So allocate ourself. *)
  maxz ← get_tex TXL_maxzbuffer;
  when (bool_decide (maxz = None))
    (t ← DRW_texture_create_2D (viewport.1 `quot` 2) (viewport.2 `quot` 2)
           DRW_TEX_DEPTH_24 [DRW_TEX_MIPMAP];
     put_tex TXL_maxzbuffer t);;
  (* Volumetrics *)
  when (get_bool inp "volumetric_enable")
    (when (world_nodetree inp) (init_volumetric inp));;
  (* Screen space reflections *)
  init_ssr inp;;
  init_double_buffer inp.

End effects_init.

(** ** EEVEE_effects_cache_init *)

(** A shading group is named by the pass it was created in (every pass of
    this file has one group).  Of the uniforms only the buffer uniforms,
    bound by the address of a texture field, are recorded: they are what
    ties a pass to the resources. *)
Definition DRW_pass_create (p : pass) : M unit := modify (set_psl p []).

Definition DRW_shgroup_uniform_buffer
    (grp : pass) (name : string) (s : tex_slot) : M unit :=
  modify (λ w, set_psl grp (psl w grp ++ [(name, s)]) w).

Section effects_cache_init.
Context `{EEVEE_private}.

Definition eevee_create_bloom_pass (p : pass) (upsample : bool) : M unit :=
  DRW_pass_create p;;
  DRW_shgroup_uniform_buffer p "sourceBuffer" EFX_unf_source_buffer;;
  when upsample (DRW_shgroup_uniform_buffer p "baseBuffer" EFX_unf_base_buffer).

(** The volumetric block; [grp_created] tells whether
    [DRW_shgroup_material_create] returned a group (the world material
    compiled). *)
Definition cache_init_volumetric (grp_created : bool) : M unit :=
  v ← gets volumetrics;
  let use_colored_transmit := default false v in
  DRW_pass_create PSL_volumetric_integrate_ps;;
  if grp_created then
    let grp := PSL_volumetric_integrate_ps in
    DRW_shgroup_uniform_buffer grp "depthFull" E_depth_src;;
    DRW_shgroup_uniform_buffer grp "shadowCubes" SL_shadow_depth_cube_pool;;
    DRW_shgroup_uniform_buffer grp "irradianceGrid" SL_irradiance_pool;;
    if bool_decide (use_colored_transmit = false) then
      (* Monochromatic transmittance *)
      DRW_pass_create PSL_volumetric_resolve_ps;;
      DRW_shgroup_uniform_buffer PSL_volumetric_resolve_ps "depthFull" E_depth_src;;
      DRW_shgroup_uniform_buffer PSL_volumetric_resolve_ps "volumetricBuffer" G_volumetric
    else
      DRW_pass_create PSL_volumetric_resolve_transmit_ps;;
      DRW_shgroup_uniform_buffer PSL_volumetric_resolve_transmit_ps "depthFull" E_depth_src;;
      DRW_shgroup_uniform_buffer PSL_volumetric_resolve_transmit_ps
        "volumetricBuffer" G_volumetric_transmit;;
      DRW_pass_create PSL_volumetric_resolve_ps;;
      DRW_shgroup_uniform_buffer PSL_volumetric_resolve_ps "depthFull" E_depth_src;;
      DRW_shgroup_uniform_buffer PSL_volumetric_resolve_ps "volumetricBuffer" G_volumetric
  else
    (* Compilation failled *)
    e ← gets enabled_effects;
    modify (set_enabled_effects (Z.land e (Z.lnot EFFECT_VOLUMETRIC))).

(** The field of [stl->g_data->ssr_hit_output] bound to the uniform
    hitBuffer<i> of the resolve pass, for i = 1, 2, 3:
    [(effects->ssr_ray_count < i + 1) ? &ssr_hit_output[0] : &ssr_hit_output[i]]. *)
Definition hit_buffer_slot (ssr_ray_count i : Z) : tex_slot :=
  if ssr_ray_count <? i + 1 then G_ssr_hit_output 0 else G_ssr_hit_output i.

Definition cache_init_ssr : M unit :=
  DRW_pass_create PSL_ssr_raytrace;;
  let grp := PSL_ssr_raytrace in
  DRW_shgroup_uniform_buffer grp "depthBuffer" E_depth_src;;
  DRW_shgroup_uniform_buffer grp "normalBuffer" TXL_ssr_normal_input;;
  DRW_shgroup_uniform_buffer grp "specroughBuffer" TXL_ssr_specrough_input;;
  DRW_shgroup_uniform_buffer grp "maxzBuffer" TXL_maxzbuffer;;
  DRW_shgroup_uniform_buffer grp "minzBuffer" G_minzbuffer;;
  DRW_shgroup_uniform_buffer grp "planarDepth" TXL_planar_depth;;
  DRW_pass_create PSL_ssr_resolve;;
  let grp := PSL_ssr_resolve in
  DRW_shgroup_uniform_buffer grp "depthBuffer" E_depth_src;;
  DRW_shgroup_uniform_buffer grp "normalBuffer" TXL_ssr_normal_input;;
  DRW_shgroup_uniform_buffer grp "specroughBuffer" TXL_ssr_specrough_input;;
  DRW_shgroup_uniform_buffer grp "colorBuffer" TXL_color_double_buffer;;
  DRW_shgroup_uniform_buffer grp "probeCubes" SL_probe_pool;;
  DRW_shgroup_uniform_buffer grp "probePlanars" TXL_planar_pool;;
  DRW_shgroup_uniform_buffer grp "hitBuffer0" (G_ssr_hit_output 0);;
  rc ← gets ssr_ray_count;
  DRW_shgroup_uniform_buffer grp "hitBuffer1" (hit_buffer_slot rc 1);;
  rc ← gets ssr_ray_count;
  DRW_shgroup_uniform_buffer grp "hitBuffer2" (hit_buffer_slot rc 2);;
  rc ← gets ssr_ray_count;
  DRW_shgroup_uniform_buffer grp "hitBuffer3" (hit_buffer_slot rc 3).

Definition EEVEE_effects_cache_init (volume_grp_created : bool) : M unit :=
  e ← gets enabled_effects;
  when (bool_decide (Z.land e EFFECT_VOLUMETRIC ≠ 0))
    (cache_init_volumetric volume_grp_created);;
  e ← gets enabled_effects;
  when (bool_decide (Z.land e EFFECT_SSR ≠ 0)) cache_init_ssr;;
  (* Downsample *)
  DRW_pass_create PSL_color_downsample_ps;;
  DRW_shgroup_uniform_buffer PSL_color_downsample_ps "source" E_color_src;;
  (* Perform min/max downsample *)
  DRW_pass_create PSL_minz_downlevel_ps;;
  DRW_shgroup_uniform_buffer PSL_minz_downlevel_ps "depthBuffer" G_minzbuffer;;
  DRW_pass_create PSL_maxz_downlevel_ps;;
  DRW_shgroup_uniform_buffer PSL_maxz_downlevel_ps "depthBuffer" TXL_maxzbuffer;;
  (* Copy depth buffer to halfres top level of HiZ *)
  DRW_pass_create PSL_minz_downdepth_ps;;
  DRW_shgroup_uniform_buffer PSL_minz_downdepth_ps "depthBuffer" E_depth_src;;
  DRW_pass_create PSL_maxz_downdepth_ps;;
  DRW_shgroup_uniform_buffer PSL_maxz_downdepth_ps "depthBuffer" E_depth_src;;
  DRW_pass_create PSL_minz_downdepth_layer_ps;;
  DRW_shgroup_uniform_buffer PSL_minz_downdepth_layer_ps "depthBuffer" E_depth_src;;
  DRW_pass_create PSL_maxz_downdepth_layer_ps;;
  DRW_shgroup_uniform_buffer PSL_maxz_downdepth_layer_ps "depthBuffer" E_depth_src;;
  DRW_pass_create PSL_minz_copydepth_ps;;
  DRW_shgroup_uniform_buffer PSL_minz_copydepth_ps "depthBuffer" E_depth_src;;
  DRW_pass_create PSL_maxz_copydepth_ps;;
  DRW_shgroup_uniform_buffer PSL_maxz_copydepth_ps "depthBuffer" E_depth_src;;
  (* Motion blur *)
  DRW_pass_create PSL_motion_blur;;
  DRW_shgroup_uniform_buffer PSL_motion_blur "colorBuffer" EFX_source_buffer;;
  DRW_shgroup_uniform_buffer PSL_motion_blur "depthBuffer" DTXL_depth;;
  (* Bloom *)
  eevee_create_bloom_pass PSL_bloom_downsample_first false;;
  eevee_create_bloom_pass PSL_bloom_downsample false;;
  eevee_create_bloom_pass PSL_bloom_upsample true;;
  eevee_create_bloom_pass PSL_bloom_blit false;;
  eevee_create_bloom_pass PSL_bloom_resolve true;;
  (* Depth of Field *)
  DRW_pass_create PSL_dof_down;;
  DRW_shgroup_uniform_buffer PSL_dof_down "colorBuffer" EFX_source_buffer;;
  DRW_shgroup_uniform_buffer PSL_dof_down "depthBuffer" DTXL_depth;;
  DRW_pass_create PSL_dof_scatter;;
  DRW_shgroup_uniform_buffer PSL_dof_scatter "colorBuffer" EFX_unf_source_buffer;;
  DRW_shgroup_uniform_buffer PSL_dof_scatter "cocBuffer" TXL_dof_coc;;
  DRW_pass_create PSL_dof_resolve;;
  DRW_shgroup_uniform_buffer PSL_dof_resolve "colorBuffer" EFX_source_buffer;;
  DRW_shgroup_uniform_buffer PSL_dof_resolve "nearBuffer" TXL_dof_near_blur;;
  DRW_shgroup_uniform_buffer PSL_dof_resolve "farBuffer" TXL_dof_far_blur;;
  DRW_shgroup_uniform_buffer PSL_dof_resolve "depthBuffer" DTXL_depth.

End effects_cache_init.

(** ** The recursive downsample driver and the Hi-Z pyramids *)

(** Modelled from the spec: [DRW_framebuffer_recursive_downsample] of the
    draw manager, not among the sources at hand.  Spec section 4.4: "given
    a source framebuffer/texture and a maximum level count, repeatedly
    halve resolution, re-binding the same texture's next mip level as the
    render target and invoking a caller-supplied draw callback, until
    either the level cap or a 1x1 size is reached."  A dimension that
    halving would take below 1 stays at 1, which is how a texture that is
    not square reaches 1x1. *)
Fixpoint recursive_downsample_from
    (levels_left : nat) (level width height : Z)
    (fb : option GPUFrameBuffer) (t : GPUTexture)
    (callback : Z → M unit) : M unit :=
  match levels_left with
  | O => mret tt
  | S levels_left' =>
      if bool_decide (width = 1 ∧ height = 1) then mret tt
      else
        let width' := MAX2 (width `quot` 2) 1 in
        let height' := MAX2 (height `quot` 2) 1 in
        emit (Ev_mip_target fb (Some t) level width' height');;
        callback level;;
        recursive_downsample_from levels_left' (level + 1) width' height'
          fb t callback
  end.

Definition DRW_framebuffer_recursive_downsample
    (fb : option GPUFrameBuffer) (t : option GPUTexture) (num_iter : Z)
    (callback : Z → M unit) : M unit :=
  match t with
  | Some t' =>
      recursive_downsample_from (Z.to_nat num_iter) 1
        (tex_width t') (tex_height t') fb t' callback
  | None => mret tt
  end.

(** The levels the driver goes through, as a list: level and size. *)
Fixpoint mip_chain (levels_left : nat) (level width height : Z) : list (Z * Z * Z) :=
  match levels_left with
  | O => []
  | S levels_left' =>
      if bool_decide (width = 1 ∧ height = 1) then []
      else
        let width' := MAX2 (width `quot` 2) 1 in
        let height' := MAX2 (height `quot` 2) 1 in
        (level, width', height') :: mip_chain levels_left' (level + 1) width' height'
  end.

(** The levels below level 0 of a pyramid built on texture [t] with a
    cap of [num_iter] levels. *)
Definition pyramid (t : option GPUTexture) (num_iter : Z)
  : list (option GPUTexture * Z * Z * Z) :=
  match t with
  | Some t' =>
      (λ l, (t, l.1.1, l.1.2, l.2)) <$>
        mip_chain (Z.to_nat num_iter) 1 (tex_width t') (tex_height t')
  | None => []
  end.

Definition min_downsample_cb (level : Z) : M unit :=
  DRW_draw_pass PSL_minz_downlevel_ps.
Definition max_downsample_cb (level : Z) : M unit :=
  DRW_draw_pass PSL_maxz_downlevel_ps.
Definition simple_downsample_cb (level : Z) : M unit :=
  DRW_draw_pass PSL_color_downsample_ps.

Definition EEVEE_create_minmax_buffer
    (depth_src : option GPUTexture) (layer : Z) : M unit :=
  put_tex E_depth_src depth_src;;
  (* Copy depth buffer to min texture top level *)
  downsample_fb ← get_fb FBL_downsample_fb;
  minzbuffer ← get_tex G_minzbuffer;
  DRW_framebuffer_texture_attach downsample_fb minzbuffer 0 0;;
  DRW_framebuffer_bind downsample_fb;;
  (if bool_decide (0 ≤ layer) then
     modify (set_depth_src_layer layer);;
     DRW_draw_pass PSL_minz_downdepth_layer_ps
   else DRW_draw_pass PSL_minz_downdepth_ps);;
  DRW_framebuffer_texture_detach minzbuffer;;
  (* Create lower levels *)
  DRW_framebuffer_recursive_downsample downsample_fb minzbuffer 8 min_downsample_cb;;
  (* Copy depth buffer to max texture top level *)
  downsample_fb ← get_fb FBL_downsample_fb;
  maxzbuffer ← get_tex TXL_maxzbuffer;
  DRW_framebuffer_texture_attach downsample_fb maxzbuffer 0 0;;
  DRW_framebuffer_bind downsample_fb;;
  (if bool_decide (0 ≤ layer) then
     modify (set_depth_src_layer layer);;
     DRW_draw_pass PSL_maxz_downdepth_layer_ps
   else DRW_draw_pass PSL_maxz_downdepth_ps);;
  DRW_framebuffer_texture_detach maxzbuffer;;
  (* Create lower levels *)
  DRW_framebuffer_recursive_downsample downsample_fb maxzbuffer 8 max_downsample_cb.

(** Simple downsampling algorithm. Reconstruct mip chain up to mip level. *)
Definition EEVEE_downsample_buffer
    (fb_src : option GPUFrameBuffer) (texture_src : option GPUTexture)
    (level : Z) : M unit :=
  put_tex E_color_src texture_src;;
  DRW_framebuffer_recursive_downsample fb_src texture_src level simple_downsample_cb.

(** ** EEVEE_effects_do_ssr *)

(** The clear colour of the hit buffers when the history is not valid:
    [{0.0f, 0.0f, -1.0f, 0.001f}]. *)
Definition ssr_clear_col : vec4 := (0, 0, -1, 0.001)%Q.

Section effects_do_ssr.
Context `{EEVEE_private}.

Definition EEVEE_effects_do_ssr : M unit :=
  e ← gets enabled_effects;
  when (bool_decide (Z.land e EFFECT_SSR ≠ 0))
    (depth ← get_tex DTXL_depth;
     put_tex E_depth_src depth;;
     rc ← gets ssr_ray_count;
     for_each (seqZ 0 rc) (λ i,
       fb ← get_fb FBL_screen_tracing_fb;
       t ← get_tex (G_ssr_hit_output i);
       DRW_framebuffer_texture_attach fb t i 0);;
     fb ← get_fb FBL_screen_tracing_fb;
     DRW_framebuffer_bind fb;;
     valid ← gets valid_double_buffer;
     (if (valid : bool) then
        (* Raytrace. *)
        DRW_draw_pass PSL_ssr_raytrace
      else DRW_framebuffer_clear true false false ssr_clear_col);;
     rc ← gets ssr_ray_count;
     for_each (seqZ 0 rc) (λ i,
       t ← get_tex (G_ssr_hit_output i);
       DRW_framebuffer_texture_detach t);;
     downsample_fb ← get_fb FBL_downsample_fb;
     color_double_buffer ← get_tex TXL_color_double_buffer;
     EEVEE_downsample_buffer downsample_fb color_double_buffer 9;;
     (* Resolve at fullres *)
     depth ← get_tex DTXL_depth;
     nor ← get_tex TXL_ssr_normal_input;
     spec ← get_tex TXL_ssr_specrough_input;
     DRW_framebuffer_texture_detach depth;;
     DRW_framebuffer_texture_detach nor;;
     DRW_framebuffer_texture_detach spec;;
     main ← get_fb FBL_main;
     DRW_framebuffer_bind main;;
     DRW_draw_pass PSL_ssr_resolve;;
     (* Restore *)
     main ← get_fb FBL_main;
     depth ← get_tex DTXL_depth;
     nor ← get_tex TXL_ssr_normal_input;
     spec ← get_tex TXL_ssr_specrough_input;
     DRW_framebuffer_texture_attach main depth 0 0;;
     DRW_framebuffer_texture_attach main nor 1 0;;
     DRW_framebuffer_texture_attach main spec 2 0).

End effects_do_ssr.

(** ** EEVEE_effects_do_volumetrics *)

Section effects_do_volumetrics.
Context `{EEVEE_private}.

(** [sldata->volumetrics->use_colored_transmit] is read without a test of
    [sldata->volumetrics]: the init allocates the structure in the frame
    in which it sets the bit of the effect.  The properties below are
    stated for an allocated structure; here a NULL reads as the zeroed
    structure, as in [cache_init_volumetric]. *)
Definition EEVEE_effects_do_volumetrics : M unit :=
  e ← gets enabled_effects;
  when (bool_decide (Z.land e EFFECT_VOLUMETRIC ≠ 0))
    (depth ← get_tex DTXL_depth;
     put_tex E_depth_src depth;;
     (* Compute volumetric integration at halfres. *)
     volumetric_fb ← get_fb FBL_volumetric_fb;
     volumetric ← get_tex G_volumetric;
     DRW_framebuffer_texture_attach volumetric_fb volumetric 0 0;;
     v ← gets volumetrics;
     when (default false v)
       (volumetric_fb ← get_fb FBL_volumetric_fb;
        volumetric_transmit ← get_tex G_volumetric_transmit;
        DRW_framebuffer_texture_attach volumetric_fb volumetric_transmit 1 0);;
     volumetric_fb ← get_fb FBL_volumetric_fb;
     DRW_framebuffer_bind volumetric_fb;;
     DRW_draw_pass PSL_volumetric_integrate_ps;;
     (* Resolve at fullres *)
     depth ← get_tex DTXL_depth;
     DRW_framebuffer_texture_detach depth;;
     main ← get_fb FBL_main;
     DRW_framebuffer_bind main;;
     v ← gets volumetrics;
     when (default false v)
       (DRW_draw_pass PSL_volumetric_resolve_transmit_ps);;
     DRW_draw_pass PSL_volumetric_resolve_ps;;
     (* Restore *)
     main ← get_fb FBL_main;
     depth ← get_tex DTXL_depth;
     DRW_framebuffer_texture_attach main depth 0 0;;
     volumetric ← get_tex G_volumetric;
     DRW_framebuffer_texture_detach volumetric;;
     v ← gets volumetrics;
     when (default false v)
       (volumetric_transmit ← get_tex G_volumetric_transmit;
        DRW_framebuffer_texture_detach volumetric_transmit);;
     (* Rebind main buffer after attach/detach operations *)
     main ← get_fb FBL_main;
     DRW_framebuffer_bind main).

End effects_do_volumetrics.

(** ** The shaders of e_data *)

(** The GLSL sources linked into the binary ([datatoc_*_glsl]), by name. *)
Inductive datatoc :=
  | bsdf_common_lib_glsl | bsdf_sampling_lib_glsl | octahedron_lib_glsl
  | effect_ssr_frag_glsl | effect_minmaxz_frag_glsl
  | effect_motion_blur_frag_glsl | effect_bloom_frag_glsl
  | effect_dof_vert_glsl | effect_dof_geom_glsl | effect_dof_frag_glsl
  | effect_downsample_frag_glsl | lightprobe_lib_glsl | raytrace_lib_glsl
  | tonemap_frag_glsl | volumetric_frag_glsl.

Global Instance datatoc_eq_dec : EqDecision datatoc.
Proof. solve_decision. Defined.

(** What a shader is created from: vertex and geometry source (NULL for
    none), the fragment source as the sequence of the sources it is
    concatenated from, and the defines (NULL for none). *)
Record shader_source := mkSource {
  src_vert : option datatoc;
  src_geom : option datatoc;
  src_frag : list datatoc;
  src_defines : option string }.

Record GPUShader := mkShader { shader_id : positive }.

Global Instance GPUShader_eq_dec : EqDecision GPUShader.
Proof. solve_decision. Defined.

(** The [GPUShader *] fields of the static [e_data]. *)
Inductive shader_field :=
  | E_minz_downlevel_sh | E_maxz_downlevel_sh
  | E_minz_downdepth_sh | E_maxz_downdepth_sh
  | E_minz_downdepth_layer_sh | E_maxz_downdepth_layer_sh
  | E_minz_copydepth_sh | E_maxz_copydepth_sh
  | E_motion_blur_sh
  | E_bloom_blit_sh (i : Z) | E_bloom_downsample_sh (i : Z)
  | E_bloom_upsample_sh (i : Z) | E_bloom_resolve_sh (i : Z)
  | E_dof_downsample_sh | E_dof_scatter_sh | E_dof_resolve_sh
  | E_volumetric_upsample_sh
  | E_ssr_sh (options : Z)
  | E_downsample_sh.

Global Instance shader_field_eq_dec : EqDecision shader_field.
Proof. solve_decision. Defined.

(** SSR shader variations *)
Definition SSR_RESOLVE : Z := Z.shiftl 1 0.
Definition SSR_FULL_TRACE : Z := Z.shiftl 1 1.
Definition SSR_MAX_SHADER : Z := Z.shiftl 1 2.

(** The fields that exist: the arrays of bloom shaders have two
    elements, [ssr_sh] has SSR_MAX_SHADER. *)
Definition shader_field_exists (f : shader_field) : bool :=
  match f with
  | E_bloom_blit_sh i | E_bloom_downsample_sh i
  | E_bloom_upsample_sh i | E_bloom_resolve_sh i =>
      bool_decide (0 ≤ i < 2)
  | E_ssr_sh options => bool_decide (0 ≤ options < SSR_MAX_SHADER)
  | _ => true
  end.

(** The calls into the GPU module. *)
Inductive shader_event :=
  | Sh_create (src : shader_source) (result : option GPUShader)
  | Sh_free (sh : GPUShader).

Record ShaderData := mkShaderData {
  shaders : shader_field → option GPUShader;
  shader_trace : list shader_event }.

(** State passing over the shader fields. *)
Definition E (A : Type) : Type := ShaderData → A * ShaderData.

Global Instance E_ret : MRet E := λ A a d, (a, d).
Global Instance E_bind : MBind E :=
  λ A B f m d, let '(a, d') := m d in f a d'.

Definition get_shader (f : shader_field) : E (option GPUShader) :=
  λ d, (shaders d f, d).
Definition put_shader (f : shader_field) (v : option GPUShader) : E unit :=
  λ d, (tt, mkShaderData (<[f := v]> (shaders d)) (shader_trace d)).
Definition shader_emit (e : shader_event) : E unit :=
  λ d, (tt, mkShaderData (shaders d) (app (shader_trace d) [e])).

Fixpoint shader_for_each {A} (l : list A) (body : A → E unit) : E unit :=
  match l with
  | [] => mret tt
  | i :: l' => body i ;; shader_for_each l' body
  end.

(** The shaders created and the shaders freed, in order. *)
Definition created_shaders (t : list shader_event)
  : list (shader_source * option GPUShader) :=
  omap (λ e, match e with Sh_create s r => Some (s, r) | _ => None end) t.
Definition freed_shaders (t : list shader_event) : list GPUShader :=
  omap (λ e, match e with Sh_free s => Some s | _ => None end) t.

(** ["#define NAME\n"] *)
Definition define (name : string) : string :=
  "#define " ++ name ++ String (Ascii.ascii_of_nat 10) EmptyString.

Section shaders.

(** The macro SHADER_DEFINES, whose text depends on constants of
    [eevee_private.h]. *)
Variable SHADER_DEFINES : string.

(** The GPU module: what the n-th creation of a shader returns for a
    given source, NULL when the compilation fails. *)
Variable compile : nat → shader_source → option GPUShader.

Definition DRW_shader_create
    (vert geom : option datatoc) (frag : list datatoc)
    (defines : option string) : E (option GPUShader) :=
  λ d,
    let src := mkSource vert geom frag defines in
    let result := compile (length (created_shaders (shader_trace d))) src in
    (result,
     mkShaderData (shaders d) (app (shader_trace d) [Sh_create src result])).

Definition DRW_shader_create_fullscreen
    (frag : list datatoc) (defines : option string) : E (option GPUShader) :=
  DRW_shader_create None None frag defines.

(** Modelled from the spec: the macro DRW_SHADER_FREE_SAFE of
    DRW_render.h, not among the sources at hand; like its siblings for
    textures and framebuffers it frees a non-NULL field and sets it to
    NULL. *)
Definition DRW_SHADER_FREE_SAFE (f : shader_field) : E unit :=
  cur ← get_shader f;
  match cur with
  | Some sh => shader_emit (Sh_free sh);; put_shader f None
  | None => mret tt
  end.

(** The defines of an SSR shader variation. *)
Definition ssr_define_str (options : Z) : string :=
  SHADER_DEFINES
  ++ (if bool_decide (Z.land options SSR_RESOLVE ≠ 0)
      then define "STEP_RESOLVE" else define "STEP_RAYTRACE")
  ++ (if bool_decide (Z.land options SSR_FULL_TRACE ≠ 0)
      then define "FULLRES" else "").

Definition ssr_shader_str : list datatoc :=
  [bsdf_common_lib_glsl; bsdf_sampling_lib_glsl; octahedron_lib_glsl;
   lightprobe_lib_glsl; raytrace_lib_glsl; effect_ssr_frag_glsl].

Definition eevee_effects_ssr_shader_get (options : Z) : E (option GPUShader) :=
  cur ← get_shader (E_ssr_sh options);
  (match cur with
   | None =>
       sh ← DRW_shader_create_fullscreen ssr_shader_str
              (Some (ssr_define_str options));
       put_shader (E_ssr_sh options) sh
   | Some _ => mret tt
   end);;
  get_shader (E_ssr_sh options).

(** The two lookups at the head of the reflection block of
    [EEVEE_effects_cache_init]. *)
Definition cache_init_ssr_shaders (reflection_trace_full : bool)
  : E (option GPUShader * option GPUShader) :=
  let options := if reflection_trace_full then SSR_FULL_TRACE else 0 in
  trace_shader ← eevee_effects_ssr_shader_get options;
  resolve_shader ← eevee_effects_ssr_shader_get (Z.lor SSR_RESOLVE options);
  mret (trace_shader, resolve_shader).

(** The assignments of the shader block of [EEVEE_effects_init], in
    order: the field and the creation assigned to it. *)
Definition create_minmaxz_sh (defines : list string) : E (option GPUShader) :=
  DRW_shader_create_fullscreen [effect_minmaxz_frag_glsl]
    (Some (foldr String.append "" (define <$> defines))).
Definition create_bloom_sh (defines : list string) : E (option GPUShader) :=
  DRW_shader_create_fullscreen [effect_bloom_frag_glsl]
    (Some (foldr String.append "" (define <$> defines))).
Definition create_dof_sh (step : string) : E (option GPUShader) :=
  DRW_shader_create (Some effect_dof_vert_glsl) None [effect_dof_frag_glsl]
    (Some (define step)).

Definition init_shader_assignments
  : list (shader_field * E (option GPUShader)) :=
  [ (E_downsample_sh,
       DRW_shader_create_fullscreen [effect_downsample_frag_glsl] None);
    (E_volumetric_upsample_sh,
       DRW_shader_create_fullscreen [volumetric_frag_glsl]
         (Some (define "STEP_UPSAMPLE")));
    (E_minz_downlevel_sh, create_minmaxz_sh ["MIN_PASS"]);
    (E_maxz_downlevel_sh, create_minmaxz_sh ["MAX_PASS"]);
    (E_minz_downdepth_sh, create_minmaxz_sh ["MIN_PASS"; "INPUT_DEPTH"]);
    (E_maxz_downdepth_sh, create_minmaxz_sh ["MAX_PASS"; "INPUT_DEPTH"]);
    (E_minz_downdepth_layer_sh, create_minmaxz_sh ["MIN_PASS"; "LAYERED"; "INPUT_DEPTH"]);
    (E_maxz_downdepth_layer_sh, create_minmaxz_sh ["MAX_PASS"; "LAYERED"; "INPUT_DEPTH"]);
    (E_minz_copydepth_sh, create_minmaxz_sh ["MIN_PASS"; "INPUT_DEPTH"; "COPY_DEPTH"]);
    (E_maxz_copydepth_sh, create_minmaxz_sh ["MAX_PASS"; "INPUT_DEPTH"; "COPY_DEPTH"]);
    (E_motion_blur_sh,
       DRW_shader_create_fullscreen [effect_motion_blur_frag_glsl] None);
    (E_dof_downsample_sh, create_dof_sh "STEP_DOWNSAMPLE");
    (E_dof_scatter_sh, create_dof_sh "STEP_SCATTER");
    (E_dof_resolve_sh, create_dof_sh "STEP_RESOLVE");
    (E_bloom_blit_sh 0, create_bloom_sh ["STEP_BLIT"]);
    (E_bloom_blit_sh 1, create_bloom_sh ["STEP_BLIT"; "HIGH_QUALITY"]);
    (E_bloom_downsample_sh 0, create_bloom_sh ["STEP_DOWNSAMPLE"]);
    (E_bloom_downsample_sh 1, create_bloom_sh ["STEP_DOWNSAMPLE"; "HIGH_QUALITY"]);
    (E_bloom_upsample_sh 0, create_bloom_sh ["STEP_UPSAMPLE"]);
    (E_bloom_upsample_sh 1, create_bloom_sh ["STEP_UPSAMPLE"; "HIGH_QUALITY"]);
    (E_bloom_resolve_sh 0, create_bloom_sh ["STEP_RESOLVE"]);
    (E_bloom_resolve_sh 1, create_bloom_sh ["STEP_RESOLVE"; "HIGH_QUALITY"]) ].

(** The shader block of [EEVEE_effects_init]:
    [if (!e_data.motion_blur_sh) { ... }]. *)
Definition init_shaders : E unit :=
  cur ← get_shader E_motion_blur_sh;
  match cur with
  | None =>
      shader_for_each init_shader_assignments (λ a,
        sh ← a.2; put_shader a.1 sh)
  | Some _ => mret tt
  end.

(** The fields that [EEVEE_effects_free] releases, in its order. *)
Definition freed_shader_fields : list shader_field :=
  (E_ssr_sh <$> seqZ 0 SSR_MAX_SHADER) ++
  [ E_downsample_sh; E_volumetric_upsample_sh;
    E_minz_downlevel_sh; E_maxz_downlevel_sh;
    E_minz_downdepth_sh; E_maxz_downdepth_sh;
    E_minz_downdepth_layer_sh; E_maxz_downdepth_layer_sh;
    E_minz_copydepth_sh; E_maxz_copydepth_sh;
    E_motion_blur_sh;
    E_dof_downsample_sh; E_dof_scatter_sh; E_dof_resolve_sh;
    E_bloom_blit_sh 0; E_bloom_downsample_sh 0;
    E_bloom_upsample_sh 0; E_bloom_resolve_sh 0;
    E_bloom_blit_sh 1; E_bloom_downsample_sh 1;
    E_bloom_upsample_sh 1; E_bloom_resolve_sh 1 ]%list.

Definition EEVEE_effects_free : E unit :=
  shader_for_each freed_shader_fields DRW_SHADER_FREE_SAFE.

End shaders.

(** An empty [e_data], as the program starts with ([e_data = {NULL}]). *)
Definition e_data_init : ShaderData :=
  {| shaders := λ _, None; shader_trace := [] |}.

(** A GPU module in which every compilation succeeds, the n-th shader
    created being shader n + 1. *)
Definition compile_ok (n : nat) (src : shader_source) : option GPUShader :=
  Some (mkShader (Pos.of_succ_nat n)).

(** ** Concrete frames *)

(** An engine before its first frame on a 1920x1080 viewport: the
    viewport's colour and depth textures and the main and default
    framebuffers exist, nothing else does. *)
Definition first_frame : World :=
  {| tex := λ s,
       match s with
       | TXL_color => Some (mkTex 1 1920 1080 DRW_TEX_RGB_11_11_10)
       | DTXL_depth => Some (mkTex 2 1920 1080 DRW_TEX_DEPTH_24)
       | _ => None
       end;
     fb := λ s,
       match s with
       | FBL_main => Some (mkFb 3)
       | DFBL_default_fb => Some (mkFb 4)
       | _ => None
       end;
     enabled_effects := 0;
     bloom_iteration_ct := 0;
     ssr_ray_count := 0;
     reflection_trace_full := false;
     valid_double_buffer := false;
     volumetrics := None;
     depth_src_layer := 0;
     psl := λ _, [];
     next_id := 5;
     trace := [] |}.

(** Scene settings: the properties that are on, the requested ray count
    and the bloom radius, on a viewport of a given size; the view is
    through a camera that is not being keyed, and the world has no node
    tree. *)
Definition settings_at (size : Z * Z)
    (on : list string) (ray_count : Z) (radius : float) : FrameInput :=
  {| viewport_size := size;
     get_bool := λ name, existsb (String.eqb name) on;
     get_int := λ name, if String.eqb name "ssr_ray_count" then ray_count else 0;
     get_float := λ name, radius;
     evil_C := true;
     camera_view := true;
     camera_not_keyed := true;
     world_nodetree := false |}.

(** The same on a 1920x1080 viewport, the radius being a whole number. *)
Definition settings (on : list string) (ray_count : Z) (radius : Z) : FrameInput :=
  settings_at (1920, 1080) on ray_count (int_to_float radius).

Definition settings_plain : FrameInput := settings [] 0 0.
Definition settings_ssr6 : FrameInput := settings ["ssr_enable"] 6 0.
Definition settings_dof : FrameInput := settings ["dof_enable"] 0 0.
Definition settings_bloom : FrameInput := settings ["bloom_enable"] 0 6.
Definition settings_bloom_dof : FrameInput :=
  settings ["bloom_enable"; "dof_enable"] 0 6.

(** The radius 0x1.bffffep+2f, the [float] just below 7. *)
Definition radius_below_7 : float := S754_finite false 14680063 (-21).

(** Bloom on a 1024x1024 viewport at that radius, and on a 1920x1080
    viewport at radius 1e10. *)
Definition settings_bloom_1024 : FrameInput :=
  settings_at (1024, 1024) ["bloom_enable"] 0 radius_below_7.

(** A frame with reflections and depth of field on: double buffering
    with one post-effect. *)
Definition settings_ssr_dof : FrameInput :=
  settings ["ssr_enable"; "dof_enable"] 4 0.

(** The engine after the init and the cache init of a frame with SSR
    requested at 6 rays, with the values [eevee_private.h] had in the
    Blender tree. *)
Definition ssr_frame : World :=
  exec (@EEVEE_effects_init blender_private settings_ssr6 ;;
        @EEVEE_effects_cache_init blender_private false) first_frame.

(** The same for a frame with nothing enabled. *)
Definition plain_frame : World :=
  exec (@EEVEE_effects_init blender_private settings_plain ;;
        @EEVEE_effects_cache_init blender_private false) first_frame.

(** Every effect of the init on, at 4 rays and radius 6, in a scene whose
    world has a node tree; and every effect off. *)
Definition settings_all_on : FrameInput :=
  {| viewport_size := (1920, 1080);
     get_bool := λ name,
       existsb (String.eqb name)
         ["bloom_enable"; "dof_enable"; "volumetric_enable"; "ssr_enable"];
     get_int := λ name, if String.eqb name "ssr_ray_count" then 4 else 0;
     get_float := λ name, int_to_float 6;
     evil_C := true;
     camera_view := true;
     camera_not_keyed := true;
     world_nodetree := true |}.

Definition settings_all_off : FrameInput :=
  {| viewport_size := (1920, 1080);
     get_bool := λ name, false;
     get_int := λ name, 0;
     get_float := λ name, int_to_float 6;
     evil_C := true;
     camera_view := true;
     camera_not_keyed := true;
     world_nodetree := true |}.

(** The engine after the init of a frame with every effect on, and after
    the init of the next frame, with every effect off. *)
Definition frame_all_on : World :=
  exec (@EEVEE_effects_init blender_private settings_all_on) first_frame.

Definition frame_all_off : World :=
  exec (@EEVEE_effects_init blender_private settings_all_off) frame_all_on.

(** The engine after the init and the cache init of a frame with
    reflections and depth of field. *)
Definition ssr_dof_frame : World :=
  exec (@EEVEE_effects_init blender_private settings_ssr_dof ;;
        @EEVEE_effects_cache_init blender_private false) first_frame.

(** A scene with volumetrics on and coloured transmittance, in a world
    that has a node tree, and the engine after the init of its first
    frame. *)
Definition settings_volumetric : FrameInput :=
  {| viewport_size := (1920, 1080);
     get_bool := λ name,
       existsb (String.eqb name)
         ["volumetric_enable"; "volumetric_colored_transmittance"];
     get_int := λ name, 0;
     get_float := λ name, int_to_float 0;
     evil_C := true;
     camera_view := true;
     camera_not_keyed := true;
     world_nodetree := true |}.

Definition volumetric_frame : World :=
  exec (@EEVEE_effects_init blender_private settings_volumetric) first_frame.

(** The engine after the init and the cache init of a frame with depth
    of field on: the ping-pong colour texture exists. *)
Definition dof_frame : World :=
  exec (@EEVEE_effects_init blender_private settings_dof ;;
        @EEVEE_effects_cache_init blender_private false) first_frame.

(** ** Observations of the engine state *)

Local Close Scope string_scope.

(** The textures of the depth-of-field downsample framebuffer, the
    first being the near field. *)
Definition tex_down (dof_down_near : tex_slot) : list DRWFboTexture :=
  [mkFboTex dof_down_near DRW_TEX_RGB_11_11_10 [DRW_TEX_FILTER];
   mkFboTex TXL_dof_down_far DRW_TEX_RGB_11_11_10 [];
   mkFboTex TXL_dof_coc DRW_TEX_RG_16 []].

(** [pres obs m]: running [m] leaves the observation [obs] of the state
    unchanged.  The frame rule of the development: a claim about a frame is
    proved by following the few commands that change what it observes and
    stepping over the rest. *)
Definition pres {A X} (obs : World → X) (m : M A) : Prop :=
  ∀ w, obs (m w).2 = obs w.

(** [grows m]: running [m] only adds events at the end of the trace. *)
Definition grows {A} (m : M A) : Prop :=
  ∀ w, ∃ t, trace (m w).2 = trace w ++ t.

(** What the exchange is about: how many exchanges the trace holds, the
    identity of the main and history targets, and the mask that switches
    the blocks of the frame on. *)
Definition exchange_obs (w : World) :=
  (swap_count (trace w), fb w FBL_main, fb w FBL_double_buffer,
   tex w TXL_color, tex w TXL_color_double_buffer, enabled_effects w).

(** The observation after one exchange. *)
Definition exchanged
    (o : nat * option GPUFrameBuffer * option GPUFrameBuffer *
         option GPUTexture * option GPUTexture * Z) :=
  let '(n, main, double_buffer, color, color_double_buffer, e) := o in
  (S n, double_buffer, main, color_double_buffer, color, e).

(** After a command that received the flag [sdb]: the flag is down, and
    the exchange was made if and only if the flag was up. *)
Definition swap_post (sdb : bool) (w : World) (r : bool * World) : Prop :=
  r.1 = false ∧
  exchange_obs r.2 = (if sdb then exchanged (exchange_obs w) else exchange_obs w).

(** The state of the exchange in the course of a frame that started in a
    state observed as [o0] with the flag up. *)
Definition once_inv
    (o0 : nat * option GPUFrameBuffer * option GPUFrameBuffer *
          option GPUTexture * option GPUTexture * Z)
    (sdb : bool) (w : World) : Prop :=
  exchange_obs w = if sdb then o0 else exchanged o0.

(** What the reflection stage shows and depends on. *)
Definition ssr_obs (w : World) :=
  (ssr_steps (trace w), valid_double_buffer w,
   fb w FBL_main, fb w FBL_screen_tracing_fb).

(** The ray count and the reflection bit of the mask. *)
Definition ssr_cfg_obs `{EEVEE_private} (w : World) :=
  (ssr_ray_count w, Z.testbit (enabled_effects w) (effect_bit SSR)).

(** The mip levels rendered so far and the resource fields. *)
Definition minmax_obs (w : World) := (mip_levels (trace w), tex w, fb w).

(** The initialisations of the tracing framebuffer and the ray count. *)
Definition tracing_obs (w : World) :=
  (framebuffer_inits FBL_screen_tracing_fb (trace w), ssr_ray_count w).

(** What a call of [DRW_framebuffer_init] on the field [s] does to the
    field, to the record of such calls, and to the frees. *)
Definition fbinit_obs (s : fb_slot) (w : World) :=
  (fb w s, enabled_effects w,
   framebuffer_inits s (trace w), framebuffer_init_found s (trace w),
   freed_framebuffers (trace w)).

(** [fbinit_obs] for the depth-of-field downsample framebuffer. *)
Definition dof_obs (w : World) :=
  (fb w FBL_dof_down_fb, enabled_effects w,
   framebuffer_inits FBL_dof_down_fb (trace w),
   framebuffer_init_found FBL_dof_down_fb (trace w),
   freed_framebuffers (trace w)).

(** The part of [dof_obs] that the rest of the init leaves alone. *)
Definition dof_tail_obs (w : World) :=
  (fb w FBL_dof_down_fb,
   framebuffer_inits FBL_dof_down_fb (trace w),
   framebuffer_init_found FBL_dof_down_fb (trace w)).

(** The scatter draws and what they read. *)
Definition scatter_obs (w : World) :=
  (scatter_draws (trace w), tex w TXL_dof_down_far,
   tex w (TXL_bloom_downsample 0), tex w TXL_dof_down_near,
   tex w TXL_dof_coc, enabled_effects w, psl w PSL_dof_scatter).

(** ** Further readings of a trace *)

(** The framebuffers bound, in order. *)
Definition bound (t : list event) : list (option GPUFrameBuffer) :=
  omap (λ e, match e with Ev_framebuffer_bind f => Some f | _ => None end) t.

(** The attachments made: framebuffer, texture, attachment point. *)
Definition attached (t : list event)
  : list (option GPUFrameBuffer * option GPUTexture * Z) :=
  omap (λ e,
    match e with
    | Ev_framebuffer_texture_attach f x slot _ => Some (f, x, slot)
    | _ => None
    end) t.

(** The textures detached, in order. *)
Definition detached (t : list event) : list (option GPUTexture) :=
  omap (λ e,
    match e with Ev_framebuffer_texture_detach x => Some x | _ => None end) t.

(** The requests for another frame. *)
Definition redraw_requests (t : list event) : list unit :=
  omap (λ e, match e with Ev_viewport_request_redraw => Some tt | _ => None end) t.

(** Every call of [DRW_framebuffer_init], in order: the field and the
    size asked for. *)
Definition framebuffer_init_sizes (t : list event) : list (fb_slot * Z * Z) :=
  omap (λ e,
    match e with
    | Ev_framebuffer_init s _ x y _ _ => Some (s, x, y)
    | _ => None
    end) t.

(** The textures created by [DRW_texture_create_2D], in order. *)
Definition created_textures (t : list event) : list GPUTexture :=
  omap (λ e, match e with Ev_texture_create_2D x _ => Some x | _ => None end) t.

(** What the attachments of the reflection stage show and depend on. *)
Definition attach_obs (w : World) :=
  (attached (trace w), detached (trace w), tex w DTXL_depth,
   tex w TXL_ssr_normal_input, tex w TXL_ssr_specrough_input,
   tex w TXL_color_double_buffer,
   (λ i, tex w (G_ssr_hit_output i)), fb w, ssr_ray_count w).

(** ** The ping-pong of a frame, as a function of what the frame starts from *)

(** What [EEVEE_draw_effects] hands over between its blocks: the number
    of exchanges so far, the main and history framebuffers, the colour,
    history and ping-pong textures, [effects->source_buffer], the mask,
    the validity of the history, and the redraw requests. *)
Definition frame_view : Type :=
  (nat * option GPUFrameBuffer * option GPUFrameBuffer *
   option GPUTexture * option GPUTexture * option GPUTexture *
   option GPUTexture * Z * bool * list unit)%type.

Definition frame_obs (w : World) : frame_view :=
  (swap_count (trace w), fb w FBL_main, fb w FBL_double_buffer,
   tex w TXL_color, tex w TXL_color_double_buffer, tex w TXL_color_post,
   tex w EFX_source_buffer, enabled_effects w, valid_double_buffer w,
   redraw_requests (trace w)).

Definition view_source (o : frame_view) : option GPUTexture :=
  let '(_, _, _, _, _, _, source, _, _, _) := o in source.

(** The body of SWAP_DOUBLE_BUFFERS. *)
Definition view_exchange (o : frame_view) : frame_view :=
  let '(n, main, double_buffer, color, color_double_buffer, color_post,
        source, e, valid, redraws) := o in
  (S n, double_buffer, main, color_double_buffer, color, color_post,
   source, e, valid, redraws).

(** SWAP_BUFFERS, entered with the flag [swap_double_buffer]: the test
    of [source_buffer == txl->color] comes before the exchange, the new
    source is read after it. *)
Definition view_swap_buffers (swap_double_buffer : bool) (o : frame_view)
  : frame_view :=
  let '(_, _, _, color, _, _, source, _, _, _) := o in
  let '(n, main, double_buffer, color', color_double_buffer, color_post,
        _, e, valid, redraws) :=
    if swap_double_buffer then view_exchange o else o in
  (n, main, double_buffer, color', color_double_buffer, color_post,
   (if bool_decide (source = color) then color_post else color'),
   e, valid, redraws).

(** A block of post-processing, run when its bit is set. *)
Definition view_block (on : bool) (st : bool * frame_view) : bool * frame_view :=
  if on then (false, view_swap_buffers st.1 st.2) else st.

Section frame_views.
Context `{EEVEE_private}.

(** The flag and the view after the three blocks of a frame that starts
    in [w]. *)
Definition view_after_blocks (w : World) : bool * frame_view :=
  let e := enabled_effects w in
  let on x := bool_decide (Z.land e (EFFECT x) ≠ 0) in
  let '(n, main, double_buffer, color, color_double_buffer, color_post,
        _, _, valid, redraws) := frame_obs w in
  view_block (on BLOOM)
    (view_block (on DOF)
       (view_block (on MOTION_BLUR)
          (on DOUBLE_BUFFER,
           (n, main, double_buffer, color, color_double_buffer, color_post,
            color, e, valid, redraws)))).

(** The view at the end of the frame. *)
Definition view_at_end (is_image_render : bool) (w : World) : frame_view :=
  let st := view_after_blocks w in
  let '(n, main, double_buffer, color, color_double_buffer, color_post,
        source, e, valid, redraws) :=
    if st.1 then view_exchange st.2 else st.2 in
  (n, main, double_buffer, color, color_double_buffer, color_post, source, e,
   (if is_image_render then bool_decide (color_double_buffer ≠ None) else valid),
   redraws ++
   (if negb valid && bool_decide (Z.land e EFFECT_DOUBLE_BUFFER ≠ 0)
       && negb is_image_render
    then [tt] else [])).

End frame_views.

(** The passes drawn by the three blocks. *)
Definition dof_schedule : list pass :=
  [PSL_dof_down; PSL_dof_scatter; PSL_dof_scatter; PSL_dof_resolve].

Definition bloom_schedule (bloom_iteration_ct : Z) : list pass :=
  [PSL_bloom_blit; PSL_bloom_downsample_first] ++
  replicate (Z.to_nat (bloom_iteration_ct - 1)) PSL_bloom_downsample ++
  replicate (Z.to_nat (bloom_iteration_ct - 1)) PSL_bloom_upsample ++
  [PSL_bloom_resolve].

Definition schedule_obs (w : World) :=
  (drawn (trace w), enabled_effects w, bloom_iteration_ct w).

(** The view together with the textures sent to the display. *)
Definition frame_obs2 (w : World) := (frame_obs w, displayed (trace w)).

Definition view_mask (o : frame_view) : Z :=
  let '(_, _, _, _, _, _, _, e, _, _) := o in e.

(** What a block that ends in SWAP_BUFFERS does to the view. *)
Definition frame_post (sdb : bool) (w : World) (r : bool * World) : Prop :=
  r.1 = false ∧
  frame_obs2 r.2 = (view_swap_buffers sdb (frame_obs w), displayed (trace w)).

(** The flag, the view and the displayed textures in the course of a
    frame. *)
Definition frame_inv
    (st : bool * frame_view) (d : list (option GPUTexture))
    (sdb : bool) (w : World) : Prop :=
  (sdb, frame_obs w) = st ∧ displayed (trace w) = d.

(** ** The mask a frame's settings ask for *)

Section init_masks.
Context `{EEVEE_private}.

(** The conditions under which [EEVEE_effects_init] sets the bit of an
    effect. *)
Definition init_enables (inp : FrameInput) (x : effect) : bool :=
  match x with
  | MOTION_BLUR =>
      get_bool inp "motion_blur_enable"%string && evil_C inp
      && camera_view inp && camera_not_keyed inp
  | BLOOM => get_bool inp "bloom_enable"%string
  | DOF => get_bool inp "dof_enable"%string && camera_view inp
  | VOLUMETRIC => get_bool inp "volumetric_enable"%string && world_nodetree inp
  | SSR => get_bool inp "ssr_enable"%string
  | DOUBLE_BUFFER => get_bool inp "ssr_enable"%string
  end.

(** The mask made of the bits of the effects that [init_enables] holds
    for. *)
Definition init_mask (inp : FrameInput) : Z :=
  foldl (λ e x, if init_enables inp x then Z.lor e (EFFECT x) else e) 0
    [MOTION_BLUR; BLOOM; DOF; VOLUMETRIC; SSR; DOUBLE_BUFFER].

End init_masks.

(** What the init decides on and what it frees: the volumetric
    structure, the textures freed, and the three texture fields that its
    cleanup branches release. *)
Definition init_pre_obs (w : World) :=
  (volumetrics w, freed_textures (trace w),
   tex w TXL_ssr_normal_input, tex w TXL_ssr_specrough_input,
   tex w TXL_color_double_buffer).

Definition mask_obs (w : World) :=
  (enabled_effects w, volumetrics w, freed_textures (trace w),
   tex w TXL_ssr_normal_input, tex w TXL_ssr_specrough_input,
   tex w TXL_color_double_buffer).

Definition mask_obs3 (w : World) :=
  (enabled_effects w, volumetrics w, freed_textures (trace w)).

(** What the construction of the Hi-Z pyramids shows. *)
Definition minmax_pass_obs (w : World) :=
  (drawn (trace w), attached (trace w), detached (trace w),
   tex w, fb w, depth_src_layer w).

(** ** The buffers of the bloom chain *)

(** One step of the size chain of the bloom buffers:
    [texsize /= 2; texsize = MAX2(texsize, 2)], per dimension. *)
Definition bloom_half (texsize : Z * Z) : Z * Z :=
  (MAX2 (texsize.1 `quot` 2) 2, MAX2 (texsize.2 `quot` 2) 2).

(** The calls of [DRW_framebuffer_init] on the framebuffers of bloom, in
    order: the field and the size asked for. *)
Definition bloom_framebuffer_inits (t : list event) : list (fb_slot * Z * Z) :=
  omap (λ e,
    match e with
    | Ev_framebuffer_init s _ x y _ _ =>
        match s with
        | FBL_bloom_blit_fb | FBL_bloom_down_fb _ | FBL_bloom_accum_fb _ =>
            Some (s, x, y)
        | _ => None
        end
    | _ => None
    end) t.

Definition bloom_init_obs (w : World) :=
  (bloom_framebuffer_inits (trace w), bloom_iteration_ct w).


(** ** The calls of a stage, in program order *)

(** What a stage does to framebuffers, one step per call and in the order
    of the calls: attachments, detachments, binds, clears and draws.  The
    buffers a draw reads and the mip levels the downsample driver goes
    through are left out. *)
Inductive stage_step :=
  | St_attach (fb : option GPUFrameBuffer) (t : option GPUTexture) (slot : Z)
  | St_detach (t : option GPUTexture)
  | St_bind (fb : option GPUFrameBuffer)
  | St_clear (clear_col : vec4)
  | St_draw (p : pass).

Definition stage_steps (t : list event) : list stage_step :=
  omap (λ e,
    match e with
    | Ev_framebuffer_texture_attach f x slot _ => Some (St_attach f x slot)
    | Ev_framebuffer_texture_detach x => Some (St_detach x)
    | Ev_framebuffer_bind f => Some (St_bind f)
    | Ev_framebuffer_clear _ _ _ col => Some (St_clear col)
    | Ev_draw_pass p _ => Some (St_draw p)
    | _ => None
    end) t.

(** The steps together with what the reflection stage reads. *)
Definition stage_obs (w : World) :=
  (stage_steps (trace w), tex w DTXL_depth,
   tex w TXL_ssr_normal_input, tex w TXL_ssr_specrough_input,
   tex w TXL_color_double_buffer,
   (λ i, tex w (G_ssr_hit_output i)), fb w, ssr_ray_count w,
   valid_double_buffer w).

(** The course of a frame of [EEVEE_draw_effects]: the passes drawn, the
    exchange of the main and history targets, and the textures sent to the
    display, in program order. *)
Inductive frame_step :=
  | Fs_draw (p : pass)
  | Fs_exchange
  | Fs_display.

Definition frame_steps (t : list event) : list frame_step :=
  omap (λ e,
    match e with
    | Ev_draw_pass p _ => Some (Fs_draw p)
    | Ev_swap_double_buffers => Some Fs_exchange
    | Ev_transform_to_display _ => Some Fs_display
    | _ => None
    end) t.

Definition steps_obs (w : World) :=
  (frame_steps (trace w), enabled_effects w, bloom_iteration_ct w).

(** The draws of the post-effects that are on, block by block. *)
Definition frame_blocks `{EEVEE_private} (w : World) : list (list pass) :=
  let on x := bool_decide (Z.land (enabled_effects w) (EFFECT x) ≠ 0) in
  (if on MOTION_BLUR then [[PSL_motion_blur]] else []) ++
  (if on DOF then [dof_schedule] else []) ++
  (if on BLOOM then [bloom_schedule (bloom_iteration_ct w)] else []).
(** ** Reasoning about commands *)

Local Close Scope string_scope.

Lemma bind_run {A B} (m : M A) (f : A → M B) (w : World) :
  (m ≫= f) w = f (m w).1 (m w).2.
Proof. unfold mbind, M_bind. destruct (m w); reflexivity. Qed.

Lemma ret_run {A} (a : A) (w : World) : (mret a : M A) w = (a, w).
Proof. reflexivity. Qed.

Section pres.
Context {X : Type} (obs : World → X).

Lemma pres_ret {A} (a : A) : pres obs (mret a : M A).
Proof. intros w; reflexivity. Qed.

Lemma pres_bind {A B} (m : M A) (f : A → M B) :
  pres obs m → (∀ a, pres obs (f a)) → pres obs (m ≫= f).
Proof. intros Hm Hf w. rewrite bind_run, Hf. apply Hm. Qed.

Lemma pres_gets {A} (g : World → A) : pres obs (gets g).
Proof. intros w; reflexivity. Qed.

Lemma pres_modify (g : World → World) :
  (∀ w, obs (g w) = obs w) → pres obs (modify g).
Proof. intros Hg w; apply Hg. Qed.

Lemma pres_when (b : bool) (m : M unit) : pres obs m → pres obs (when b m).
Proof. destruct b; simpl; [done | intros _; apply pres_ret]. Qed.

Lemma pres_if {A} (b : bool) (m1 m2 : M A) :
  pres obs m1 → pres obs m2 → pres obs (if b then m1 else m2).
Proof. destruct b; done. Qed.

Lemma pres_for_fold {A S} (l : list A) (s : S) (body : A → S → M S) :
  (∀ i s, pres obs (body i s)) → pres obs (for_fold l s body).
Proof.
  intros Hb. revert s. induction l as [|i l IH]; intros s; simpl.
  - apply pres_ret.
  - apply pres_bind; [apply Hb | intros s'; apply IH].
Qed.

Lemma pres_for_each {A} (l : list A) (body : A → M unit) :
  (∀ i, pres obs (body i)) → pres obs (for_each l body).
Proof.
  intros Hb. induction l as [|i l IH]; simpl.
  - apply pres_ret.
  - apply pres_bind; [apply Hb | intros _; apply IH].
Qed.

Lemma pres_recursive_downsample
    (fb : option GPUFrameBuffer) (t : option GPUTexture) (num_iter : Z)
    (callback : Z → M unit) :
  (∀ f t l x y w, obs (log (Ev_mip_target f t l x y) w) = obs w) →
  (∀ level, pres obs (callback level)) →
  pres obs (DRW_framebuffer_recursive_downsample fb t num_iter callback).
Proof.
  intros Hlog Hcb. unfold DRW_framebuffer_recursive_downsample.
  destruct t as [t|]; [|apply pres_ret].
  generalize (tex_width t) (tex_height t) 1.
  induction (Z.to_nat num_iter) as [|n IH]; intros width height level; simpl.
  - apply pres_ret.
  - destruct (bool_decide _); [apply pres_ret|].
    apply pres_bind; [apply pres_modify; intros w; apply Hlog | intros _].
    apply pres_bind; [apply Hcb | intros _]. apply IH.
Qed.

Lemma pres_draw_pass (p : pass) :
  (∀ e w, obs (log (Ev_draw_pass p e) w) = obs w) → pres obs (DRW_draw_pass p).
Proof. intros Hg w. unfold DRW_draw_pass, emit, modify; simpl. apply Hg. Qed.

End pres.

Lemma swap_count_app (t1 t2 : list event) :
  swap_count (t1 ++ t2) = (swap_count t1 + swap_count t2)%nat.
Proof.
  induction t1 as [|e t1 IH]; simpl; [done|].
  destruct e; simpl; rewrite IH; reflexivity.
Qed.

Lemma pres_draw_debug `{EEVEE_private} {X} (obs : World → X) (debug_value : Z) :
  (∀ t w, obs (log (Ev_transform_to_display t) w) = obs w) →
  pres obs (draw_debug debug_value).
Proof.
  intros Hlog. unfold draw_debug. apply pres_when.
  assert (Hshow : ∀ s, pres obs
            (t ← get_tex s;
             when (bool_decide (t ≠ None)) (DRW_transform_to_display t))).
  { intros s. apply pres_bind; [apply pres_gets | intros t].
    apply pres_when, pres_modify. intros w; apply Hlog. }
  destruct debug_value as [|p|p]; try apply pres_ret.
  destruct p as [[[?|?|]|[?|?|]|]|[[?|?|]|[?|?|]|]|];
    first [apply pres_ret | apply Hshow].
Qed.

Lemma drawn_app (t1 t2 : list event) :
  drawn (t1 ++ t2) = drawn t1 ++ drawn t2.
Proof. apply omap_app. Qed.

Lemma displayed_app (t1 t2 : list event) :
  displayed (t1 ++ t2) = displayed t1 ++ displayed t2.
Proof. apply omap_app. Qed.

Lemma ssr_steps_app (t1 t2 : list event) :
  ssr_steps (t1 ++ t2) = ssr_steps t1 ++ ssr_steps t2.
Proof. apply omap_app. Qed.

Lemma mip_levels_app (t1 t2 : list event) :
  mip_levels (t1 ++ t2) = mip_levels t1 ++ mip_levels t2.
Proof. apply omap_app. Qed.

Lemma framebuffer_inits_app (s : fb_slot) (t1 t2 : list event) :
  framebuffer_inits s (t1 ++ t2) =
  framebuffer_inits s t1 ++ framebuffer_inits s t2.
Proof. apply omap_app. Qed.

Lemma freed_framebuffers_app (t1 t2 : list event) :
  freed_framebuffers (t1 ++ t2) = freed_framebuffers t1 ++ freed_framebuffers t2.
Proof. apply omap_app. Qed.

Lemma freed_textures_app (t1 t2 : list event) :
  freed_textures (t1 ++ t2) = freed_textures t1 ++ freed_textures t2.
Proof. apply omap_app. Qed.

Lemma framebuffer_init_found_app (s : fb_slot) (t1 t2 : list event) :
  framebuffer_init_found s (t1 ++ t2) =
  framebuffer_init_found s t1 ++ framebuffer_init_found s t2.
Proof. apply omap_app. Qed.

Lemma scatter_draws_app (t1 t2 : list event) :
  scatter_draws (t1 ++ t2) = scatter_draws t1 ++ scatter_draws t2.
Proof. apply omap_app. Qed.

(** Unfolds the plumbing of the monad and evaluates. *)
Ltac run_simpl :=
  cbv [mbind M_bind mret M_ret gets modify emit get_tex get_fb put_tex put_fb
       when exec DRW_framebuffer_bind DRW_framebuffer_clear
       DRW_framebuffer_texture_attach DRW_framebuffer_texture_detach
       DRW_transform_to_display DRW_viewport_request_redraw DRW_draw_pass
       log set_tex set_fb set_enabled_effects set_bloom_iteration_ct
       set_ssr_ray_count set_reflection_trace_full set_valid_double_buffer
       set_volumetrics set_depth_src_layer set_psl set_next_id
       tex fb enabled_effects bloom_iteration_ct ssr_ray_count
       reflection_trace_full valid_double_buffer volumetrics depth_src_layer
       psl next_id trace fst snd];
  cbn.

(** Running the first command of a sequence, when it is one of the
    primitive reads, writes and calls. *)
Section run.
Context {B : Type} (f : unit → M B) (w : World).

Lemma run_ret {A} (a : A) (g : A → M B) : (mret a ≫= g) w = g a w.
Proof. reflexivity. Qed.
Lemma run_gets {A} (h : World → A) (g : A → M B) :
  (gets h ≫= g) w = g (h w) w.
Proof. reflexivity. Qed.
Lemma run_modify (h : World → World) : (modify h ≫= f) w = f tt (h w).
Proof. reflexivity. Qed.
Lemma run_get_tex (s : tex_slot) (g : option GPUTexture → M B) :
  (get_tex s ≫= g) w = g (tex w s) w.
Proof. reflexivity. Qed.
Lemma run_get_fb (s : fb_slot) (g : option GPUFrameBuffer → M B) :
  (get_fb s ≫= g) w = g (fb w s) w.
Proof. reflexivity. Qed.
Lemma run_put_tex (s : tex_slot) (v : option GPUTexture) :
  (put_tex s v ≫= f) w = f tt (set_tex s v w).
Proof. reflexivity. Qed.
Lemma run_put_fb (s : fb_slot) (v : option GPUFrameBuffer) :
  (put_fb s v ≫= f) w = f tt (set_fb s v w).
Proof. reflexivity. Qed.
Lemma run_emit (e : event) : (emit e ≫= f) w = f tt (log e w).
Proof. reflexivity. Qed.
Lemma run_bind (x : option GPUFrameBuffer) :
  (DRW_framebuffer_bind x ≫= f) w = f tt (log (Ev_framebuffer_bind x) w).
Proof. reflexivity. Qed.
Lemma run_draw (p : pass) :
  (DRW_draw_pass p ≫= f) w =
  f tt (log (Ev_draw_pass p (map (λ b, (b.1, tex w b.2)) (psl w p))) w).
Proof. reflexivity. Qed.
Lemma run_clear (c d st : bool) (col : vec4) :
  (DRW_framebuffer_clear c d st col ≫= f) w =
  f tt (log (Ev_framebuffer_clear c d st col) w).
Proof. reflexivity. Qed.
Lemma run_attach x t (slot mip : Z) :
  (DRW_framebuffer_texture_attach x t slot mip ≫= f) w =
  f tt (log (Ev_framebuffer_texture_attach x t slot mip) w).
Proof. reflexivity. Qed.
Lemma run_detach t :
  (DRW_framebuffer_texture_detach t ≫= f) w =
  f tt (log (Ev_framebuffer_texture_detach t) w).
Proof. reflexivity. Qed.
Lemma run_pass_create (p : pass) :
  (DRW_pass_create p ≫= f) w = f tt (set_psl p [] w).
Proof. reflexivity. Qed.
Lemma run_uniform_buffer (grp : pass) (name : string) (s : tex_slot) :
  (DRW_shgroup_uniform_buffer grp name s ≫= f) w =
  f tt (set_psl grp (psl w grp ++ [(name, s)]) w).
Proof. reflexivity. Qed.
Lemma run_fresh_id (g : positive → M B) :
  (fresh_id ≫= g) w = g (next_id w) (set_next_id (Pos.succ (next_id w)) w).
Proof. reflexivity. Qed.
Lemma run_assoc {A C} (m : M A) (h : A → M C) (g : C → M B) :
  ((m ≫= h) ≫= g) w = (m ≫= (λ a, h a ≫= g)) w.
Proof. unfold mbind, M_bind. destruct (m w); reflexivity. Qed.
Lemma run_display t :
  (DRW_transform_to_display t ≫= f) w =
  f tt (log (Ev_transform_to_display t) w).
Proof. reflexivity. Qed.

End run.

(** Evaluates the state updates on a state given as a record. *)
Tactic Notation "state_simpl" "in" hyp(H) :=
  cbn [log set_tex set_fb set_enabled_effects set_bloom_iteration_ct
       set_ssr_ray_count set_reflection_trace_full set_valid_double_buffer
       set_volumetrics set_depth_src_layer set_psl set_next_id
       tex fb enabled_effects bloom_iteration_ct ssr_ray_count
       reflection_trace_full valid_double_buffer volumetrics depth_src_layer
       psl next_id trace fst snd] in H.

Ltac state_simpl :=
  cbn [log set_tex set_fb set_enabled_effects set_bloom_iteration_ct
       set_ssr_ray_count set_reflection_trace_full set_valid_double_buffer
       set_volumetrics set_depth_src_layer set_psl set_next_id
       tex fb enabled_effects bloom_iteration_ct ssr_ray_count
       reflection_trace_full valid_double_buffer volumetrics depth_src_layer
       psl next_id trace fst snd].

Ltac step :=
  rewrite ?run_assoc;
  first
    [ rewrite run_ret | rewrite run_fresh_id | rewrite run_gets | rewrite run_modify
    | rewrite run_get_tex | rewrite run_get_fb
    | rewrite run_put_tex | rewrite run_put_fb | rewrite run_emit
    | rewrite run_bind | rewrite run_draw | rewrite run_clear
    | rewrite run_attach | rewrite run_detach | rewrite run_display
    | rewrite run_pass_create | rewrite run_uniform_buffer ];
  state_simpl;
  rewrite ?fn_lookup_insert;
  rewrite ?fn_lookup_insert_ne by discriminate.

(** Structural steps of a [pres] goal; what is left are the state
    updates, each closed by evaluating the observation. *)
Ltac pres_step :=
  lazymatch goal with
  | |- pres _ (mret _) => apply pres_ret
  | |- pres _ (gets _) => apply pres_gets
  | |- pres _ (_ ≫= _) => apply pres_bind; [| intros ?]
  | |- pres _ (when _ _) => apply pres_when
  | |- pres _ (for_fold _ _ _) => apply pres_for_fold; intros ? ?
  | |- pres _ (for_each (take (Z.to_nat ?n) ?l) _) =>
      first
        [ progress
            (let l' := eval vm_compute in (take (Z.to_nat n) l) in
             change (take (Z.to_nat n) l) with l'; cbn [for_each])
        | apply pres_for_each; intros ? ]
  | |- pres _ (for_each _ _) => apply pres_for_each; intros ?
  | |- pres _ (DRW_draw_pass _) => apply pres_draw_pass; intros ? ?
  | |- pres _ (draw_debug _) => apply pres_draw_debug; intros ? ?
  | |- pres _ (modify _) => apply pres_modify; intros ?
  | |- pres _ (if _ then _ else _) => apply pres_if
  | |- pres _ (match ?x with _ => _ end) => destruct x
  end.

Ltac pres_side :=
  try match goal with |- ?obs _ = ?obs _ => unfold obs end;
  repeat match goal with w : World |- _ => destruct w end;
  cbn; rewrite ?swap_count_app, ?drawn_app, ?displayed_app, ?ssr_steps_app, ?mip_levels_app,
    ?framebuffer_inits_app, ?freed_framebuffers_app, ?freed_textures_app,
    ?framebuffer_init_found_app, ?scatter_draws_app, ?omap_app; cbn;
  rewrite ?Nat.add_0_r, ?app_nil_r; reflexivity.

Ltac solve_pres :=
  repeat (unfold DRW_framebuffer_bind, DRW_framebuffer_clear,
            DRW_framebuffer_texture_attach, DRW_framebuffer_texture_detach,
            DRW_transform_to_display, DRW_viewport_request_redraw,
            DRW_pass_create, DRW_shgroup_uniform_buffer,
            DRW_framebuffer_init, fbo_texture_init, fresh_id,
            DRW_texture_create_2D, DRW_TEXTURE_FREE_SAFE,
            DRW_FRAMEBUFFER_FREE_SAFE,
            get_tex, get_fb, put_tex, put_fb, emit;
          pres_step);
  try pres_side.

(** Steps over a command [m] that preserves [obs]: the state it leaves is
    a new record, known through the equation [obs new = obs old]. *)
Ltac skip_pres obs tac :=
  lazymatch goal with
  | |- context [(?m ≫= _) ?w0] =>
      let Hp := fresh "Hp" in
      assert (Hp : pres obs m) by tac;
      specialize (Hp w0);
      rewrite (bind_run m);
      let r := fresh "r" in
      set (r := m w0) in *; clearbody r; destruct r as [? []];
      let h := lazymatch obs with ?f _ => f | _ => obs end in
      unfold h in Hp; state_simpl in Hp; state_simpl
  end.

Lemma grows_ret {A} (a : A) : grows (mret a : M A).
Proof. intros w. exists []. rewrite app_nil_r. reflexivity. Qed.

Lemma grows_gets {A} (g : World → A) : grows (gets g).
Proof. intros w. exists []. rewrite app_nil_r. reflexivity. Qed.

Lemma grows_bind {A B} (m : M A) (f : A → M B) :
  grows m → (∀ a, grows (f a)) → grows (m ≫= f).
Proof.
  intros Hm Hf w. rewrite bind_run.
  destruct (Hm w) as [t1 H1]. destruct (Hf (m w).1 (m w).2) as [t2 H2].
  exists (t1 ++ t2). rewrite H2, H1, app_assoc. reflexivity.
Qed.

Lemma grows_modify (g : World → World) :
  (∀ w, ∃ t, trace (g w) = trace w ++ t) → grows (modify g).
Proof. intros Hg w. apply Hg. Qed.

Lemma grows_when (b : bool) (m : M unit) : grows m → grows (when b m).
Proof. destruct b; simpl; [done | intros _; apply grows_ret]. Qed.

Lemma grows_if {A} (b : bool) (m1 m2 : M A) :
  grows m1 → grows m2 → grows (if b then m1 else m2).
Proof. destruct b; done. Qed.

Lemma grows_for_fold {A S} (l : list A) (s : S) (body : A → S → M S) :
  (∀ i s, grows (body i s)) → grows (for_fold l s body).
Proof.
  intros Hb. revert s. induction l as [|i l IH]; intros s; simpl.
  - apply grows_ret.
  - apply grows_bind; [apply Hb | intros s'; apply IH].
Qed.

Lemma grows_for_each {A} (l : list A) (body : A → M unit) :
  (∀ i, grows (body i)) → grows (for_each l body).
Proof.
  intros Hb. induction l as [|i l IH]; simpl.
  - apply grows_ret.
  - apply grows_bind; [apply Hb | intros _; apply IH].
Qed.

Ltac grows_step :=
  lazymatch goal with
  | |- grows (mret _) => apply grows_ret
  | |- grows (gets _) => apply grows_gets
  | |- grows (_ ≫= _) => apply grows_bind; [| intros ?]
  | |- grows (when _ _) => apply grows_when
  | |- grows (for_fold _ _ _) => apply grows_for_fold; intros ? ?
  | |- grows (for_each _ _) => apply grows_for_each; intros ?
  | |- grows (modify _) =>
      apply grows_modify; intros [];
      first [ exists []; rewrite app_nil_r; reflexivity
            | eexists; reflexivity ]
  | |- grows (if _ then _ else _) => apply grows_if
  | |- grows (match ?x with _ => _ end) => destruct x
  end.

Ltac solve_grows :=
  repeat (unfold DRW_framebuffer_bind, DRW_framebuffer_clear,
            DRW_framebuffer_texture_attach, DRW_framebuffer_texture_detach,
            DRW_transform_to_display, DRW_viewport_request_redraw,
            DRW_pass_create, DRW_shgroup_uniform_buffer,
            DRW_framebuffer_init, fbo_texture_init, fresh_id,
            DRW_texture_create_2D, DRW_TEXTURE_FREE_SAFE,
            DRW_FRAMEBUFFER_FREE_SAFE,
            get_tex, get_fb, put_tex, put_fb, emit;
          grows_step).

(** ** The bits of the enabled-effect mask *)

Section flags.
Context `{EEVEE_private}.

Lemma EFFECT_pow2 (x : effect) : EFFECT x = 2 ^ effect_bit x.
Proof. unfold EFFECT. apply Z.shiftl_1_l. Qed.

Lemma EFFECT_testbit (x : effect) (n : Z) :
  Z.testbit (EFFECT x) n = bool_decide (n = effect_bit x).
Proof.
  rewrite EFFECT_pow2, Z.pow2_bits_eqb by apply effect_bit_nonneg.
  destruct (Z.eqb_spec (effect_bit x) n); case_bool_decide; congruence.
Qed.

Lemma land_EFFECT (e : Z) (x : effect) :
  Z.land e (EFFECT x) = if Z.testbit e (effect_bit x) then EFFECT x else 0.
Proof.
  apply Z.bits_inj'. intros n Hn.
  rewrite Z.land_spec, EFFECT_testbit.
  case_bool_decide as Hx.
  - subst n. destruct (Z.testbit e (effect_bit x)); simpl.
    + rewrite EFFECT_testbit. rewrite bool_decide_eq_true_2; done.
    + rewrite Z.bits_0. reflexivity.
  - rewrite andb_false_r.
    destruct (Z.testbit e (effect_bit x)).
    + rewrite EFFECT_testbit. rewrite bool_decide_eq_false_2; done.
    + rewrite Z.bits_0. reflexivity.
Qed.

Lemma EFFECT_nonzero (x : effect) : EFFECT x ≠ 0.
Proof.
  rewrite EFFECT_pow2.
  pose proof (Z.pow_pos_nonneg 2 (effect_bit x) ltac:(lia) (effect_bit_nonneg x)).
  lia.
Qed.

(** [(e & EFFECT_X) != 0] tests the bit of X. *)
Lemma effect_test (e : Z) (x : effect) :
  bool_decide (Z.land e (EFFECT x) ≠ 0) = Z.testbit e (effect_bit x).
Proof.
  rewrite land_EFFECT. pose proof (EFFECT_nonzero x).
  destruct (Z.testbit e (effect_bit x)); case_bool_decide; congruence.
Qed.

Lemma effect_test_lor (e : Z) (x y : effect) :
  Z.testbit (Z.lor e (EFFECT x)) (effect_bit y) =
  Z.testbit e (effect_bit y) || bool_decide (x = y).
Proof.
  rewrite Z.lor_spec, EFFECT_testbit. f_equal.
  repeat case_bool_decide; try congruence.
  exfalso. eauto using effect_bit_inj.
Qed.

Lemma effect_test_clear (e : Z) (x y : effect) :
  Z.testbit (Z.land e (Z.lnot (EFFECT x))) (effect_bit y) =
  Z.testbit e (effect_bit y) && negb (bool_decide (x = y)).
Proof.
  rewrite Z.land_spec, Z.lnot_spec, EFFECT_testbit by apply effect_bit_nonneg.
  f_equal. repeat case_bool_decide; try congruence.
  exfalso. eauto using effect_bit_inj.
Qed.

Lemma effect_test_0 (y : effect) : Z.testbit 0 (effect_bit y) = false.
Proof. apply Z.bits_0. Qed.

End flags.

(** ** The double-buffer exchange happens once per frame *)

Section draw_effects_proofs.
Context `{EEVEE_private}.

Lemma SWAP_DOUBLE_BUFFERS_post (sdb : bool) (w : World) :
  swap_post sdb w (SWAP_DOUBLE_BUFFERS sdb w).
Proof.
  destruct sdb, w; split; try reflexivity.
  unfold exchange_obs, SWAP_DOUBLE_BUFFERS; run_simpl.
  rewrite swap_count_app; cbn.
  rewrite Nat.add_1_r. reflexivity.
Qed.

Lemma swap_post_bind {A} (m : M A) (f : A → M bool) (sdb : bool) (w : World) :
  pres exchange_obs m →
  (∀ a w', swap_post sdb w' (f a w')) →
  swap_post sdb w ((m ≫= f) w).
Proof.
  intros Hm Hf. rewrite bind_run.
  destruct (Hf (m w).1 (m w).2) as [H1 H2]. split; [done|].
  rewrite H2, (Hm w). reflexivity.
Qed.

Lemma SWAP_BUFFERS_post (sdb : bool) (w : World) :
  swap_post sdb w (SWAP_BUFFERS sdb w).
Proof.
  unfold SWAP_BUFFERS.
  apply swap_post_bind; [solve_pres | intros source_buffer w1].
  apply swap_post_bind; [solve_pres | intros color w2].
  pose proof (SWAP_DOUBLE_BUFFERS_post sdb w2) as [H1 H2].
  destruct (bool_decide (source_buffer = color));
    rewrite bind_run; destruct (SWAP_DOUBLE_BUFFERS sdb w2) as [b w3];
    cbn [fst snd] in *; subst b; (split; [reflexivity|]);
    rewrite <- H2; destruct w3; reflexivity.
Qed.

Ltac swap_post_block :=
  repeat
    (match goal with
     | |- swap_post _ _ ((_ ≫= _) _) =>
         apply swap_post_bind; [solve [solve_pres] | intros ? ?]
     end);
  apply SWAP_BUFFERS_post.

Lemma draw_motion_blur_post (sdb : bool) (w : World) :
  swap_post sdb w (draw_motion_blur sdb w).
Proof. unfold draw_motion_blur. swap_post_block. Qed.

Lemma draw_dof_post (sdb : bool) (w : World) :
  swap_post sdb w (draw_dof sdb w).
Proof. unfold draw_dof. swap_post_block. Qed.

Lemma draw_bloom_post (sdb : bool) (w : World) :
  swap_post sdb w (draw_bloom sdb w).
Proof. unfold draw_bloom. swap_post_block. Qed.

Lemma once_step_pres {A B} (m : M A) (f : A → M B)
    (G : B * World → Prop) o0 (sdb : bool) (w : World) :
  pres exchange_obs m →
  once_inv o0 sdb w →
  (∀ a w', once_inv o0 sdb w' → G (f a w')) →
  G ((m ≫= f) w).
Proof.
  intros Hm Hinv Hf. rewrite bind_run. apply Hf.
  unfold once_inv. rewrite (Hm w). exact Hinv.
Qed.

Lemma once_step_block {B} (b : bool) (blk : bool → M bool) (f : bool → M B)
    (G : B * World → Prop) o0 (sdb : bool) (w : World) :
  (∀ sdb w, swap_post sdb w (blk sdb w)) →
  once_inv o0 sdb w →
  (∀ sdb' w', once_inv o0 sdb' w' → G (f sdb' w')) →
  G (((if b then blk sdb else mret sdb) ≫= f) w).
Proof.
  intros Hblk Hinv Hf. rewrite bind_run. apply Hf.
  destruct b; [|exact Hinv].
  destruct (Hblk sdb w) as [H1 H2]. unfold once_inv in *.
  rewrite H1, H2. destruct sdb; rewrite Hinv; reflexivity.
Qed.

Lemma once_step_final {B} (f : bool → M B)
    (G : B * World → Prop) o0 (sdb : bool) (w : World) :
  once_inv o0 sdb w →
  (∀ sdb' w', exchange_obs w' = exchanged o0 → G (f sdb' w')) →
  G ((SWAP_DOUBLE_BUFFERS sdb ≫= f) w).
Proof.
  intros Hinv Hf. rewrite bind_run. apply Hf.
  destruct (SWAP_DOUBLE_BUFFERS_post sdb w) as [_ H2]. unfold once_inv in *.
  rewrite H2. destruct sdb; rewrite Hinv; reflexivity.
Qed.

(** The exchange over a whole frame: with EFFECT_DOUBLE_BUFFER set the
    trace gains one exchange, and the main and history targets have
    traded places at the end. *)
Lemma draw_effects_exchanged
    (debug_value : Z) (is_image_render : bool) (w : World) :
  Z.land (enabled_effects w) EFFECT_DOUBLE_BUFFER ≠ 0 →
  let w' := exec (EEVEE_draw_effects debug_value is_image_render) w in
  swap_count (trace w') = S (swap_count (trace w)) ∧
  fb w' FBL_main = fb w FBL_double_buffer ∧
  fb w' FBL_double_buffer = fb w FBL_main ∧
  tex w' TXL_color = tex w TXL_color_double_buffer ∧
  tex w' TXL_color_double_buffer = tex w TXL_color.
Proof.
  intros Hdb w'.
  assert (Hobs : exchange_obs w' = exchanged (exchange_obs w)).
  { subst w'. unfold exec, EEVEE_draw_effects.
    rewrite bind_run. cbn [gets fst snd].
    rewrite (bool_decide_eq_true_2 _ Hdb).
    remember (exchange_obs w) as o0 eqn:Ho0.
    assert (Hinv : once_inv o0 true w) by (subst o0; reflexivity).
    clear Ho0.
    set (G := λ r : unit * World, exchange_obs r.2 = exchanged o0).
    match goal with |- exchange_obs (?r).2 = _ => change (G r) end.
    do 7 (eapply once_step_pres;
      [solve [solve_pres] | exact Hinv | clear Hinv; intros ? ? Hinv; cbv beta]).
    eapply once_step_block;
      [apply draw_motion_blur_post | exact Hinv | clear Hinv; intros ? ? Hinv; cbv beta].
    eapply once_step_pres;
      [solve [solve_pres] | exact Hinv | clear Hinv; intros ? ? Hinv; cbv beta].
    eapply once_step_block;
      [apply draw_dof_post | exact Hinv | clear Hinv; intros ? ? Hinv; cbv beta].
    eapply once_step_pres;
      [solve [solve_pres] | exact Hinv | clear Hinv; intros ? ? Hinv; cbv beta].
    eapply once_step_block;
      [apply draw_bloom_post | exact Hinv | clear Hinv; intros ? ? Hinv; cbv beta].
    do 6 (eapply once_step_pres;
      [solve [solve_pres] | exact Hinv | clear Hinv; intros ? ? Hinv; cbv beta]).
    eapply once_step_pres;
      [apply pres_draw_debug; intros ? ?; pres_side
      | exact Hinv | clear Hinv; intros ? ? Hinv; cbv beta].
    eapply once_step_final; [exact Hinv | clear Hinv; intros ? w2 Hinv; cbv beta].
    unfold G. rewrite <- Hinv.
    match goal with
    | |- exchange_obs (?m w2).2 = _ =>
        assert (Hrest : pres exchange_obs m) by solve_pres
    end.
    apply Hrest. }
  unfold exchange_obs, exchanged in Hobs.
  injection Hobs as -> -> -> -> -> _. done.
Qed.

End draw_effects_proofs.

(** ** A frame without post-effects passes its input through *)

Section pass_through.
Context `{EEVEE_private}.

Lemma draw_debug_displayed (debug_value : Z) (w : World) :
  ∃ debug_views,
    displayed (trace (draw_debug debug_value w).2) =
      displayed (trace w) ++ debug_views ∧
    (¬ (0 < debug_value ≤ 5) → debug_views = []).
Proof.
  unfold draw_debug.
  destruct (bool_decide (0 < debug_value)) eqn:H1;
    destruct (bool_decide (debug_value ≤ 5)) eqn:H2; cbn [andb when];
    try (exists []; rewrite app_nil_r; split; [reflexivity | done]).
  apply bool_decide_eq_true_1 in H1, H2.
  assert (Hshow : ∀ s, ∃ debug_views,
            displayed (trace ((t ← get_tex s;
               when (bool_decide (t ≠ None)) (DRW_transform_to_display t)) w).2) =
            displayed (trace w) ++ debug_views ∧
            (¬ (0 < debug_value ≤ 5) → debug_views = [])).
  { intros s. step. destruct (bool_decide (tex w s ≠ None)); cbn [when].
    - exists [tex w s]. destruct w; cbn. rewrite displayed_app. split; [done | lia].
    - exists []. rewrite app_nil_r. split; [done | lia]. }
  destruct debug_value as [|p|p]; try lia.
  destruct p as [[[?|?|]|[?|?|]|]|[[?|?|]|[?|?|]|]|];
    first [apply Hshow | exists []; rewrite app_nil_r; split; [reflexivity | lia]].
Qed.

(** C4.  When none of the bits of motion blur, depth of field and bloom is
    set (as when the mask is empty), [effects->source_buffer] is txl->color
    as it was at the start of the frame, also at the end of it; the frame
    draws no pass; and the first texture it sends to
    [DRW_transform_to_display], the tonemap stage, is that same
    txl->color.  Further textures are displayed only by the debug switch,
    that is when [G.debug_value] is between 1 and 5. *)
Theorem draw_effects_pass_through
    (debug_value : Z) (is_image_render : bool) (w : World) :
  Z.land (enabled_effects w) EFFECT_MOTION_BLUR = 0 →
  Z.land (enabled_effects w) EFFECT_DOF = 0 →
  Z.land (enabled_effects w) EFFECT_BLOOM = 0 →
  let w' := exec (EEVEE_draw_effects debug_value is_image_render) w in
  tex w' EFX_source_buffer = tex w TXL_color ∧
  drawn (trace w') = drawn (trace w) ∧
  ∃ debug_views,
    displayed (trace w') =
      displayed (trace w) ++ tex w TXL_color :: debug_views ∧
    (¬ (0 < debug_value ≤ 5) → debug_views = []).
Proof.
  intros Hmb Hdof Hbloom w'. subst w'.
  destruct w as [tex0 fb0 e0 ? ? ? valid ? ? ? ? trace0]. cbn in Hmb, Hdof, Hbloom.
  unfold exec, EEVEE_draw_effects.
  do 8 step.
  rewrite (bool_decide_eq_false_2 (Z.land e0 EFFECT_MOTION_BLUR ≠ 0))
    by (intros Hn; congruence).
  do 2 step.
  rewrite (bool_decide_eq_false_2 (Z.land e0 EFFECT_DOF ≠ 0))
    by (intros Hn; congruence).
  do 2 step.
  rewrite (bool_decide_eq_false_2 (Z.land e0 EFFECT_BLOOM ≠ 0))
    by (intros Hn; congruence).
  do 7 step.
  match goal with
  | |- context [(draw_debug debug_value ≫= ?k) ?w0] =>
      set (w1 := w0); set (tail := k)
  end.
  rewrite bind_run.
  set (obs := λ w, (tex w EFX_source_buffer, drawn (trace w), displayed (trace w))).
  assert (Htail : pres obs (tail (draw_debug debug_value w1).1)).
  { subst tail; cbv beta. apply pres_bind.
    - unfold SWAP_DOUBLE_BUFFERS. solve_pres.
    - intros ?. solve_pres. }
  assert (Hdbg : pres (λ w, (tex w EFX_source_buffer, drawn (trace w)))
                   (draw_debug debug_value))
    by (apply pres_draw_debug; intros; pres_side).
  destruct (draw_debug_displayed debug_value w1) as (debug_views & Hdv & Hnil).
  specialize (Htail (draw_debug debug_value w1).2).
  specialize (Hdbg w1). unfold obs in Htail.
  injection Htail as -> -> ->. injection Hdbg as -> ->.
  rewrite Hdv. subst w1. state_simpl.
  rewrite !drawn_app, !displayed_app; cbn. rewrite !app_nil_r.
  split; [reflexivity|]. split; [reflexivity|].
  exists debug_views. rewrite <- app_assoc. done.
Qed.

End pass_through.

(** ** The reflection stage: trace the rays or clear to the sentinel *)

Section do_ssr_proofs.
Context `{EEVEE_private}.

Lemma pres_downsample_buffer fb_src texture_src level :
  pres ssr_obs (EEVEE_downsample_buffer fb_src texture_src level).
Proof.
  unfold EEVEE_downsample_buffer.
  apply pres_bind; [solve_pres | intros _].
  apply pres_recursive_downsample; [intros; pres_side | intros ?].
  unfold simple_downsample_cb. solve_pres.
Qed.

(** C3.  With SSR enabled, [EEVEE_effects_do_ssr] binds the tracing
    framebuffer and then either draws the raytrace pass, when the colour
    history is valid, or clears the bound hit buffers to
    (0, 0, -1, 0.001), when it is not; in both cases it then binds the
    main framebuffer and draws the resolve pass.  So the clear to the
    sentinel happens if and only if [valid_double_buffer] is false, and
    the raytrace if and only if it is true. *)
Theorem do_ssr_sentinel_iff_invalid_history (w : World) :
  Z.land (enabled_effects w) EFFECT_SSR ≠ 0 →
  let w' := exec EEVEE_effects_do_ssr w in
  ssr_steps (trace w') =
    ssr_steps (trace w) ++
    [Ssr_bind (fb w FBL_screen_tracing_fb);
     if valid_double_buffer w then Ssr_raytrace
     else Ssr_clear true false false (0, 0, -1, 0.001)%Q;
     Ssr_bind (fb w FBL_main);
     Ssr_resolve].
Proof.
  intros Hssr w'. subst w'. unfold exec, EEVEE_effects_do_ssr.
  destruct w as [tex0 fb0 e0 ? rc ? valid ? ? ? ? trace0]. cbn in Hssr.
  step. rewrite (bool_decide_eq_true_2 _ Hssr). cbn [when].
  do 3 step.
  skip_pres ssr_obs ltac:(solve_pres).
  injection Hp as Hsteps -> Hmain Htracing.
  do 3 step.
  destruct valid; do 2 step;
    (skip_pres ssr_obs ltac:(solve_pres));
    injection Hp as Hsteps2 _ Hmain2 _;
    do 2 step;
    (skip_pres ssr_obs ltac:(apply pres_downsample_buffer));
    injection Hp as Hsteps3 _ Hmain3 _;
    do 15 step;
    unfold DRW_framebuffer_texture_attach, emit, modify; state_simpl;
    rewrite !ssr_steps_app, Hsteps3, Hsteps2, !ssr_steps_app, Hsteps;
    rewrite Hmain3, Hmain2, Hmain, Htracing;
    cbn; rewrite !app_nil_r, <- !app_assoc; reflexivity.
Qed.

End do_ssr_proofs.

(** ** The hit buffers bound to the resolve pass *)

Section cache_init_proofs.
Context `{EEVEE_private}.

Lemma pres_cache_init_volumetric (grp_created : bool) :
  pres ssr_cfg_obs (cache_init_volumetric grp_created).
Proof.
  unfold cache_init_volumetric.
  apply pres_bind; [solve_pres | intros v].
  apply pres_bind; [solve_pres | intros _].
  destruct grp_created; [solve_pres|].
  intros w. destruct w; unfold ssr_cfg_obs; run_simpl.
  rewrite effect_test_clear. rewrite bool_decide_eq_false_2 by done.
  rewrite andb_true_r. reflexivity.
Qed.

Lemma hit_buffer_slot_spec (rc i : Z) :
  hit_buffer_slot rc i =
  G_ssr_hit_output (if bool_decide (rc ≤ i) then 0 else i).
Proof.
  unfold hit_buffer_slot.
  destruct (Z.ltb_spec rc (i + 1)); case_bool_decide; (reflexivity || lia).
Qed.

(** C10.  With SSR enabled, the resolve pass built by
    [EEVEE_effects_cache_init] has its uniform hitBuffer0 bound to
    ssr_hit_output[0] and, for i = 1, 2, 3, its uniform hitBuffer<i> bound
    to ssr_hit_output[0] if ssr_ray_count <= i and to ssr_hit_output[i]
    otherwise; so with a ray count of at least 1 every hit-output field
    bound to the pass has an index below the ray count. *)
Theorem resolve_hit_buffers_within_ray_count
    (volume_grp_created : bool) (w : World) :
  Z.land (enabled_effects w) EFFECT_SSR ≠ 0 →
  1 ≤ ssr_ray_count w →
  let w' := exec (EEVEE_effects_cache_init volume_grp_created) w in
  let rc := ssr_ray_count w in
  let hit (i : Z) := G_ssr_hit_output (if bool_decide (rc ≤ i) then 0 else i) in
  psl w' PSL_ssr_resolve =
    [("depthBuffer", E_depth_src);
     ("normalBuffer", TXL_ssr_normal_input);
     ("specroughBuffer", TXL_ssr_specrough_input);
     ("colorBuffer", TXL_color_double_buffer);
     ("probeCubes", SL_probe_pool);
     ("probePlanars", TXL_planar_pool);
     ("hitBuffer0", G_ssr_hit_output 0);
     ("hitBuffer1", hit 1);
     ("hitBuffer2", hit 2);
     ("hitBuffer3", hit 3)]%string ∧
  ∀ name i, (name, G_ssr_hit_output i) ∈ psl w' PSL_ssr_resolve → 0 ≤ i < rc.
Proof.
  intros Hssr Hrc w' rc hit.
  assert (Hpsl : psl w' PSL_ssr_resolve =
    [("depthBuffer", E_depth_src);
     ("normalBuffer", TXL_ssr_normal_input);
     ("specroughBuffer", TXL_ssr_specrough_input);
     ("colorBuffer", TXL_color_double_buffer);
     ("probeCubes", SL_probe_pool);
     ("probePlanars", TXL_planar_pool);
     ("hitBuffer0", G_ssr_hit_output 0);
     ("hitBuffer1", hit 1);
     ("hitBuffer2", hit 2);
     ("hitBuffer3", hit 3)]%string).
  { subst w' hit rc. unfold exec, EEVEE_effects_cache_init.
    apply (bool_decide_eq_true_2 _) in Hssr. rewrite effect_test in Hssr.
    destruct w as [tex0 fb0 e0 ? rc ? ? ? ? psl0 ? ?]. cbn in Hssr, Hrc. cbn [ssr_ray_count].
    step.
    skip_pres ssr_cfg_obs ltac:(apply pres_when, pres_cache_init_volumetric).
    injection Hp as -> Hbit. rewrite Hssr in Hbit.
    step. rewrite effect_test, Hbit. cbn [when].
    rewrite bind_run.
    match goal with
    | |- psl (?tail ?w1).2 _ = _ =>
        assert (Htail : pres (λ w, psl w PSL_ssr_resolve) tail)
          by (unfold eevee_create_bloom_pass; solve_pres);
        rewrite (Htail w1); clear Htail
    end.
    unfold cache_init_ssr. do 20 step.
    unfold DRW_shgroup_uniform_buffer, modify; state_simpl.
    rewrite !fn_lookup_insert. cbn [app].
    rewrite !hit_buffer_slot_spec. reflexivity. }
  split; [exact Hpsl|].
  intros name i Hin. rewrite Hpsl in Hin. subst hit.
  repeat (apply elem_of_cons in Hin as [Heq | Hin];
          [injection Heq as _ Heq; try discriminate Heq|]);
    try (apply elem_of_nil in Hin; contradiction);
    revert Heq; try case_bool_decide; intros [= ->]; subst rc; lia.
Qed.

End cache_init_proofs.

(** ** The Hi-Z pyramids *)

Lemma mip_chain_length (n : nat) (level width height : Z) :
  (length (mip_chain n level width height) ≤ n)%nat.
Proof.
  revert level width height. induction n as [|n IH]; intros; simpl; [lia|].
  case_bool_decide; simpl; [lia|].
  specialize (IH (level + 1) (MAX2 (width `quot` 2) 1) (MAX2 (height `quot` 2) 1)).
  lia.
Qed.

Lemma MAX2_ge_r (a b : Z) : b ≤ MAX2 a b.
Proof. unfold MAX2. destruct (Z.gtb_spec a b); lia. Qed.

Lemma mip_chain_sizes (n : nat) (level width height : Z) :
  Forall (λ l, 1 ≤ l.1.2 ∧ 1 ≤ l.2) (mip_chain n level width height).
Proof.
  revert level width height. induction n as [|n IH]; intros; simpl; [constructor|].
  case_bool_decide; [constructor|].
  constructor; [|apply IH]. simpl. split; apply MAX2_ge_r.
Qed.

Lemma mip_chain_levels (n : nat) (level width height : Z) :
  (mip_chain n level width height).*1.*1 =
  seqZ level (Z.of_nat (length (mip_chain n level width height))).
Proof.
  revert level width height. induction n as [|n IH]; intros; simpl; [reflexivity|].
  case_bool_decide; [reflexivity|]. simpl.
  rewrite IH. rewrite (seqZ_cons level) by lia.
  f_equal. f_equal. lia.
Qed.

(** The driver goes through the levels of [mip_chain], whatever the
    callback, as long as the callback sets no render target itself. *)
Lemma recursive_downsample_levels
    (fb : option GPUFrameBuffer) (t : option GPUTexture) (num_iter : Z)
    (callback : Z → M unit) (w : World) :
  (∀ level, pres (λ w, mip_levels (trace w)) (callback level)) →
  mip_levels (trace (DRW_framebuffer_recursive_downsample fb t num_iter callback w).2) =
  mip_levels (trace w) ++ pyramid t num_iter.
Proof.
  intros Hcb. unfold DRW_framebuffer_recursive_downsample, pyramid.
  destruct t as [t|]; [|rewrite app_nil_r; reflexivity].
  generalize (tex_width t) (tex_height t) 1. revert w.
  induction (Z.to_nat num_iter) as [|n IH]; intros w width height level; simpl.
  - rewrite app_nil_r; reflexivity.
  - case_bool_decide; [rewrite app_nil_r; reflexivity|].
    rewrite run_emit, bind_run. rewrite IH.
    rewrite (Hcb level (log _ w)). destruct w; cbn.
    rewrite mip_levels_app, <- app_assoc. reflexivity.
Qed.

Lemma driver_minmax_obs f t num_iter (p : pass) (w : World) :
  minmax_obs
    (DRW_framebuffer_recursive_downsample f t num_iter (λ _, DRW_draw_pass p) w).2 =
  (mip_levels (trace w) ++ pyramid t num_iter, tex w, fb w).
Proof.
  unfold minmax_obs. f_equal; [f_equal|].
  - apply recursive_downsample_levels. intros ?; solve_pres.
  - apply (pres_recursive_downsample (λ w, tex w));
      [intros; pres_side | intros ?; solve_pres].
  - apply (pres_recursive_downsample (λ w, fb w));
      [intros; pres_side | intros ?; solve_pres].
Qed.

(** Steps over a run of the driver with a drawing callback. *)
Ltac skip_driver p :=
  lazymatch goal with
  | |- context [(DRW_framebuffer_recursive_downsample ?f ?t ?n ?cb ≫= _) ?w0] =>
      let Hp := fresh "Hp" in
      pose proof (driver_minmax_obs f t n p w0) as Hp;
      change (λ _ : Z, DRW_draw_pass p) with cb in Hp;
      rewrite (bind_run (DRW_framebuffer_recursive_downsample f t n cb));
      let r := fresh "r" in
      set (r := DRW_framebuffer_recursive_downsample f t n cb w0) in *;
      clearbody r; destruct r as [? []];
      unfold minmax_obs in Hp; state_simpl in Hp; state_simpl
  end.

(** C9.  For every state of the engine, hence for every size of the
    depth textures, [EEVEE_create_minmax_buffer] runs the recursive
    downsample driver twice, once on the min texture and once on the max
    texture, each time with a cap of 8 levels; each run ends having made
    at most 8 mip levels, numbered from 1 without gap, and every level it
    made, the coarsest included, is at least 1 wide and 1 high. *)
Theorem minmax_pyramids_bounded
    (depth_src : option GPUTexture) (layer : Z) (w : World) :
  let w' := exec (EEVEE_create_minmax_buffer depth_src layer) w in
  let min_levels := pyramid (tex w G_minzbuffer) 8 in
  let max_levels := pyramid (tex w TXL_maxzbuffer) 8 in
  mip_levels (trace w') = mip_levels (trace w) ++ min_levels ++ max_levels ∧
  ∀ levels, levels = min_levels ∨ levels = max_levels →
    (length levels ≤ 8)%nat ∧
    levels.*1.*1.*2 = seqZ 1 (Z.of_nat (length levels)) ∧
    Forall (λ l, 1 ≤ l.1.2 ∧ 1 ≤ l.2) levels.
Proof.
  intros w' min_levels max_levels. split.
  - subst w' min_levels max_levels. unfold exec, EEVEE_create_minmax_buffer.
    destruct w as [tex0 fb0 ? ? ? ? ? ? ? ? ? trace0].
    do 5 step.
    skip_pres minmax_obs ltac:(solve_pres).
    injection Hp as Hlev Htex Hfb. subst.
    step.
    skip_driver PSL_minz_downlevel_ps.
    injection Hp as Hlev2 Htex2 Hfb2. subst.
    do 4 step.
    skip_pres minmax_obs ltac:(solve_pres).
    injection Hp as Hlev3 Htex3 Hfb3. subst.
    step.
    pose proof (driver_minmax_obs (fb0 FBL_downsample_fb) (tex0 TXL_maxzbuffer) 8
                  PSL_maxz_downlevel_ps) as Hlast.
    unfold minmax_obs in Hlast.
    match goal with
    | |- mip_levels (trace (_ ?w0).2) = _ =>
        specialize (Hlast w0); injection Hlast as Hlast _ _
    end.
    unfold max_downsample_cb. rewrite Hlast. state_simpl.
    rewrite !mip_levels_app in *. cbn in *. rewrite !app_nil_r in *.
    rewrite Hlev3, Hlev2, Hlev, <- app_assoc. reflexivity.
  - assert (Hpyr : ∀ t, (length (pyramid t 8) ≤ 8)%nat ∧
              (pyramid t 8).*1.*1.*2 = seqZ 1 (Z.of_nat (length (pyramid t 8))) ∧
              Forall (λ l, 1 ≤ l.1.2 ∧ 1 ≤ l.2) (pyramid t 8)).
    { intros [t|]; unfold pyramid; [|split; [simpl; lia | split; [reflexivity | constructor]]].
      split; [|split].
      - rewrite length_fmap. apply (mip_chain_length (Z.to_nat 8)).
      - rewrite length_fmap, <- mip_chain_levels.
        rewrite <- !list_fmap_compose. reflexivity.
      - rewrite Forall_fmap.
        generalize (mip_chain_sizes (Z.to_nat 8) 1 (tex_width t) (tex_height t)).
        apply Forall_impl. intros [[l x] y] Hxy; exact Hxy. }
    intros levels [-> | ->]; apply Hpyr.
Qed.

(** The chain of a 1920x1080 viewport, whose Hi-Z level 0 is 960x540. *)
Example mip_chain_1080p :
  mip_chain 8 1 960 540 =
  [(1, 480, 270); (2, 240, 135); (3, 120, 67); (4, 60, 33);
   (5, 30, 16); (6, 15, 8); (7, 7, 4); (8, 3, 2)].
Proof. reflexivity. Qed.

(** A texture that is not square reaches 1x1 before the cap. *)
Example mip_chain_64x4 :
  mip_chain 8 1 64 4 =
  [(1, 32, 2); (2, 16, 1); (3, 8, 1); (4, 4, 1); (5, 2, 1); (6, 1, 1)].
Proof. reflexivity. Qed.

(** ** The ray count of the reflection stage *)

Lemma CLAMP_range (a b c : Z) : b ≤ c → b ≤ CLAMP a b c ≤ c.
Proof.
  intros Hbc. unfold CLAMP.
  destruct (Z.ltb_spec a b); [lia|]. destruct (Z.gtb_spec a c); lia.
Qed.


Section init_ssr_proofs.
Context `{EEVEE_private}.

Lemma pres_init_double_buffer_tracing (inp : FrameInput) :
  pres tracing_obs (init_double_buffer inp).
Proof. unfold init_double_buffer. solve_pres. Qed.

(** C7.  With SSR enabled, [EEVEE_effects_init] leaves in
    [effects->ssr_ray_count] the requested ray count clamped to [1, 4],
    and its one call of [DRW_framebuffer_init] on the screen-tracing
    framebuffer passes the four hit-output descriptors with that clamped
    count as the number of textures; a request of 6 gives 4. *)
Theorem init_clamps_ssr_ray_count (inp : FrameInput) (w : World) :
  get_bool inp "ssr_enable" = true →
  let w' := exec (EEVEE_effects_init inp) w in
  let rays := CLAMP (get_int inp "ssr_ray_count") 1 4 in
  let divisor := if get_bool inp "ssr_halfres" then 2 else 1 in
  1 ≤ rays ≤ 4 ∧
  ssr_ray_count w' = rays ∧
  framebuffer_inits FBL_screen_tracing_fb (trace w') =
    framebuffer_inits FBL_screen_tracing_fb (trace w) ++
    [((viewport_size inp).1 `quot` divisor,
      (viewport_size inp).2 `quot` divisor, tex_output, rays)] ∧
  (get_int inp "ssr_ray_count" = 6 → rays = 4).
Proof.
  intros Hssr w' rays divisor.
  split; [apply CLAMP_range; lia|].
  assert (Hobs : tracing_obs w' =
    (framebuffer_inits FBL_screen_tracing_fb (trace w) ++
     [((viewport_size inp).1 `quot` divisor,
       (viewport_size inp).2 `quot` divisor, tex_output, rays)], rays)).
  { subst w'. unfold exec, EEVEE_effects_init.
    destruct w as [tex0 fb0 ? ? ? ? ? ? ? ? ? trace0]. state_simpl.
    set (o := λ w, framebuffer_inits FBL_screen_tracing_fb (trace w)).
    skip_pres o ltac:(unfold init_bloom; solve_pres).
    rename Hp into Hacc.
    do 8 (skip_pres o ltac:(unfold init_dof, init_volumetric; solve_pres);
          rewrite Hacc in Hp; clear Hacc; rename Hp into Hacc).
    rewrite bind_run, pres_init_double_buffer_tracing.
    unfold init_ssr. rewrite Hssr.
    do 10 step.
    skip_pres tracing_obs ltac:(solve_pres).
    injection Hp as Hp1 ->. rewrite Hacc in Hp1. clear Hacc.
    step.
    skip_pres tracing_obs ltac:(solve_pres).
    injection Hp as Hp2 ->. rewrite Hp1 in Hp2. clear Hp1.
    do 8 step.
    unfold DRW_framebuffer_init. do 2 step.
    match goal with
    | |- tracing_obs (?m ?w0).2 = _ =>
        assert (Hrest : pres tracing_obs m) by solve_pres;
        rewrite (Hrest w0)
    end.
    unfold tracing_obs; state_simpl.
    rewrite !framebuffer_inits_app, Hp2. cbn. rewrite !app_nil_r.
    subst divisor rays. destruct (get_bool inp "ssr_halfres"); reflexivity. }
  injection Hobs as Hinits Hrc.
  split; [exact Hrc|]. split; [exact Hinits|].
  intros H6. subst rays. rewrite H6. reflexivity.
Qed.

End init_ssr_proofs.
(** ** The bloom iteration count *)

Lemma MIN2_min (a b : Z) : MIN2 a b = Z.min a b.
Proof. unfold MIN2. destruct (Z.ltb_spec a b); lia. Qed.

Lemma CLAMP_max_min (a b c : Z) : b ≤ c → CLAMP a b c = Z.max b (Z.min a c).
Proof.
  intros Hbc. unfold CLAMP.
  destruct (Z.ltb_spec a b); [lia|]. destruct (Z.gtb_spec a c); lia.
Qed.

Lemma powerRZ_2_neg (p : positive) :
  powerRZ 2 (Z.neg p) = (/ IZR (2 ^ Z.pos p))%R.
Proof.
  cbn [powerRZ]. f_equal.
  rewrite pow_IZR, positive_nat_Z. reflexivity.
Qed.





Lemma maxIterInt_1080p :
  @maxIterInt blender_private (int_to_float 6) (1920, 1080) = 8.
Proof. vm_compute. reflexivity. Qed.

Section bloom_proofs.
Context `{EEVEE_private}.

(** What the bloom block leaves in [effects->bloom_iteration_ct] is what
    the whole init leaves there. *)
Lemma init_bloom_iteration_ct (inp : FrameInput) (w : World) :
  get_bool inp "bloom_enable" = true →
  bloom_iteration_ct (exec (EEVEE_effects_init inp) w) =
  CLAMP (maxIterInt (get_float inp "bloom_radius") (viewport_size inp))
    1 MAX_BLOOM_STEP.
Proof.
  intros Hbloom. unfold exec, EEVEE_effects_init. rewrite Hbloom.
  rewrite bind_run.
  match goal with
  | |- bloom_iteration_ct (?tail ?w1).2 = _ =>
      assert (Htail : pres bloom_iteration_ct tail)
        by (unfold init_dof, init_volumetric, init_ssr, init_double_buffer;
            solve_pres);
      rewrite (Htail w1); clear Htail
  end.
  generalize (if get_bool inp "motion_blur_enable" && evil_C inp
              then if camera_view inp
                   then if camera_not_keyed inp
                        then Z.lor 0 EFFECT_MOTION_BLUR else 0
                   else 0
              else 0).
  intros enabled. unfold init_bloom.
  destruct w as [tex0 fb0 e0 ct0 rc0 full0 valid0 v0 layer0 psl0 id0 trace0].
  set (o := λ _ : World, ()).
  skip_pres o ltac:(solve_pres). clear Hp.
  do 4 step.
  match goal with
  | |- bloom_iteration_ct (?m ?w0).2 = _ =>
      assert (Hrest : pres bloom_iteration_ct m) by solve_pres;
      rewrite (Hrest w0)
  end.
  reflexivity.
Qed.

(** C5.  When bloom is enabled, the iteration count that
    [EEVEE_effects_init] stores is (int)maxIter clamped to
    [1, MAX_BLOOM_STEP], where maxIter is the [float] that C's evaluation
    of (radius - 8.0f) + log(minDim) / log(2) gives: the subtraction
    rounded to [float], the logarithms, the quotient and the sum rounded
    to [double], the sum rounded to [float], and the cast truncating
    toward zero.  For a 1920x1080 viewport and radius 6.0 it is 8,
    provided MAX_BLOOM_STEP is at least 8 and [log] returns at 1080 and
    at 2 the doubles nearest their logarithms.  The count is not always
    the floor of the real number radius - 8 + log2(minDim): see
    [init_bloom_iteration_count_counterexample]. *)
Theorem init_bloom_iteration_count (inp : FrameInput) (w : World) :
  get_bool inp "bloom_enable" = true →
  let ct := bloom_iteration_ct (exec (EEVEE_effects_init inp) w) in
  let radius := get_float inp "bloom_radius" in
  let minDim :=
    int_to_float (Z.min (viewport_size inp).1 (viewport_size inp).2) in
  let maxIter : float :=
    double_to_float
      (double_add
         (float_to_double (float_sub radius (int_to_float 8)))
         (double_div (libm_log (float_to_double minDim))
                     (libm_log (int_to_double 2)))) in
  ct = Z.max 1 (Z.min (float_to_int maxIter) MAX_BLOOM_STEP) ∧
  (viewport_size inp = (1920, 1080) →
   radius = int_to_float 6 →
   libm_log (int_to_double 1080) = S754_finite false 7864091454143311 (-50) →
   libm_log (int_to_double 2) = S754_finite false 6243314768165359 (-53) →
   8 ≤ MAX_BLOOM_STEP →
   ct = 8).
Proof.
  intros Hbloom ct radius minDim maxIter'. subst ct.
  rewrite init_bloom_iteration_ct by done.
  rewrite CLAMP_max_min by apply MAX_BLOOM_STEP_pos.
  assert (Heq : maxIterInt (get_float inp "bloom_radius") (viewport_size inp) =
                float_to_int maxIter').
  { unfold maxIterInt, maxIter. rewrite MIN2_min. reflexivity. }
  rewrite Heq. split; [reflexivity|].
  intros Hsize Hradius H1080 H2 HM.
  subst maxIter' minDim. rewrite Hradius, Hsize.
  change (float_to_double (int_to_float (Z.min (1920, 1080).1 (1920, 1080).2)))
    with (int_to_double 1080).
  rewrite H1080, H2.
  match goal with
  | |- context [float_to_int ?x] =>
      let v := eval vm_compute in (float_to_int x) in
      change (float_to_int x) with v
  end.
  lia.
Qed.


End bloom_proofs.

(** ** Depth of field borrows the first downsample buffer of bloom *)

Lemma DRW_framebuffer_init_obs
    (s : fb_slot) (x y : Z) (l : list DRWFboTexture) (n : Z) (w : World) :
  fbinit_obs s (DRW_framebuffer_init s x y l n w).2 =
  (Some (default (mkFb (next_id w)) (fb w s)), enabled_effects w,
   framebuffer_inits s (trace w) ++ [(x, y, l, n)],
   framebuffer_init_found s (trace w) ++ [fb w s],
   freed_framebuffers (trace w)).
Proof.
  unfold DRW_framebuffer_init. destruct w as [tex0 fb0 ? ? ? ? ? ? ? ? ? trace0].
  do 2 step.
  assert (Hloop : ∀ create_fb,
    pres (fbinit_obs s)
      (for_each (take (Z.to_nat n) l) (fbo_texture_init create_fb x y)))
    by (intros; solve_pres).
  destruct (fb0 s) as [f|] eqn:Hf.
  - rewrite bool_decide_eq_false_2 by done. cbn [when]. step.
    rewrite Hloop. unfold fbinit_obs; state_simpl.
    rewrite Hf, framebuffer_inits_app, framebuffer_init_found_app,
      freed_framebuffers_app. cbn.
    rewrite !decide_True, app_nil_r by done. reflexivity.
  - rewrite bool_decide_eq_true_2 by done. cbn [when]. do 2 step.
    rewrite Hloop. unfold fbinit_obs; state_simpl.
    rewrite fn_lookup_insert, framebuffer_inits_app, framebuffer_init_found_app,
      freed_framebuffers_app. cbn.
    rewrite !decide_True, app_nil_r by done. reflexivity.
Qed.

Section dof_alias_proofs.
Context `{EEVEE_private}.

Lemma init_bloom_returns (inp : FrameInput) (e : Z) (w : World) :
  (init_bloom inp e w).1 = Z.lor e EFFECT_BLOOM.
Proof. unfold init_bloom. rewrite !bind_run. reflexivity. Qed.

Lemma init_dof_returns (inp : FrameInput) (e : Z) (w : World) :
  (init_dof inp e w).1 = Z.lor e EFFECT_DOF.
Proof.
  unfold init_dof. rewrite bind_run.
  destruct (if bool_decide _ then _ else _) as [near reset].
  rewrite !bind_run. reflexivity.
Qed.

(** The local [enabled_effects] on entry of the bloom block holds at
    most the bit of motion blur. *)
Lemma motion_blur_mask_bloom_bit (inp : FrameInput) :
  Z.testbit
    (if get_bool inp "motion_blur_enable" && evil_C inp
     then if camera_view inp
          then if camera_not_keyed inp
               then Z.lor 0 EFFECT_MOTION_BLUR else 0
          else 0
     else 0) (effect_bit BLOOM) = false.
Proof.
  repeat match goal with |- context [if ?b then _ else _] => destruct b end;
    rewrite ?effect_test_lor, ?effect_test_0; reflexivity.
Qed.

Lemma bool_decide_eq_0 (x : Z) :
  bool_decide (x = 0) = negb (bool_decide (x ≠ 0)).
Proof. repeat case_bool_decide; done. Qed.

(** The depth-of-field block, seen through [dof_obs]. *)
Lemma init_dof_obs (inp : FrameInput) (enabled : Z) (w : World) :
  let bloom_now := bool_decide (Z.land enabled EFFECT_BLOOM ≠ 0) in
  let bloom_before := bool_decide (Z.land (enabled_effects w) EFFECT_BLOOM ≠ 0) in
  let fb_reset := xorb bloom_now bloom_before in
  let dof_down_near :=
    if bloom_now then TXL_bloom_downsample 0 else TXL_dof_down_near in
  let found := if fb_reset then None else fb w FBL_dof_down_fb in
  dof_obs (init_dof inp enabled w).2 =
  (Some (default (mkFb (next_id w)) found), enabled_effects w,
   framebuffer_inits FBL_dof_down_fb (trace w) ++
     [((viewport_size inp).1 `quot` 2, (viewport_size inp).2 `quot` 2,
       tex_down dof_down_near, 3)],
   framebuffer_init_found FBL_dof_down_fb (trace w) ++ [found],
   freed_framebuffers (trace w) ++
     (if fb_reset then option_list (fb w FBL_dof_down_fb) else [])).
Proof.
  intros bloom_now bloom_before fb_reset dof_down_near found.
  subst found dof_down_near fb_reset bloom_before bloom_now.
  unfold init_dof. destruct w as [tex0 fb0 e_prev ? ? ? ? ? ? ? ? trace0].
  step. rewrite bool_decide_eq_0.
  destruct (bool_decide (Z.land enabled EFFECT_BLOOM ≠ 0)),
    (bool_decide (Z.land e_prev EFFECT_BLOOM ≠ 0)); cbn [negb xorb];
    step; destruct (fb0 FBL_dof_down_fb) as [f|] eqn:Hf; cbn [when];
    repeat step.
  all: rewrite bind_run;
    match goal with
    | |- dof_obs (?tail ?w1).2 = _ =>
        assert (Htail : pres dof_obs tail) by solve_pres;
        rewrite (Htail w1); clear Htail
    end;
    change dof_obs with (fbinit_obs FBL_dof_down_fb);
    rewrite DRW_framebuffer_init_obs; state_simpl;
    rewrite ?fn_lookup_insert, ?Hf;
    rewrite ?framebuffer_inits_app, ?framebuffer_init_found_app,
      ?freed_framebuffers_app; cbn; rewrite ?app_nil_r; reflexivity.
Qed.

(** The init with depth of field enabled: the state after the
    depth-of-field block, and the rest of the init, which leaves the
    downsample framebuffer alone and only adds to the trace. *)
Lemma init_dof_state (inp : FrameInput) (w : World) :
  get_bool inp "dof_enable" = true →
  camera_view inp = true →
  let w' := exec (EEVEE_effects_init inp) w in
  let bloom_now := get_bool inp "bloom_enable" in
  let bloom_before := bool_decide (Z.land (enabled_effects w) EFFECT_BLOOM ≠ 0) in
  let fb_reset := xorb bloom_now bloom_before in
  let dof_down_near :=
    if bloom_now then TXL_bloom_downsample 0 else TXL_dof_down_near in
  let found := if fb_reset then None else fb w FBL_dof_down_fb in
  ∃ w1 w2 rest,
    dof_obs w2 =
      (Some (default (mkFb (next_id w1)) found), enabled_effects w,
       framebuffer_inits FBL_dof_down_fb (trace w) ++
         [((viewport_size inp).1 `quot` 2, (viewport_size inp).2 `quot` 2,
           tex_down dof_down_near, 3)],
       framebuffer_init_found FBL_dof_down_fb (trace w) ++ [found],
       freed_framebuffers (trace w) ++
         (if fb_reset then option_list (fb w FBL_dof_down_fb) else [])) ∧
    dof_tail_obs w' = dof_tail_obs w2 ∧
    trace w' = trace w2 ++ rest.
Proof.
  intros Hdof Hcam w' bloom_now bloom_before fb_reset dof_down_near found.
  subst w'. unfold exec, EEVEE_effects_init. rewrite Hdof, Hcam.
  pose proof (motion_blur_mask_bloom_bit inp) as Hmb. rewrite Hcam in Hmb.
  set (e0 := if get_bool inp "motion_blur_enable" && evil_C inp then _ else _) in *.
  (* the bloom block *)
  rewrite bind_run.
  set (m1 := if get_bool inp "bloom_enable" then init_bloom inp e0 else mret e0).
  assert (Hp1 : pres dof_obs m1)
    by (subst m1; unfold init_bloom; solve_pres).
  assert (Hv1 : (m1 w).1 = if bloom_now then Z.lor e0 EFFECT_BLOOM else e0).
  { subst m1 bloom_now. destruct (get_bool inp "bloom_enable");
      [apply init_bloom_returns | reflexivity]. }
  assert (Hbit : bool_decide (Z.land (m1 w).1 EFFECT_BLOOM ≠ 0) = bloom_now).
  { rewrite Hv1, effect_test. destruct bloom_now.
    - rewrite effect_test_lor, bool_decide_eq_true_2 by done. apply orb_true_r.
    - exact Hmb. }
  specialize (Hp1 w). clear Hv1.
  destruct (m1 w) as [enabled w1]. cbn [fst snd] in *. clear m1.
  (* the depth-of-field block *)
  rewrite bind_run.
  pose proof (init_dof_obs inp enabled w1) as Hdofobs. cbv zeta in Hdofobs.
  rewrite Hbit in Hdofobs.
  injection Hp1 as Hfb1 He1 Hi1 Hf1 Hfr1.
  rewrite Hfb1, He1, Hi1, Hf1, Hfr1 in Hdofobs.
  (* the rest of the init *)
  match goal with
  | |- context [trace (?tail ?w2).2] =>
      assert (Htail1 : pres dof_tail_obs tail)
        by (unfold init_volumetric, init_ssr, init_double_buffer; solve_pres);
      assert (Htail2 : grows tail)
        by (unfold init_volumetric, init_ssr, init_double_buffer; solve_grows);
      destruct (Htail2 w2) as [rest Hrest];
      exists w1, w2, rest
  end.
  split; [exact Hdofobs|]. split; [apply Htail1 | exact Hrest].
Qed.

(** The two draws of the scatter pass in a frame with depth of field. *)
Lemma draw_effects_scatter_sources
    (debug_value : Z) (is_image_render : bool) (w : World) :
  Z.land (enabled_effects w) EFFECT_DOF ≠ 0 →
  psl w PSL_dof_scatter =
    [("colorBuffer", EFX_unf_source_buffer); ("cocBuffer", TXL_dof_coc)]%string →
  let w' := exec (EEVEE_draw_effects debug_value is_image_render) w in
  let near :=
    if bool_decide (Z.land (enabled_effects w) EFFECT_BLOOM ≠ 0)
    then TXL_bloom_downsample 0 else TXL_dof_down_near in
  scatter_draws (trace w') =
    scatter_draws (trace w) ++
    [[("colorBuffer", tex w TXL_dof_down_far); ("cocBuffer", tex w TXL_dof_coc)];
     [("colorBuffer", tex w near); ("cocBuffer", tex w TXL_dof_coc)]]%string.
Proof.
  intros Hdof Hpsl w' near. subst w' near.
  unfold exec, EEVEE_draw_effects.
  destruct w as [tex0 fb0 e0 ? ? ? ? ? ? psl0 ? trace0]. cbn in Hdof, Hpsl.
  do 8 step.
  skip_pres scatter_obs
    ltac:(unfold draw_motion_blur, SWAP_BUFFERS, SWAP_DOUBLE_BUFFERS; solve_pres).
  rewrite !fn_lookup_insert_ne in Hp by discriminate.
  rewrite scatter_draws_app in Hp. cbn in Hp. rewrite app_nil_r in Hp.
  injection Hp as Hsc Hfar Hbl Hnear Hcoc -> Hpsl1. rewrite Hpsl in Hpsl1.
  step. rewrite (bool_decide_eq_true_2 _ Hdof).
  unfold draw_dof. do 9 step. rewrite Hpsl1. cbn [map fst snd].
  rewrite fn_lookup_insert, fn_lookup_insert_ne by discriminate.
  step.
  destruct (bool_decide (Z.land e0 EFFECT_BLOOM ≠ 0));
    do 6 step; rewrite Hpsl1; cbn [map fst snd];
    rewrite fn_lookup_insert, !fn_lookup_insert_ne by discriminate;
    do 3 step;
    match goal with
    | |- scatter_draws (trace (?tail ?w1).2) = _ =>
        assert (Htail : pres (λ w, scatter_draws (trace w)) tail)
          by (unfold draw_bloom, SWAP_BUFFERS, SWAP_DOUBLE_BUFFERS; solve_pres);
        rewrite (Htail w1); clear Htail
    end;
    state_simpl;
    rewrite !scatter_draws_app, Hsc; cbn; rewrite !app_nil_r, <- !app_assoc;
    rewrite Hfar, Hcoc, ?Hbl, ?Hnear; reflexivity.
Qed.

(** The buffer uniforms of the scatter pass, as the cache init binds
    them. *)
Lemma cache_init_dof_scatter (volume_grp_created : bool) (w : World) :
  psl (exec (EEVEE_effects_cache_init volume_grp_created) w) PSL_dof_scatter =
  [("colorBuffer", EFX_unf_source_buffer); ("cocBuffer", TXL_dof_coc)]%string.
Proof.
  unfold exec, EEVEE_effects_cache_init, eevee_create_bloom_pass.
  destruct w. set (o := λ _ : World, ()).
  step. skip_pres o ltac:(unfold cache_init_volumetric; solve_pres). clear Hp.
  step. skip_pres o ltac:(unfold cache_init_ssr; solve_pres). clear Hp.
  cbn [when]. repeat step.
  unfold DRW_shgroup_uniform_buffer, modify; state_simpl.
  rewrite fn_lookup_insert_ne by discriminate.
  rewrite !fn_lookup_insert_ne by discriminate.
  rewrite fn_lookup_insert. reflexivity.
Qed.

(** C8.  In [EEVEE_effects_init] with depth of field enabled, the call
    that sets up the downsample framebuffer passes as its near-field
    texture txl->bloom_downsample[0] when bloom is enabled in this frame
    and txl->dof_down_near otherwise; and when the bloom bit of the mask
    of the previous frame differs from the enablement of bloom in this
    frame, the downsample framebuffer that exists is freed and the call
    finds the field NULL, so that it builds the framebuffer anew, whereas
    without such a change an existing framebuffer is kept.  In
    [EEVEE_draw_effects] with depth of field enabled, the second draw of
    the scatter pass reads as its colour source txl->bloom_downsample[0]
    when the bloom bit is set and txl->dof_down_near otherwise. *)
Theorem dof_near_field_reuses_bloom_buffer :
  (∀ (inp : FrameInput) (w : World),
     get_bool inp "dof_enable" = true →
     camera_view inp = true →
     let w' := exec (EEVEE_effects_init inp) w in
     let bloom_now := get_bool inp "bloom_enable" in
     let bloom_before :=
       bool_decide (Z.land (enabled_effects w) EFFECT_BLOOM ≠ 0) in
     let fb_reset := xorb bloom_now bloom_before in
     let dof_down_near :=
       if bloom_now then TXL_bloom_downsample 0 else TXL_dof_down_near in
     framebuffer_inits FBL_dof_down_fb (trace w') =
       framebuffer_inits FBL_dof_down_fb (trace w) ++
       [((viewport_size inp).1 `quot` 2, (viewport_size inp).2 `quot` 2,
         tex_down dof_down_near, 3)] ∧
     framebuffer_init_found FBL_dof_down_fb (trace w') =
       framebuffer_init_found FBL_dof_down_fb (trace w) ++
       [if fb_reset then None else fb w FBL_dof_down_fb] ∧
     (∃ rest,
       freed_framebuffers (trace w') =
         freed_framebuffers (trace w) ++
         (if fb_reset then option_list (fb w FBL_dof_down_fb) else []) ++ rest) ∧
     fb w' FBL_dof_down_fb ≠ None ∧
     (fb_reset = false → fb w FBL_dof_down_fb ≠ None →
      fb w' FBL_dof_down_fb = fb w FBL_dof_down_fb)) ∧
  (∀ (debug_value : Z) (is_image_render volume_grp_created : bool) (w0 : World),
     let w := exec (EEVEE_effects_cache_init volume_grp_created) w0 in
     Z.land (enabled_effects w) EFFECT_DOF ≠ 0 →
     let w' := exec (EEVEE_draw_effects debug_value is_image_render) w in
     let near :=
       if bool_decide (Z.land (enabled_effects w) EFFECT_BLOOM ≠ 0)
       then TXL_bloom_downsample 0 else TXL_dof_down_near in
     scatter_draws (trace w') =
       scatter_draws (trace w) ++
       [[("colorBuffer", tex w TXL_dof_down_far); ("cocBuffer", tex w TXL_dof_coc)];
        [("colorBuffer", tex w near); ("cocBuffer", tex w TXL_dof_coc)]]%string).
Proof.
  split.
  - intros inp w Hdof Hcam w' bloom_now bloom_before fb_reset dof_down_near.
    destruct (init_dof_state inp w Hdof Hcam) as (w1 & w2 & rest & Hobs & Htail & Hrest).
    fold w' in Htail, Hrest. cbv zeta in Hobs.
    fold bloom_now bloom_before in Hobs. fold fb_reset in Hobs.
    fold dof_down_near in Hobs.
    unfold dof_obs in Hobs. unfold dof_tail_obs in Htail.
    injection Htail as Hfb Hinits Hfound.
    injection Hobs as Hfb2 _ Hinits2 Hfound2 Hfreed2.
    rewrite Hinits, Hfound, Hfb, Hinits2, Hfound2, Hfb2.
    split; [reflexivity|]. split; [reflexivity|]. split; [|split].
    + exists (freed_framebuffers rest).
      rewrite Hrest, freed_framebuffers_app, Hfreed2, <- app_assoc. reflexivity.
    + discriminate.
    + intros -> Hsome. destruct (fb w FBL_dof_down_fb); [reflexivity | done].
  - intros debug_value is_image_render volume_grp_created w0 w Hdof.
    apply draw_effects_scatter_sources; [exact Hdof|].
    apply cache_init_dof_scatter.
Qed.

End dof_alias_proofs.

(** ** What the init releases when effects are switched off *)

(** C2, on the code.  A frame with bloom, depth of field, volumetrics and
    SSR enabled is followed by a frame with all of them disabled.  The
    init of the second frame clears the whole mask.  Its two [else]
    branches release what SSR and the double buffer own: three textures
    and two framebuffers are freed and their fields set to NULL.  Nothing
    else is freed: every texture and framebuffer that the first frame
    created for bloom, for depth of field and for volumetrics is still in
    its field after the init of the second frame. *)
Theorem init_keeps_resources_of_disabled_effects :
  Z.land (enabled_effects frame_all_on) (@EFFECT blender_private BLOOM) ≠ 0 ∧
  Z.land (enabled_effects frame_all_on) (@EFFECT blender_private DOF) ≠ 0 ∧
  Z.land (enabled_effects frame_all_on) (@EFFECT blender_private VOLUMETRIC) ≠ 0 ∧
  Z.land (enabled_effects frame_all_on) (@EFFECT blender_private SSR) ≠ 0 ∧
  enabled_effects frame_all_off = 0 ∧
  (* released by the else branches *)
  Some <$> freed_textures (trace frame_all_off) =
    [tex frame_all_on TXL_ssr_normal_input;
     tex frame_all_on TXL_ssr_specrough_input;
     tex frame_all_on TXL_color_double_buffer] ∧
  Some <$> freed_framebuffers (trace frame_all_off) =
    [fb frame_all_on FBL_screen_tracing_fb;
     fb frame_all_on FBL_double_buffer] ∧
  Forall (λ s, tex frame_all_off s = None)
    [TXL_ssr_normal_input; TXL_ssr_specrough_input; TXL_color_double_buffer] ∧
  Forall (λ s, fb frame_all_off s = None)
    [FBL_screen_tracing_fb; FBL_double_buffer] ∧
  (* not released *)
  Forall (λ s, tex frame_all_off s ≠ None ∧
               tex frame_all_off s = tex frame_all_on s)
    ([TXL_bloom_blit] ++
     (TXL_bloom_downsample <$> seqZ 0 8) ++ (TXL_bloom_upsample <$> seqZ 0 7) ++
     [TXL_dof_down_far; TXL_dof_coc; TXL_dof_far_blur; TXL_dof_near_blur]) ∧
  Forall (λ s, fb frame_all_off s ≠ None ∧
               fb frame_all_off s = fb frame_all_on s)
    ([FBL_bloom_blit_fb] ++
     (FBL_bloom_down_fb <$> seqZ 0 8) ++ (FBL_bloom_accum_fb <$> seqZ 0 7) ++
     [FBL_dof_down_fb; FBL_dof_scatter_far_fb; FBL_dof_scatter_near_fb;
      FBL_volumetric_fb]).
Proof.
  unfold frame_all_off, frame_all_on, EEVEE_effects_init, init_bloom.
  change (maxIterInt (get_float settings_all_on "bloom_radius")
            (viewport_size settings_all_on))
    with (@maxIterInt blender_private (int_to_float 6) (1920, 1080)).
  rewrite maxIterInt_1080p.
  vm_compute.
  repeat split; try discriminate;
    repeat (constructor; try (split; [discriminate | reflexivity]));
    try reflexivity.
Qed.

(** ** Readings of a trace distribute over its growth *)

Lemma bound_app (t1 t2 : list event) : bound (t1 ++ t2) = bound t1 ++ bound t2.
Proof. apply omap_app. Qed.

Lemma attached_app (t1 t2 : list event) :
  attached (t1 ++ t2) = attached t1 ++ attached t2.
Proof. apply omap_app. Qed.

Lemma detached_app (t1 t2 : list event) :
  detached (t1 ++ t2) = detached t1 ++ detached t2.
Proof. apply omap_app. Qed.

Lemma redraw_requests_app (t1 t2 : list event) :
  redraw_requests (t1 ++ t2) = redraw_requests t1 ++ redraw_requests t2.
Proof. apply omap_app. Qed.

Lemma framebuffer_init_sizes_app (t1 t2 : list event) :
  framebuffer_init_sizes (t1 ++ t2) =
  framebuffer_init_sizes t1 ++ framebuffer_init_sizes t2.
Proof. apply omap_app. Qed.

Lemma created_textures_app (t1 t2 : list event) :
  created_textures (t1 ++ t2) = created_textures t1 ++ created_textures t2.
Proof. apply omap_app. Qed.

Lemma stage_steps_app (t1 t2 : list event) :
  stage_steps (t1 ++ t2) = stage_steps t1 ++ stage_steps t2.
Proof. apply omap_app. Qed.

Lemma frame_steps_app (t1 t2 : list event) :
  frame_steps (t1 ++ t2) = frame_steps t1 ++ frame_steps t2.
Proof. apply omap_app. Qed.

Ltac pres_side ::=
  try match goal with |- ?obs _ = ?obs _ => unfold obs end;
  try unfold frame_obs;
  repeat match goal with w : World |- _ => destruct w end;
  cbn; rewrite ?swap_count_app, ?drawn_app, ?displayed_app, ?ssr_steps_app, ?mip_levels_app,
    ?framebuffer_inits_app, ?freed_framebuffers_app, ?freed_textures_app,
    ?framebuffer_init_found_app, ?scatter_draws_app,
    ?bound_app, ?attached_app, ?detached_app, ?redraw_requests_app,
    ?framebuffer_init_sizes_app, ?created_textures_app,
    ?stage_steps_app, ?frame_steps_app, ?omap_app; cbn;
  rewrite ?Nat.add_0_r, ?app_nil_r; reflexivity.

(** Replaces the state [r] left by a command by a record of fresh
    variables. *)
Ltac destruct_run r :=
  let a := fresh "a" in
  let tex_ := fresh "tex_" in let fb_ := fresh "fb_" in
  let e_ := fresh "e_" in let ct_ := fresh "ct_" in
  let rc_ := fresh "rc_" in let full_ := fresh "full_" in
  let valid_ := fresh "valid_" in let v_ := fresh "v_" in
  let layer_ := fresh "layer_" in let psl_ := fresh "psl_" in
  let id_ := fresh "id_" in let trace_ := fresh "trace_" in
  destruct r as
    [a [tex_ fb_ e_ ct_ rc_ full_ valid_ v_ layer_ psl_ id_ trace_]].

Ltac skip_pres obs tac ::=
  lazymatch goal with
  | |- context [(?m ≫= _) ?w0] =>
      let Hp := fresh "Hp" in
      assert (Hp : pres obs m) by tac;
      specialize (Hp w0);
      rewrite (bind_run m);
      let r := fresh "r" in
      set (r := m w0) in *; clearbody r; destruct_run r;
      let h := lazymatch obs with ?f _ => f | _ => obs end in
      unfold h in Hp; state_simpl in Hp; state_simpl
  end.

(** Runs the first command of the goal by a lemma about the state it
    leaves; the state becomes a new record known through that lemma. *)
Ltac run_by lem :=
  lazymatch goal with
  | |- context [(?m ≫= _) ?w0] =>
      let Hp := fresh "Hp" in
      pose proof (lem w0) as Hp;
      rewrite (bind_run m);
      let r := fresh "r" in
      set (r := m w0) in *; clearbody r; destruct_run r;
      state_simpl in Hp; state_simpl
  end.

(** ** The volumetric stage *)

Section volumetrics_proofs.
Context `{EEVEE_private}.

(** The mask after the cache init: the volumetric bit is cleared when
    the world material gave no shading group, nothing else changes. *)
Lemma cache_init_enabled_effects (volume_grp_created : bool) (w : World) :
  enabled_effects (exec (EEVEE_effects_cache_init volume_grp_created) w) =
  if volume_grp_created then enabled_effects w
  else Z.land (enabled_effects w) (Z.lnot EFFECT_VOLUMETRIC).
Proof.
  unfold exec, EEVEE_effects_cache_init.
  destruct w as [tex0 fb0 e0 ? ? ? ? v0 ? psl0 ? trace0]. step.
  rewrite bind_run.
  match goal with
  | |- enabled_effects (?tail ?w1).2 = _ =>
      assert (Htail : pres enabled_effects tail)
        by (unfold cache_init_ssr, eevee_create_bloom_pass; solve_pres);
      rewrite (Htail w1); clear Htail
  end.
  state_simpl. rewrite effect_test.
  destruct (Z.testbit e0 (effect_bit VOLUMETRIC)) eqn:Hbit; cbn [when].
  - unfold cache_init_volumetric. do 2 step.
    destruct volume_grp_created.
    + match goal with
      | |- enabled_effects (?m ?w1).2 = _ =>
          assert (Hm : pres enabled_effects m) by solve_pres;
          rewrite (Hm w1); reflexivity
      end.
    + step. reflexivity.
  - cbn. destruct volume_grp_created; [reflexivity|].
    apply Z.bits_inj'. intros n Hn.
    rewrite Z.land_spec, Z.lnot_spec, EFFECT_testbit by done.
    case_bool_decide as Hx; [subst n; rewrite Hbit; reflexivity|].
    cbn. rewrite andb_true_r. reflexivity.
Qed.

Lemma do_volumetrics_off (w : World) :
  Z.testbit (enabled_effects w) (effect_bit VOLUMETRIC) = false →
  EEVEE_effects_do_volumetrics w = (tt, w).
Proof.
  intros Hoff. unfold EEVEE_effects_do_volumetrics.
  rewrite run_gets, effect_test, Hoff. reflexivity.
Qed.

(** X1.  When the world volume material gives no shading group (its
    compilation failed), the volumetric stage of that frame does nothing
    at all: running [EEVEE_effects_do_volumetrics] after
    [EEVEE_effects_cache_init] leaves the engine, trace included, as the
    cache init left it, whatever the mask held before. *)
Theorem do_volumetrics_skipped_after_failed_compile (w : World) :
  exec (EEVEE_effects_cache_init false ;; EEVEE_effects_do_volumetrics) w =
  exec (EEVEE_effects_cache_init false) w.
Proof.
  unfold exec. rewrite bind_run.
  rewrite do_volumetrics_off; [reflexivity|].
  pose proof (cache_init_enabled_effects false w) as He. unfold exec in He.
  rewrite He, effect_test_clear, bool_decide_eq_true_2 by done.
  apply andb_false_r.
Qed.

(** X2.  With the volumetric bit set and the volumetric structure
    allocated, the calls of [EEVEE_effects_do_volumetrics] are, in this
    order: the volumetric texture is attached to the volumetric
    framebuffer at point 0 (and the transmittance texture at point 1, with
    coloured transmittance), that framebuffer is bound and the integration
    pass drawn; the scene depth is detached and the main framebuffer
    bound; the transmittance resolve (with coloured transmittance) and the
    resolve are drawn; the scene depth is attached to the main framebuffer
    at point 0, the volumetric textures are detached, and the main
    framebuffer is bound again.  No framebuffer field changes, and the
    only texture field that does is e_data.depth_src, set to the scene
    depth. *)
Theorem do_volumetrics_schedule (w : World) (colored : bool) :
  Z.land (enabled_effects w) EFFECT_VOLUMETRIC ≠ 0 →
  volumetrics w = Some colored →
  let w' := exec EEVEE_effects_do_volumetrics w in
  let volumetric_fb := fb w FBL_volumetric_fb in
  let main := fb w FBL_main in
  stage_steps (trace w') =
    stage_steps (trace w) ++
    [St_attach volumetric_fb (tex w G_volumetric) 0] ++
    (if colored
     then [St_attach volumetric_fb (tex w G_volumetric_transmit) 1] else []) ++
    [St_bind volumetric_fb;
     St_draw PSL_volumetric_integrate_ps;
     St_detach (tex w DTXL_depth);
     St_bind main] ++
    (if colored then [St_draw PSL_volumetric_resolve_transmit_ps] else []) ++
    [St_draw PSL_volumetric_resolve_ps;
     St_attach main (tex w DTXL_depth) 0;
     St_detach (tex w G_volumetric)] ++
    (if colored then [St_detach (tex w G_volumetric_transmit)] else []) ++
    [St_bind main] ∧
  fb w' = fb w ∧
  (∀ s, s ≠ E_depth_src → tex w' s = tex w s) ∧
  tex w' E_depth_src = tex w DTXL_depth.
Proof.
  intros Hon Hv w' volumetric_fb main. subst w' volumetric_fb main.
  unfold exec, EEVEE_effects_do_volumetrics.
  destruct w as [tex0 fb0 e0 ct0 rc0 full0 valid0 v0 layer0 psl0 id0 trace0].
  cbn in Hon, Hv. subst v0. step.
  rewrite (bool_decide_eq_true_2 _ Hon). cbn [when].
  destruct colored;
    repeat first [step | progress (simpl (default false _); cbn [when])];
    unfold DRW_framebuffer_bind, emit, modify; state_simpl;
    rewrite !stage_steps_app; cbn;
    rewrite ?app_nil_r, <- ?app_assoc; cbn;
    (repeat split; try reflexivity);
    intros s Hs; rewrite fn_lookup_insert_ne by done; reflexivity.
Qed.

End volumetrics_proofs.

(** ** The attachments of the reflection stage *)

Lemma pres_downsample_buffer_of {X} (obs : World → X) fb_src texture_src level :
  (∀ v w, obs (set_tex E_color_src v w) = obs w) →
  (∀ f t l x y w, obs (log (Ev_mip_target f t l x y) w) = obs w) →
  (∀ e w, obs (log (Ev_draw_pass PSL_color_downsample_ps e) w) = obs w) →
  pres obs (EEVEE_downsample_buffer fb_src texture_src level).
Proof.
  intros Hset Hmip Hdraw. unfold EEVEE_downsample_buffer.
  apply pres_bind; [apply pres_modify; intros w; apply Hset | intros _].
  apply pres_recursive_downsample; [exact Hmip | intros ?].
  unfold simple_downsample_cb. apply pres_draw_pass. exact Hdraw.
Qed.

Lemma attach_hit_steps (l : list Z) (w : World) :
  stage_obs
    (for_each l (λ i,
       fb ← get_fb FBL_screen_tracing_fb;
       t ← get_tex (G_ssr_hit_output i);
       DRW_framebuffer_texture_attach fb t i 0) w).2 =
  (stage_steps (trace w) ++
     ((λ i, St_attach (fb w FBL_screen_tracing_fb) (tex w (G_ssr_hit_output i)) i)
        <$> l),
   tex w DTXL_depth,
   tex w TXL_ssr_normal_input, tex w TXL_ssr_specrough_input,
   tex w TXL_color_double_buffer,
   (λ i, tex w (G_ssr_hit_output i)), fb w, ssr_ray_count w,
   valid_double_buffer w).
Proof.
  revert w. induction l as [|i l IH]; intros w.
  - cbn. rewrite app_nil_r. reflexivity.
  - cbn [for_each fmap list_fmap]. rewrite bind_run.
    destruct w as [tex0 fb0 e0 ct0 rc0 full0 valid0 v0 layer0 psl0 id0 trace0].
    rewrite IH. clear IH.
    unfold get_fb, get_tex, DRW_framebuffer_texture_attach, emit.
    rewrite run_gets, run_gets. unfold modify. state_simpl.
    rewrite stage_steps_app. cbn.
    rewrite <- app_assoc. reflexivity.
Qed.

Lemma detach_hit_steps (l : list Z) (w : World) :
  stage_obs
    (for_each l (λ i,
       t ← get_tex (G_ssr_hit_output i);
       DRW_framebuffer_texture_detach t) w).2 =
  (stage_steps (trace w) ++
     ((λ i, St_detach (tex w (G_ssr_hit_output i))) <$> l),
   tex w DTXL_depth,
   tex w TXL_ssr_normal_input, tex w TXL_ssr_specrough_input,
   tex w TXL_color_double_buffer,
   (λ i, tex w (G_ssr_hit_output i)), fb w, ssr_ray_count w,
   valid_double_buffer w).
Proof.
  revert w. induction l as [|i l IH]; intros w.
  - cbn. rewrite app_nil_r. reflexivity.
  - cbn [for_each fmap list_fmap]. rewrite bind_run.
    destruct w as [tex0 fb0 e0 ct0 rc0 full0 valid0 v0 layer0 psl0 id0 trace0].
    rewrite IH. clear IH.
    unfold get_tex, DRW_framebuffer_texture_detach, emit.
    rewrite run_gets. unfold modify. state_simpl.
    rewrite stage_steps_app. cbn.
    rewrite <- app_assoc. reflexivity.
Qed.

(** The downsample driver adds one draw of the callback's pass per level
    it makes, and nothing else that a stage shows. *)
Lemma recursive_downsample_steps
    (n : nat) (level width height : Z)
    (f : option GPUFrameBuffer) (t : GPUTexture) (p : pass) (w : World) :
  stage_obs
    (recursive_downsample_from n level width height f t
       (λ _, DRW_draw_pass p) w).2 =
  (stage_steps (trace w) ++
     replicate (length (mip_chain n level width height)) (St_draw p),
   tex w DTXL_depth,
   tex w TXL_ssr_normal_input, tex w TXL_ssr_specrough_input,
   tex w TXL_color_double_buffer,
   (λ i, tex w (G_ssr_hit_output i)), fb w, ssr_ray_count w,
   valid_double_buffer w).
Proof.
  revert w level width height.
  induction n as [|n IH]; intros w level width height; simpl.
  - rewrite app_nil_r. reflexivity.
  - case_bool_decide; [simpl; rewrite app_nil_r; reflexivity|].
    rewrite run_emit, run_draw, IH.
    destruct w as [tex0 fb0 e0 ct0 rc0 full0 valid0 v0 layer0 psl0 id0 trace0].
    state_simpl.
    rewrite !stage_steps_app. cbn.
    rewrite !app_nil_r, <- app_assoc. reflexivity.
Qed.

Lemma downsample_buffer_steps fb_src texture_src level (w : World) :
  stage_obs (EEVEE_downsample_buffer fb_src texture_src level w).2 =
  (stage_steps (trace w) ++
     replicate (length (pyramid texture_src level))
       (St_draw PSL_color_downsample_ps),
   tex w DTXL_depth,
   tex w TXL_ssr_normal_input, tex w TXL_ssr_specrough_input,
   tex w TXL_color_double_buffer,
   (λ i, tex w (G_ssr_hit_output i)), fb w, ssr_ray_count w,
   valid_double_buffer w).
Proof.
  unfold EEVEE_downsample_buffer, DRW_framebuffer_recursive_downsample,
    pyramid, simple_downsample_cb.
  destruct w as [tex0 fb0 e0 ct0 rc0 full0 valid0 v0 layer0 psl0 id0 trace0].
  step.
  destruct texture_src as [t|].
  - rewrite recursive_downsample_steps, length_fmap. state_simpl.
    reflexivity.
  - unfold mret, M_ret, stage_obs. state_simpl.
    rewrite app_nil_r. reflexivity.
Qed.

Section do_ssr_attachments.
Context `{EEVEE_private}.

(** X3.  With SSR enabled, the calls of [EEVEE_effects_do_ssr] are, in
    this order: the hit outputs 0 .. ssr_ray_count - 1 are attached to the
    tracing framebuffer, output i at point i; that framebuffer is bound;
    the raytrace pass is drawn (a valid history) or the framebuffer is
    cleared to (0, 0, -1, 0.001); the hit outputs are detached; the
    history colour is downsampled (some number of draws of the downsample
    pass); the scene depth and the two SSR inputs are detached; the main
    framebuffer is bound and the resolve pass drawn; the three are
    attached to the main framebuffer at points 0, 1 and 2.  The stage
    makes no other attachment, detachment, bind, clear or draw. *)
Theorem do_ssr_attachments_balanced (w : World) :
  Z.land (enabled_effects w) EFFECT_SSR ≠ 0 →
  let w' := exec EEVEE_effects_do_ssr w in
  let rays := seqZ 0 (ssr_ray_count w) in
  let tracing := fb w FBL_screen_tracing_fb in
  let main := fb w FBL_main in
  ∃ levels : nat,
    stage_steps (trace w') =
      stage_steps (trace w) ++
      ((λ i, St_attach tracing (tex w (G_ssr_hit_output i)) i) <$> rays) ++
      [St_bind tracing;
       if valid_double_buffer w then St_draw PSL_ssr_raytrace
       else St_clear ssr_clear_col] ++
      ((λ i, St_detach (tex w (G_ssr_hit_output i))) <$> rays) ++
      replicate levels (St_draw PSL_color_downsample_ps) ++
      [St_detach (tex w DTXL_depth);
       St_detach (tex w TXL_ssr_normal_input);
       St_detach (tex w TXL_ssr_specrough_input);
       St_bind main;
       St_draw PSL_ssr_resolve;
       St_attach main (tex w DTXL_depth) 0;
       St_attach main (tex w TXL_ssr_normal_input) 1;
       St_attach main (tex w TXL_ssr_specrough_input) 2].
Proof.
  intros Hssr w' rays tracing main. subst w' rays tracing main.
  unfold exec, EEVEE_effects_do_ssr.
  destruct w as [tex0 fb0 e0 ct0 rc0 full0 valid0 v0 layer0 psl0 id0 trace0].
  cbn in Hssr. step. rewrite (bool_decide_eq_true_2 _ Hssr). cbn [when].
  do 3 step.
  rewrite bind_run.
  match goal with
  | |- context [(for_each ?l ?body ?w0)] =>
      pose proof (attach_hit_steps l w0) as Hp;
      set (r := for_each l body w0) in *; clearbody r; destruct_run r
  end.
  unfold stage_obs in Hp. state_simpl in Hp. state_simpl.
  rewrite !fn_lookup_insert_ne in Hp by discriminate.
  injection Hp as Hst Hdepth Hnor Hspec Hcol Hhit Hfb -> ->.
  do 3 step.
  match goal with
  | |- context [(?m ≫= _) ?w0] =>
      assert (Hp : stage_obs (m w0).2 =
                   (stage_steps (trace w0) ++
                      [if valid0 then St_draw PSL_ssr_raytrace
                       else St_clear ssr_clear_col],
                    tex w0 DTXL_depth, tex w0 TXL_ssr_normal_input,
                    tex w0 TXL_ssr_specrough_input,
                    tex w0 TXL_color_double_buffer,
                    (λ i, tex w0 (G_ssr_hit_output i)), fb w0,
                    ssr_ray_count w0, valid_double_buffer w0))
        by (destruct valid0;
            unfold DRW_draw_pass, DRW_framebuffer_clear, emit, modify,
              stage_obs;
            state_simpl; rewrite stage_steps_app; reflexivity);
      rewrite (bind_run m);
      set (r := m w0) in *; clearbody r; destruct_run r
  end.
  unfold stage_obs in Hp. state_simpl in Hp. state_simpl.
  rewrite stage_steps_app in Hp. cbn in Hp.
  injection Hp as Hst2 Hdepth2 Hnor2 Hspec2 Hcol2 Hhit2 Hfb2 -> ->.
  step.
  rewrite bind_run.
  match goal with
  | |- context [(for_each ?l ?body ?w0)] =>
      pose proof (detach_hit_steps l w0) as Hp;
      set (r := for_each l body w0) in *; clearbody r; destruct_run r
  end.
  unfold stage_obs in Hp. state_simpl in Hp. state_simpl.
  injection Hp as Hst3 Hdepth3 Hnor3 Hspec3 Hcol3 Hhit3 Hfb3 Hrc3 Hvalid3.
  do 2 step.
  match goal with
  | |- context [(EEVEE_downsample_buffer ?f ?t ?l ≫= _) ?w0] =>
      run_by (downsample_buffer_steps f t l);
      exists (length (pyramid t l))
  end.
  unfold stage_obs in Hp. state_simpl in Hp.
  injection Hp as Hst4 Hdepth4 Hnor4 Hspec4 Hcol4 Hhit4 Hfb4 Hrc4 Hvalid4.
  do 15 step.
  unfold DRW_framebuffer_texture_attach, emit, modify; state_simpl.
  rewrite !stage_steps_app. cbn. rewrite ?app_nil_r.
  rewrite Hst4, Hst3, Hst2, Hst.
  rewrite Hfb4, Hfb3, Hfb2, Hfb.
  rewrite Hdepth4, Hdepth3, Hdepth2, Hdepth, Hnor4, Hnor3, Hnor2, Hnor,
    Hspec4, Hspec3, Hspec2, Hspec.
  assert (Hins : ∀ i, <[E_depth_src:=tex0 DTXL_depth]> tex0 (G_ssr_hit_output i) =
                      tex0 (G_ssr_hit_output i))
    by (intros i; apply fn_lookup_insert_ne; discriminate).
  assert (Hpt : ∀ i, tex_0 (G_ssr_hit_output i) = tex0 (G_ssr_hit_output i)).
  { intros i.
    pose proof (f_equal (λ f, f i) Hhit2) as E2.
    pose proof (f_equal (λ f, f i) Hhit) as E1.
    cbv beta in E1, E2. rewrite E2, E1. apply Hins. }
  match goal with
  | |- context [?f <$> seqZ 0 rc0] =>
      lazymatch f with
      | context [St_attach] =>
          rewrite (list_fmap_ext f
                     (λ i, St_attach (fb0 FBL_screen_tracing_fb)
                             (tex0 (G_ssr_hit_output i)) i))
            by (intros ? i ?; cbv beta; rewrite Hins; reflexivity)
      end
  end.
  match goal with
  | |- context [?f <$> seqZ 0 rc0] =>
      lazymatch f with
      | context [tex_0] =>
          rewrite (list_fmap_ext f
                     (λ i, St_detach (tex0 (G_ssr_hit_output i))))
            by (intros ? i ?; cbv beta; rewrite Hpt; reflexivity)
      end
  end.
  rewrite <- !app_assoc. reflexivity.
Qed.

End do_ssr_attachments.

(** ** The ping-pong of a frame *)

Section frame_proofs.
Context `{EEVEE_private}.

Lemma frame_obs2_eq (o : frame_view) d (w : World) :
  frame_obs2 w = (o, d) → frame_obs w = o ∧ displayed (trace w) = d.
Proof.
  intros Hobs. split; [exact (f_equal fst Hobs) | exact (f_equal snd Hobs)].
Qed.

Lemma SWAP_BUFFERS_view (sdb : bool) (w : World) :
  frame_post sdb w (SWAP_BUFFERS sdb w).
Proof.
  destruct w as [tex0 fb0 e0 ct0 rc0 full0 valid0 v0 layer0 psl0 id0 trace0].
  unfold frame_post, SWAP_BUFFERS. do 2 step.
  destruct (bool_decide (tex0 EFX_source_buffer = tex0 TXL_color)) eqn:Hsrc;
    destruct sdb; unfold SWAP_DOUBLE_BUFFERS; repeat step;
    unfold mret, M_ret; cbn [fst snd];
    (split; [reflexivity|]);
    unfold frame_obs2, frame_obs, view_swap_buffers, view_exchange; state_simpl;
    rewrite ?fn_lookup_insert, ?Hsrc;
    rewrite ?fn_lookup_insert_ne by discriminate;
    rewrite ?fn_lookup_insert;
    rewrite ?swap_count_app, ?redraw_requests_app, ?displayed_app; cbn;
    rewrite ?app_nil_r, ?Nat.add_1_r, ?Hsrc; reflexivity.
Qed.

Lemma frame_post_bind {A} (m : M A) (f : A → M bool) (sdb : bool) (w : World) :
  pres frame_obs2 m →
  (∀ a w', frame_post sdb w' (f a w')) →
  frame_post sdb w ((m ≫= f) w).
Proof.
  intros Hm Hf. rewrite bind_run.
  destruct (Hf (m w).1 (m w).2) as [H1 H2]. split; [done|].
  rewrite H2. destruct (frame_obs2_eq _ _ _ (Hm w)) as [-> ->]. reflexivity.
Qed.

Ltac frame_post_block :=
  repeat
    (match goal with
     | |- frame_post _ _ ((_ ≫= _) _) =>
         apply frame_post_bind; [solve [solve_pres] | intros ? ?]
     end);
  apply SWAP_BUFFERS_view.

Lemma draw_motion_blur_view (sdb : bool) (w : World) :
  frame_post sdb w (draw_motion_blur sdb w).
Proof. unfold draw_motion_blur. frame_post_block. Qed.

Lemma draw_dof_view (sdb : bool) (w : World) :
  frame_post sdb w (draw_dof sdb w).
Proof. unfold draw_dof. frame_post_block. Qed.

Lemma draw_bloom_view (sdb : bool) (w : World) :
  frame_post sdb w (draw_bloom sdb w).
Proof. unfold draw_bloom. frame_post_block. Qed.

Lemma view_mask_block (b : bool) (st : bool * frame_view) :
  view_mask (view_block b st).2 = view_mask st.2.
Proof.
  destruct b; [|reflexivity]. destruct st as [sdb o]. cbn.
  destruct o as [[[[[[[[[n main] dbl] c] cdb] p] s] e] v] r].
  destruct sdb; reflexivity.
Qed.

Lemma view_step_pres {A B} (m : M A) (f : A → M B)
    (G : B * World → Prop) st d (sdb : bool) (w : World) :
  pres frame_obs2 m →
  frame_inv st d sdb w →
  (∀ a w', frame_inv st d sdb w' → G (f a w')) →
  G ((m ≫= f) w).
Proof.
  intros Hm [Hst Hd] Hf. rewrite bind_run. apply Hf.
  destruct (frame_obs2_eq _ _ _ (Hm w)) as [Ho Hdis].
  split; [rewrite Ho; exact Hst | rewrite Hdis; exact Hd].
Qed.

Lemma view_step_block {B} (b : bool) (blk : bool → M bool) (f : bool → M B)
    (G : B * World → Prop) st d (sdb : bool) (w : World) :
  (∀ sdb w, frame_post sdb w (blk sdb w)) →
  frame_inv st d sdb w →
  (∀ sdb' w', frame_inv (view_block b st) d sdb' w' → G (f sdb' w')) →
  G (((if b then blk sdb else mret sdb) ≫= f) w).
Proof.
  intros Hblk [Hst Hd] Hf. rewrite bind_run. apply Hf.
  destruct b; [|split; [exact Hst | exact Hd]].
  destruct (Hblk sdb w) as [H1 H2].
  destruct (frame_obs2_eq _ _ _ H2) as [Ho Hdis]. subst st.
  split; [|rewrite Hdis; exact Hd].
  rewrite H1, Ho. reflexivity.
Qed.

Lemma view_step_mask {B} (f : Z → M B)
    (G : B * World → Prop) st d (sdb : bool) (w : World) :
  frame_inv st d sdb w →
  (frame_inv st d sdb w → G (f (view_mask st.2) w)) →
  G ((gets enabled_effects ≫= f) w).
Proof.
  intros Hinv Hf. rewrite run_gets.
  destruct Hinv as [Hst Hd]. subst st. cbn [snd] in Hf.
  unfold frame_obs, view_mask in Hf. apply Hf. split; [reflexivity | exact Hd].
Qed.

Lemma view_step_source {B} (f : option GPUTexture → M B)
    (G : B * World → Prop) st d (sdb : bool) (w : World) :
  frame_inv st d sdb w →
  (frame_inv st d sdb w → G (f (view_source st.2) w)) →
  G ((get_tex EFX_source_buffer ≫= f) w).
Proof.
  intros Hinv Hf. rewrite run_get_tex.
  destruct Hinv as [Hst Hd]. subst st. cbn [snd] in Hf.
  unfold frame_obs, view_source in Hf. apply Hf. split; [reflexivity | exact Hd].
Qed.

Lemma view_step_display {B} (t : option GPUTexture) (f : unit → M B)
    (G : B * World → Prop) st d (sdb : bool) (w : World) :
  frame_inv st d sdb w →
  (∀ w', frame_inv st (d ++ [t]) sdb w' → G (f tt w')) →
  G ((DRW_transform_to_display t ≫= f) w).
Proof.
  intros [Hst Hd] Hf. rewrite run_display. apply Hf.
  destruct w as [tex0 fb0 e0 ct0 rc0 full0 valid0 v0 layer0 psl0 id0 trace0].
  split.
  - rewrite <- Hst. unfold frame_obs; state_simpl.
    rewrite swap_count_app, redraw_requests_app. cbn.
    rewrite app_nil_r, Nat.add_0_r. reflexivity.
  - state_simpl. state_simpl in Hd. rewrite displayed_app, Hd. reflexivity.
Qed.

Lemma view_step_debug {B} (debug_value : Z) (f : unit → M B)
    (G : B * World → Prop) st d (sdb : bool) (w : World) :
  frame_inv st d sdb w →
  (∀ w' debug_views,
     frame_inv st (d ++ debug_views) sdb w' →
     (¬ (0 < debug_value ≤ 5) → debug_views = []) → G (f tt w')) →
  G ((draw_debug debug_value ≫= f) w).
Proof.
  intros [Hst Hd] Hf. rewrite bind_run.
  destruct (draw_debug_displayed debug_value w) as (debug_views & Hdv & Hnil).
  assert (Hp : pres frame_obs (draw_debug debug_value))
    by (apply pres_draw_debug; intros; pres_side).
  specialize (Hp w).
  destruct (draw_debug debug_value w) as [[] w']. cbn [fst snd] in *.
  apply (Hf w' debug_views); [|exact Hnil].
  split; [rewrite <- Hst, Hp; reflexivity | rewrite Hdv, Hd; reflexivity].
Qed.

Lemma view_step_final {B} (f : bool → M B)
    (G : B * World → Prop) st d (sdb : bool) (w : World) :
  frame_inv st d sdb w →
  (∀ sdb' w',
     frame_obs w' = (if st.1 then view_exchange st.2 else st.2) →
     displayed (trace w') = d → G (f sdb' w')) →
  G ((SWAP_DOUBLE_BUFFERS sdb ≫= f) w).
Proof.
  intros [Hst Hd] Hf. rewrite bind_run. apply Hf; subst st; cbn [fst snd].
  - destruct w as [tex0 fb0 e0 ct0 rc0 full0 valid0 v0 layer0 psl0 id0 trace0].
    destruct sdb; unfold SWAP_DOUBLE_BUFFERS; [|reflexivity].
    repeat step. unfold mret, M_ret; cbn [snd].
    unfold frame_obs, view_exchange; state_simpl.
    rewrite ?fn_lookup_insert; rewrite ?fn_lookup_insert_ne by discriminate;
      rewrite ?fn_lookup_insert.
    rewrite swap_count_app, redraw_requests_app. cbn.
    rewrite app_nil_r, Nat.add_1_r. reflexivity.
  - rewrite <- Hd.
    assert (Hp : pres (λ w, displayed (trace w)) (SWAP_DOUBLE_BUFFERS sdb))
      by (unfold SWAP_DOUBLE_BUFFERS; solve_pres).
    apply Hp.
Qed.

(** The frame seen through [frame_obs]: what [EEVEE_draw_effects]
    leaves is [view_at_end] of what it started from, and the first texture
    it sends to the display is the source after the three blocks. *)
Lemma draw_effects_view (debug_value : Z) (is_image_render : bool) (w : World) :
  let w' := exec (EEVEE_draw_effects debug_value is_image_render) w in
  ∃ debug_views,
    frame_obs w' = view_at_end is_image_render w ∧
    displayed (trace w') =
      displayed (trace w) ++
      view_source (view_after_blocks w).2 :: debug_views ∧
    (¬ (0 < debug_value ≤ 5) → debug_views = []).
Proof.
  intros w'. subst w'. unfold exec, EEVEE_draw_effects.
  destruct w as [tex0 fb0 e0 ct0 rc0 full0 valid0 v0 layer0 psl0 id0 trace0].
  do 7 step.
  set (W := {| tex := tex0; fb := fb0; enabled_effects := e0;
               bloom_iteration_ct := ct0; ssr_ray_count := rc0;
               reflection_trace_full := full0; valid_double_buffer := valid0;
               volumetrics := v0; depth_src_layer := layer0; psl := psl0;
               next_id := id0; trace := trace0 |}).
  set (st0 := (bool_decide (Z.land e0 EFFECT_DOUBLE_BUFFER ≠ 0),
               (swap_count trace0, fb0 FBL_main, fb0 FBL_double_buffer,
                tex0 TXL_color, tex0 TXL_color_double_buffer,
                tex0 TXL_color_post, tex0 TXL_color, e0, valid0,
                redraw_requests trace0)) : bool * frame_view).
  set (G := λ r : unit * World,
    ∃ debug_views,
      frame_obs r.2 = view_at_end is_image_render W ∧
      displayed (trace r.2) =
        displayed (trace W) ++
        view_source (view_after_blocks W).2 :: debug_views ∧
      (¬ (0 < debug_value ≤ 5) → debug_views = [])).
  match goal with |- ∃ _, frame_obs (?r).2 = _ ∧ _ => change (G r) end.
  match goal with
  | |- G ((_ ≫= _) ?w0) =>
      assert (Hinv : frame_inv st0 (displayed trace0)
                       (bool_decide (Z.land e0 EFFECT_DOUBLE_BUFFER ≠ 0)) w0)
  end.
  { split; [|state_simpl; rewrite displayed_app; cbn; apply app_nil_r].
    subst st0. f_equal. unfold frame_obs; state_simpl.
    rewrite fn_lookup_insert. rewrite !fn_lookup_insert_ne by discriminate.
    rewrite swap_count_app, redraw_requests_app. cbn.
    rewrite app_nil_r, Nat.add_0_r. reflexivity. }
  eapply view_step_mask; [exact Hinv | clear Hinv; intros Hinv].
  eapply view_step_block;
    [apply draw_motion_blur_view | exact Hinv | clear Hinv; intros ? ? Hinv; cbv beta].
  eapply view_step_mask; [exact Hinv | clear Hinv; intros Hinv].
  eapply view_step_block;
    [apply draw_dof_view | exact Hinv | clear Hinv; intros ? ? Hinv; cbv beta].
  eapply view_step_mask; [exact Hinv | clear Hinv; intros Hinv].
  eapply view_step_block;
    [apply draw_bloom_view | exact Hinv | clear Hinv; intros ? ? Hinv; cbv beta].
  do 4 (eapply view_step_pres;
    [solve [solve_pres] | exact Hinv | clear Hinv; intros ? ? Hinv; cbv beta]).
  eapply view_step_source; [exact Hinv | clear Hinv; intros Hinv].
  eapply view_step_display; [exact Hinv | clear Hinv; intros ? Hinv].
  eapply view_step_debug;
    [exact Hinv | clear Hinv; intros ? debug_views Hinv Hnil].
  eapply view_step_final; [exact Hinv | clear Hinv; intros ? w5 Hobs Hdis].
  rewrite !view_mask_block in *. subst st0. cbn [snd view_mask] in *.
  set (st := view_block _ (view_block _ (view_block _ _))) in *.
  assert (Hst : view_after_blocks W = st) by reflexivity.
  subst G. cbv beta. exists debug_views.
  unfold view_at_end. rewrite Hst.
  destruct w5 as [tex5 fb5 e5 ct5 rc5 full5 valid5 v5 layer5 psl5 id5 trace5].
  unfold frame_obs in Hobs. state_simpl in Hobs. state_simpl in Hdis.
  destruct (if st.1 then view_exchange st.2 else st.2)
    as [[[[[[[[[n main] dbl] c] cdb] p] s] e] v] r] eqn:HX.
  injection Hobs as Hn Hmain Hdbl Hc Hcdb Hp Hs He Hv Hr.
  subst e5 valid5.
  do 2 step.
  split; [|split; [|exact Hnil]].
  - destruct (negb v && bool_decide (Z.land e EFFECT_DOUBLE_BUFFER ≠ 0)
              && negb is_image_render); cbn [when];
      destruct is_image_render; cbn [when];
      unfold DRW_viewport_request_redraw;
      repeat step; unfold mret, M_ret, emit, modify; cbn [snd];
      unfold frame_obs; state_simpl;
      rewrite ?swap_count_app, ?redraw_requests_app; cbn;
      rewrite ?app_nil_r, ?Nat.add_0_r;
      rewrite Hn, Hmain, Hdbl, Hc, Hcdb, Hp, Hs, Hr; reflexivity.
  - match goal with
    | |- displayed (trace (?m ?w0).2) = _ =>
        assert (Hm : pres (λ w, displayed (trace w)) m) by solve_pres;
        rewrite (Hm w0)
    end.
    state_simpl. rewrite Hdis, <- app_assoc. reflexivity.
Qed.

(** The view at the end of a frame that starts in a given record, by
    cases on the four bits that matter. *)
Ltac frame_cases Hobs :=
  unfold view_at_end, view_after_blocks, frame_obs in Hobs;
  state_simpl in Hobs;
  repeat match type of Hobs with
  | context [bool_decide (Z.land ?e (EFFECT ?x) ≠ 0)] =>
      let Hx := fresh "Hbit" in
      destruct (bool_decide (Z.land e (EFFECT x) ≠ 0)) eqn:Hx
  end;
  cbn [view_block view_swap_buffers view_exchange fst snd negb andb] in Hobs.

(** X4.  [EEVEE_draw_effects] asks the viewport for another frame
    exactly when the colour history is not valid, double buffering is on
    and the frame is not an image render; it asks at most once, and in
    every other case not at all. *)
Theorem draw_effects_requests_redraw
    (debug_value : Z) (is_image_render : bool) (w : World) :
  let w' := exec (EEVEE_draw_effects debug_value is_image_render) w in
  redraw_requests (trace w') =
    redraw_requests (trace w) ++
    (if negb (valid_double_buffer w)
        && bool_decide (Z.land (enabled_effects w) EFFECT_DOUBLE_BUFFER ≠ 0)
        && negb is_image_render
     then [tt] else []).
Proof.
  intros w'. subst w'.
  destruct (draw_effects_view debug_value is_image_render w)
    as (debug_views & Hobs & _ & _).
  cbv zeta in Hobs.
  apply (f_equal snd) in Hobs. unfold frame_obs at 1 in Hobs.
  cbn [snd] in Hobs. rewrite Hobs. clear Hobs.
  destruct w as [tex0 fb0 e0 ct0 rc0 full0 valid0 v0 layer0 psl0 id0 trace0].
  unfold view_at_end, view_after_blocks, frame_obs. state_simpl.
  destruct (bool_decide (Z.land e0 EFFECT_MOTION_BLUR ≠ 0)),
    (bool_decide (Z.land e0 EFFECT_DOF ≠ 0)),
    (bool_decide (Z.land e0 EFFECT_BLOOM ≠ 0)),
    (bool_decide (Z.land e0 EFFECT_DOUBLE_BUFFER ≠ 0)) eqn:Hdb;
    cbn [view_block view_swap_buffers view_exchange fst snd];
    rewrite ?Hdb; reflexivity.
Qed.

(** X5.  [EEVEE_draw_effects] touches [valid_double_buffer] only in an
    image render, where it records whether the history colour texture
    exists at the end of the frame; with double buffering on, that
    texture is the one that was txl->color when the frame began, the
    exchange having been made.  In the viewport the flag is left as it
    was. *)
Theorem draw_effects_history_validity
    (debug_value : Z) (is_image_render : bool) (w : World) :
  let w' := exec (EEVEE_draw_effects debug_value is_image_render) w in
  valid_double_buffer w' =
    if is_image_render then
      bool_decide
        ((if bool_decide (Z.land (enabled_effects w) EFFECT_DOUBLE_BUFFER ≠ 0)
          then tex w TXL_color else tex w TXL_color_double_buffer) ≠ None)
    else valid_double_buffer w.
Proof.
  intros w'. subst w'.
  destruct (draw_effects_view debug_value is_image_render w)
    as (debug_views & Hobs & _ & _).
  cbv zeta in Hobs.
  apply (f_equal (λ o : frame_view, o.1.2)) in Hobs.
  unfold frame_obs at 1 in Hobs. cbn [fst snd] in Hobs.
  rewrite Hobs. clear Hobs.
  destruct w as [tex0 fb0 e0 ct0 rc0 full0 valid0 v0 layer0 psl0 id0 trace0].
  unfold view_at_end, view_after_blocks, frame_obs. state_simpl.
  destruct (bool_decide (Z.land e0 EFFECT_MOTION_BLUR ≠ 0)),
    (bool_decide (Z.land e0 EFFECT_DOF ≠ 0)),
    (bool_decide (Z.land e0 EFFECT_BLOOM ≠ 0)),
    (bool_decide (Z.land e0 EFFECT_DOUBLE_BUFFER ≠ 0));
    reflexivity.
Qed.

(** X6.  Without EFFECT_DOUBLE_BUFFER in the mask, a frame never
    exchanges the main and history targets, whatever post-effects run:
    the trace gains no exchange, and fbl->main, fbl->double_buffer,
    txl->color and txl->color_double_buffer are at the end what they were
    at the start. *)
Theorem draw_effects_no_exchange_without_double_buffer
    (debug_value : Z) (is_image_render : bool) (w : World) :
  Z.land (enabled_effects w) EFFECT_DOUBLE_BUFFER = 0 →
  let w' := exec (EEVEE_draw_effects debug_value is_image_render) w in
  swap_count (trace w') = swap_count (trace w) ∧
  fb w' FBL_main = fb w FBL_main ∧
  fb w' FBL_double_buffer = fb w FBL_double_buffer ∧
  tex w' TXL_color = tex w TXL_color ∧
  tex w' TXL_color_double_buffer = tex w TXL_color_double_buffer.
Proof.
  intros Hdb w'. subst w'.
  destruct (draw_effects_view debug_value is_image_render w)
    as (debug_views & Hobs & _ & _).
  cbv zeta in Hobs.
  apply (f_equal (λ o : frame_view,
           (o.1.1.1.1.1.1.1.1.1, o.1.1.1.1.1.1.1.1.2, o.1.1.1.1.1.1.1.2,
            o.1.1.1.1.1.1.2, o.1.1.1.1.1.2))) in Hobs.
  unfold frame_obs at 1 in Hobs. cbn [fst snd] in Hobs.
  destruct w as [tex0 fb0 e0 ct0 rc0 full0 valid0 v0 layer0 psl0 id0 trace0].
  cbn in Hdb.
  unfold view_at_end, view_after_blocks, frame_obs in Hobs. state_simpl in Hobs.
  rewrite (bool_decide_eq_false_2 (Z.land e0 EFFECT_DOUBLE_BUFFER ≠ 0)) in Hobs
    by (intros Hn; congruence).
  destruct (bool_decide (Z.land e0 EFFECT_MOTION_BLUR ≠ 0)),
    (bool_decide (Z.land e0 EFFECT_DOF ≠ 0)),
    (bool_decide (Z.land e0 EFFECT_BLOOM ≠ 0));
    cbn [view_block view_swap_buffers view_exchange fst snd] in Hobs;
    injection Hobs as -> -> -> -> ->; state_simpl; done.
Qed.

(** X7.  The texture that [EEVEE_draw_effects] sends to the tonemap
    stage, when the ping-pong texture txl->color_post is a texture of its
    own (neither txl->color nor the history colour): with no post-effect
    it is txl->color; after one or three post-effects it is
    txl->color_post; after two it is txl->color as it is then, which with
    double buffering is the texture that was the history colour when the
    frame began.  Nothing else is displayed unless [G.debug_value] is
    between 1 and 5. *)
Theorem draw_effects_displays_last_output
    (debug_value : Z) (is_image_render : bool) (w : World) :
  tex w TXL_color_post ≠ tex w TXL_color →
  tex w TXL_color_post ≠ tex w TXL_color_double_buffer →
  let w' := exec (EEVEE_draw_effects debug_value is_image_render) w in
  let on x := bool_decide (Z.land (enabled_effects w) (EFFECT x) ≠ 0) in
  let effects := length (filter (λ b, b = true) [on MOTION_BLUR; on DOF; on BLOOM]) in
  let output :=
    match effects with
    | O => tex w TXL_color
    | 2%nat =>
        if on DOUBLE_BUFFER then tex w TXL_color_double_buffer
        else tex w TXL_color
    | _ => tex w TXL_color_post
    end in
  ∃ debug_views,
    displayed (trace w') = displayed (trace w) ++ output :: debug_views ∧
    (¬ (0 < debug_value ≤ 5) → debug_views = []).
Proof.
  intros Hpc Hpd w' on effects output. subst w'.
  destruct (draw_effects_view debug_value is_image_render w)
    as (debug_views & _ & Hdis & Hnil).
  cbv zeta in Hdis. exists debug_views. split; [|exact Hnil].
  rewrite Hdis. clear Hdis. do 2 f_equal.
  subst output effects on.
  destruct w as [tex0 fb0 e0 ct0 rc0 full0 valid0 v0 layer0 psl0 id0 trace0].
  cbn in Hpc, Hpd.
  unfold view_after_blocks, frame_obs. state_simpl.
  destruct (bool_decide (Z.land e0 EFFECT_MOTION_BLUR ≠ 0)),
    (bool_decide (Z.land e0 EFFECT_DOF ≠ 0)),
    (bool_decide (Z.land e0 EFFECT_BLOOM ≠ 0)),
    (bool_decide (Z.land e0 EFFECT_DOUBLE_BUFFER ≠ 0));
    cbn [view_block view_swap_buffers view_exchange view_source fst snd
         filter list_filter length];
    repeat (first
      [ rewrite (bool_decide_eq_true_2 (tex0 TXL_color = tex0 TXL_color)) by done
      | rewrite (bool_decide_eq_true_2
                   (tex0 TXL_color_double_buffer = tex0 TXL_color_double_buffer))
          by done
      | rewrite (bool_decide_eq_false_2 (tex0 TXL_color_post = tex0 TXL_color))
          by done
      | rewrite (bool_decide_eq_false_2
                   (tex0 TXL_color_post = tex0 TXL_color_double_buffer)) by done ]);
    cbn; reflexivity.
Qed.

End frame_proofs.

(** ** The passes of a frame, in order *)

Lemma for_fold_draws {A S} (l : list A) (s : S) (body : A → S → M S) (p : pass) :
  (∀ i s w, schedule_obs (body i s w).2 =
            (drawn (trace w) ++ [p], enabled_effects w, bloom_iteration_ct w)) →
  ∀ w, schedule_obs (for_fold l s body w).2 =
       (drawn (trace w) ++ replicate (length l) p,
        enabled_effects w, bloom_iteration_ct w).
Proof.
  intros Hbody. revert s. induction l as [|i l IH]; intros s w.
  - cbn. rewrite app_nil_r. reflexivity.
  - cbn [for_fold length replicate]. rewrite bind_run, IH.
    specialize (Hbody i s w). unfold schedule_obs in Hbody.
    injection Hbody as -> -> ->.
    rewrite <- app_assoc. reflexivity.
Qed.

Section schedule_proofs.
Context `{EEVEE_private}.

Lemma pres_SWAP_BUFFERS_schedule (sdb : bool) :
  pres schedule_obs (SWAP_BUFFERS sdb).
Proof. unfold SWAP_BUFFERS, SWAP_DOUBLE_BUFFERS. solve_pres. Qed.

Lemma draw_motion_blur_schedule (sdb : bool) (w : World) :
  schedule_obs (draw_motion_blur sdb w).2 =
  (drawn (trace w) ++ [PSL_motion_blur],
   enabled_effects w, bloom_iteration_ct w).
Proof.
  destruct w as [tex0 fb0 e0 ct0 rc0 full0 valid0 v0 layer0 psl0 id0 trace0].
  unfold draw_motion_blur. do 3 step.
  rewrite pres_SWAP_BUFFERS_schedule. unfold schedule_obs; state_simpl.
  rewrite !drawn_app. cbn. rewrite app_nil_r. reflexivity.
Qed.

Lemma draw_dof_schedule (sdb : bool) (w : World) :
  schedule_obs (draw_dof sdb w).2 =
  (drawn (trace w) ++ dof_schedule, enabled_effects w, bloom_iteration_ct w).
Proof.
  destruct w as [tex0 fb0 e0 ct0 rc0 full0 valid0 v0 layer0 psl0 id0 trace0].
  unfold draw_dof. do 10 step.
  destruct (bool_decide (Z.land e0 EFFECT_BLOOM ≠ 0)); do 9 step;
    rewrite pres_SWAP_BUFFERS_schedule; unfold schedule_obs; state_simpl;
    rewrite !drawn_app; cbn; rewrite ?app_nil_r, <- ?app_assoc; reflexivity.
Qed.

Lemma draw_bloom_schedule (sdb : bool) (w : World) :
  schedule_obs (draw_bloom sdb w).2 =
  (drawn (trace w) ++ bloom_schedule (bloom_iteration_ct w),
   enabled_effects w, bloom_iteration_ct w).
Proof.
  destruct w as [tex0 fb0 e0 ct0 rc0 full0 valid0 v0 layer0 psl0 id0 trace0].
  unfold draw_bloom. do 12 step.
  match goal with
  | |- context [for_fold ?l ?s ?body] =>
      run_by (for_fold_draws l s body PSL_bloom_downsample
        ltac:(intros i s' [tex1 fb1 e1 ct1 rc1 full1 valid1 v1 layer1 psl1 id1 trace1];
              do 4 step; unfold get_tex, gets; cbn [snd];
              unfold schedule_obs; state_simpl;
              rewrite !drawn_app; cbn; rewrite app_nil_r; reflexivity))
  end.
  unfold schedule_obs in Hp. state_simpl in Hp.
  injection Hp as Hd1 -> ->.
  match goal with
  | |- context [for_fold ?l ?s ?body] =>
      run_by (for_fold_draws l s body PSL_bloom_upsample
        ltac:(intros i s' [tex1 fb1 e1 ct1 rc1 full1 valid1 v1 layer1 psl1 id1 trace1];
              do 6 step; unfold get_tex, gets; cbn [snd];
              unfold schedule_obs; state_simpl;
              rewrite !drawn_app; cbn; rewrite app_nil_r; reflexivity))
  end.
  unfold schedule_obs in Hp. state_simpl in Hp.
  injection Hp as Hd2 -> ->.
  do 6 step.
  rewrite pres_SWAP_BUFFERS_schedule. unfold schedule_obs; state_simpl.
  rewrite !drawn_app, Hd2, Hd1, !drawn_app. cbn. rewrite ?app_nil_r.
  unfold bloom_schedule.
  rewrite length_reverse, !length_seqZ.
  rewrite <- !app_assoc. reflexivity.
Qed.

(** X8.  The passes [EEVEE_draw_effects] draws, in order: the motion
    blur pass; then the four draws of depth of field (downsample, the
    scatter pass twice, resolve); then bloom: blit, first downsample,
    bloom_iteration_ct - 1 further downsamples, as many upsamples, and
    the resolve; each group only when its bit is set.  So bloom draws
    2 * bloom_iteration_ct + 1 passes when the count is at least 1. *)
Theorem draw_effects_schedule
    (debug_value : Z) (is_image_render : bool) (w : World) :
  let w' := exec (EEVEE_draw_effects debug_value is_image_render) w in
  let on x := bool_decide (Z.land (enabled_effects w) (EFFECT x) ≠ 0) in
  drawn (trace w') =
    drawn (trace w) ++
    (if on MOTION_BLUR then [PSL_motion_blur] else []) ++
    (if on DOF then dof_schedule else []) ++
    (if on BLOOM then bloom_schedule (bloom_iteration_ct w) else []) ∧
  (1 ≤ bloom_iteration_ct w →
   length (bloom_schedule (bloom_iteration_ct w)) =
   Z.to_nat (2 * bloom_iteration_ct w + 1)).
Proof.
  intros w' on. subst w' on. split.
  - unfold exec, EEVEE_draw_effects.
    destruct w as [tex0 fb0 e0 ct0 rc0 full0 valid0 v0 layer0 psl0 id0 trace0].
    do 8 step.
    assert (Hstart : ∀ t, drawn (t ++ [Ev_framebuffer_texture_detach (tex0 DTXL_depth)]) = drawn t)
      by (intros t; rewrite drawn_app; cbn; apply app_nil_r).
    destruct (bool_decide (Z.land e0 EFFECT_MOTION_BLUR ≠ 0));
      [run_by (draw_motion_blur_schedule
                 (bool_decide (Z.land e0 EFFECT_DOUBLE_BUFFER ≠ 0)));
       unfold schedule_obs in Hp; state_simpl in Hp;
       injection Hp as Hd1 -> ->
      | step; pose proof (eq_refl (drawn trace0)) as Hd1 ];
    step;
    (destruct (bool_decide (Z.land e0 EFFECT_DOF ≠ 0));
      [ match goal with
        | |- context [draw_dof ?sdb] => run_by (draw_dof_schedule sdb)
        end;
        unfold schedule_obs in Hp; state_simpl in Hp;
        injection Hp as Hd2 -> ->
      | step; pose proof I as Hd2 ]);
    step;
    (destruct (bool_decide (Z.land e0 EFFECT_BLOOM ≠ 0));
      [ match goal with
        | |- context [draw_bloom ?sdb] => run_by (draw_bloom_schedule sdb)
        end;
        unfold schedule_obs in Hp; state_simpl in Hp;
        injection Hp as Hd3 Hct ->
      | step; pose proof I as Hd3 ]);
    match goal with
    | |- drawn (trace (?m ?w0).2) = _ =>
        assert (Hm : pres (λ w, drawn (trace w)) m)
          by (unfold SWAP_DOUBLE_BUFFERS; solve_pres);
        rewrite (Hm w0); clear Hm
    end;
    state_simpl;
    rewrite ?Hd3, ?Hd2, ?Hd1, ?Hstart, ?app_nil_r, <- ?app_assoc;
    try reflexivity.
  - intros Hct. unfold bloom_schedule.
    rewrite !length_app, !length_replicate. cbn. lia.
Qed.

End schedule_proofs.

(** ** The mask that the init builds *)

Section init_mask_proofs.
Context `{EEVEE_private}.

Lemma init_mask_testbit (inp : FrameInput) (x : effect) :
  Z.testbit (init_mask inp) (effect_bit x) = init_enables inp x.
Proof.
  unfold init_mask. cbn [foldl]. destruct x;
  repeat match goal with
  | |- context [if init_enables inp ?y then _ else _] =>
      destruct (init_enables inp y)
  end;
  rewrite ?effect_test_lor, ?effect_test_0;
  repeat (rewrite bool_decide_eq_false_2 by discriminate);
  repeat (rewrite bool_decide_eq_true_2 by reflexivity);
  reflexivity.
Qed.

Lemma pres_init_dof {X} (obs : World → X) (inp : FrameInput) (enabled : Z) :
  (∀ s v w, s ≠ TXL_ssr_normal_input → s ≠ TXL_ssr_specrough_input →
            s ≠ TXL_color_double_buffer →
            obs (set_tex s v w) = obs w) →
  (∀ s v w, obs (set_fb s v w) = obs w) →
  (∀ v w, obs (set_next_id v w) = obs w) →
  (∀ s f x y l n w, obs (log (Ev_framebuffer_init s f x y l n) w) = obs w) →
  (∀ f w, obs (log (Ev_framebuffer_free f) w) = obs w) →
  pres obs (init_dof inp enabled).
Proof.
  intros Htex Hfb Hid Hinit Hfree. unfold init_dof.
  apply pres_bind; [apply pres_gets | intros last_enabled].
  assert (Hfbinit : ∀ s x y l n,
    Forall (λ t, fbo_tex t ≠ TXL_ssr_normal_input ∧
                 fbo_tex t ≠ TXL_ssr_specrough_input ∧
                 fbo_tex t ≠ TXL_color_double_buffer) l →
    pres obs (DRW_framebuffer_init s x y l n)).
  { intros s x y l n Hl. unfold DRW_framebuffer_init.
    apply pres_bind; [apply pres_gets | intros cur].
    apply pres_bind; [apply pres_modify; intros w; apply Hinit | intros _].
    apply pres_bind.
    - apply pres_when. unfold fresh_id.
      apply pres_bind; [|intros id; apply pres_modify; intros w; apply Hfb].
      apply pres_bind; [apply pres_gets | intros id].
      apply pres_bind; [apply pres_modify; intros w; apply Hid | intros _].
      apply pres_ret.
    - intros _. apply Forall_take with (n := Z.to_nat n) in Hl.
      induction Hl as [|t l' Ht Hl' IH]; cbn [for_each]; [apply pres_ret|].
      apply pres_bind; [|intros _; exact IH].
      unfold fbo_texture_init.
      apply pres_bind; [apply pres_gets | intros c].
      apply pres_if; [|apply pres_ret].
      unfold fresh_id.
      apply pres_bind;
        [|intros id; apply pres_modify; intros w; apply Htex; apply Ht].
      apply pres_bind; [apply pres_gets | intros id].
      apply pres_bind; [apply pres_modify; intros w; apply Hid | intros _].
      apply pres_ret. }
  destruct (if bool_decide (Z.land enabled EFFECT_BLOOM ≠ 0) then _ else _)
    as [dof_down_near fb_reset] eqn:Hnear.
  assert (Hslot : dof_down_near = TXL_bloom_downsample 0 ∨
                  dof_down_near = TXL_dof_down_near).
  { repeat match type of Hnear with
    | context [if ?b then _ else _] => destruct b
    end; injection Hnear as <- _; auto. }
  apply pres_bind; [apply pres_gets | intros dof_down_fb].
  apply pres_bind.
  { destruct dof_down_fb; [|apply pres_ret]. apply pres_when.
    apply pres_bind; [apply pres_modify; intros w; apply Hfree | intros _].
    apply pres_modify; intros w; apply Hfb. }
  intros _.
  apply pres_bind; [|intros _; apply pres_bind; [|intros _; apply pres_bind; [|intros _; apply pres_ret]]];
    apply Hfbinit; repeat constructor; cbn; try discriminate;
    destruct Hslot as [-> | ->]; discriminate.
Qed.

Lemma pres_init_bloom_pre (inp : FrameInput) (enabled : Z) :
  pres init_pre_obs (init_bloom inp enabled).
Proof. unfold init_bloom. solve_pres. Qed.

Lemma run_texture_free {B} (s : tex_slot) (f : unit → M B) (w : World) :
  (DRW_TEXTURE_FREE_SAFE s ≫= f) w =
  f tt (match tex w s with
        | Some t => set_tex s None (log (Ev_texture_free t) w)
        | None => w
        end).
Proof.
  unfold DRW_TEXTURE_FREE_SAFE. rewrite run_assoc, run_get_tex.
  destruct (tex w s); [|reflexivity].
  rewrite run_assoc, run_emit. reflexivity.
Qed.

Lemma run_framebuffer_free {B} (s : fb_slot) (f : unit → M B) (w : World) :
  (DRW_FRAMEBUFFER_FREE_SAFE s ≫= f) w =
  f tt (match fb w s with
        | Some x => set_fb s None (log (Ev_framebuffer_free x) w)
        | None => w
        end).
Proof.
  unfold DRW_FRAMEBUFFER_FREE_SAFE. rewrite run_assoc, run_get_fb.
  destruct (fb w s); [|reflexivity].
  rewrite run_assoc, run_emit. reflexivity.
Qed.

(** The init seen through the mask, the volumetric structure and the
    textures it frees. *)
Lemma init_mask_obs (inp : FrameInput) (w : World) :
  let w' := exec (EEVEE_effects_init inp) w in
  let ssr := get_bool inp "ssr_enable"%string in
  mask_obs3 w' =
    (init_mask inp,
     (if init_enables inp VOLUMETRIC
      then Some (get_bool inp "volumetric_colored_transmittance"%string)
      else volumetrics w),
     freed_textures (trace w) ++
     (if ssr then []
      else option_list (tex w TXL_ssr_normal_input) ++
           option_list (tex w TXL_ssr_specrough_input) ++
           option_list (tex w TXL_color_double_buffer))) ∧
  (ssr = false →
   tex w' TXL_ssr_normal_input = None ∧
   tex w' TXL_ssr_specrough_input = None ∧
   tex w' TXL_color_double_buffer = None ∧
   fb w' FBL_screen_tracing_fb = None ∧
   fb w' FBL_double_buffer = None ∧
   ∀ i, 0 ≤ i < 4 → tex w' (G_ssr_hit_output i) = None).
Proof.
  intros w' ssr. subst w' ssr. unfold exec, EEVEE_effects_init.
  set (e0 := if get_bool inp "motion_blur_enable" && evil_C inp then _ else _).
  (* the bloom block *)
  rewrite bind_run.
  set (m1 := if get_bool inp "bloom_enable" then init_bloom inp e0 else mret e0).
  assert (Hp1 : pres init_pre_obs m1)
    by (subst m1; destruct (get_bool inp "bloom_enable");
        [apply pres_init_bloom_pre | apply pres_ret]).
  assert (Hv1 : (m1 w).1 =
                if get_bool inp "bloom_enable"%string
                then Z.lor e0 EFFECT_BLOOM else e0).
  { subst m1. destruct (get_bool inp "bloom_enable");
      [apply init_bloom_returns | reflexivity]. }
  specialize (Hp1 w). rewrite Hv1. clear Hv1.
  set (w1 := (m1 w).2) in *. clearbody w1. clear m1.
  set (e1 := if get_bool inp "bloom_enable"%string then _ else e0).
  (* the depth-of-field block *)
  rewrite bind_run.
  set (m2 := if get_bool inp "dof_enable" then _ else _).
  assert (Hp2 : pres init_pre_obs m2).
  { subst m2. destruct (get_bool inp "dof_enable"); [|apply pres_ret].
    destruct (camera_view inp); [|apply pres_ret].
    apply pres_init_dof; intros; try pres_side.
    destruct w0. unfold init_pre_obs; state_simpl.
    rewrite !fn_lookup_insert_ne by done. reflexivity. }
  assert (Hv2 : (m2 w1).1 =
                if get_bool inp "dof_enable"%string && camera_view inp
                then Z.lor e1 EFFECT_DOF else e1).
  { subst m2. destruct (get_bool inp "dof_enable"), (camera_view inp);
      first [apply init_dof_returns | reflexivity]. }
  specialize (Hp2 w1). rewrite Hv2. clear Hv2. rewrite Hp1 in Hp2. clear Hp1.
  set (w2 := (m2 w1).2) in *. clearbody w2. clear m2 w1.
  set (e2 := if get_bool inp "dof_enable"%string && camera_view inp then _ else e1).
  destruct w as [tex0 fb0 e_first ct0 rc0 full0 valid0 v0 layer0 psl0 id0 trace0].
  destruct w2 as [tex2 fb2 e_prev ct2 rc2 full2 valid2 v2 layer2 psl2 id2 trace2].
  unfold init_pre_obs in Hp2. state_simpl in Hp2.
  injection Hp2 as -> Hfr Htn Hts Htc. state_simpl.
  do 2 step.
  skip_pres mask_obs ltac:(solve_pres).
  injection Hp as -> -> Hfr1 Htn1 Hts1 Htc1.
  rewrite Hfr in Hfr1. rewrite Htn in Htn1. rewrite Hts in Hts1.
  rewrite Htc in Htc1. clear Hfr Htn Hts Htc.
  skip_pres mask_obs ltac:(solve_pres).
  injection Hp as -> -> Hfr Htn Hts Htc.
  rewrite Hfr1 in Hfr. rewrite Htn1 in Htn. rewrite Hts1 in Hts.
  rewrite Htc1 in Htc. clear Hfr1 Htn1 Hts1 Htc1.
  step.
  skip_pres mask_obs ltac:(solve_pres).
  injection Hp as -> -> Hfr1 Htn1 Hts1 Htc1.
  rewrite Hfr in Hfr1. rewrite Htn in Htn1. rewrite Hts in Hts1.
  rewrite Htc in Htc1. clear Hfr Htn Hts Htc.
  assert (Hfinal : ∀ e v (w0 : World),
    mask_obs w0 =
      (e, v, freed_textures trace0, tex0 TXL_ssr_normal_input,
       tex0 TXL_ssr_specrough_input, tex0 TXL_color_double_buffer) →
    Z.testbit e (effect_bit DOUBLE_BUFFER) = false →
    let w' := ((init_ssr inp ≫= λ _, init_double_buffer inp) w0).2 in
    mask_obs3 w' =
      ((let e' := if get_bool inp "ssr_enable"%string
                  then Z.lor e EFFECT_SSR else e in
        if get_bool inp "ssr_enable"%string
        then Z.lor e' EFFECT_DOUBLE_BUFFER else e'),
       v,
       freed_textures trace0 ++
       (if get_bool inp "ssr_enable"%string then []
        else option_list (tex0 TXL_ssr_normal_input) ++
             option_list (tex0 TXL_ssr_specrough_input) ++
             option_list (tex0 TXL_color_double_buffer))) ∧
    (get_bool inp "ssr_enable"%string = false →
     tex w' TXL_ssr_normal_input = None ∧
     tex w' TXL_ssr_specrough_input = None ∧
     tex w' TXL_color_double_buffer = None ∧
     fb w' FBL_screen_tracing_fb = None ∧
     fb w' FBL_double_buffer = None ∧
     ∀ i, 0 ≤ i < 4 → tex w' (G_ssr_hit_output i) = None)).
  { intros e v w0 Hw0 Hdb. unfold init_ssr.
    destruct w0 as [tex3 fb3 e3 ct3 rc3 full3 valid3 v3 layer3 psl3 id3 trace3].
    unfold mask_obs in Hw0. state_simpl in Hw0.
    injection Hw0 as -> -> Hfr3 Htn3 Hts3 Htc3.
    destruct (get_bool inp "ssr_enable"); cbv zeta.
    - split; [|discriminate]. rewrite bind_run. cbv beta.
      match goal with
      | |- mask_obs3 (init_double_buffer inp (?m ?w0).2).2 = _ =>
          assert (Hssr : mask_obs3 (m w0).2 =
                    (Z.lor (Z.lor e EFFECT_SSR) EFFECT_DOUBLE_BUFFER, v,
                     freed_textures trace3));
          [|set (r := m w0) in *; clearbody r; destruct_run r]
      end.
      { do 4 step.
        match goal with
        | |- mask_obs3 (?m ?w0).2 = _ =>
            assert (Hm : pres mask_obs3 m) by solve_pres;
            rewrite (Hm w0)
        end.
        reflexivity. }
      unfold mask_obs3 in Hssr. state_simpl in Hssr.
      injection Hssr as -> -> Hfr4. state_simpl.
      unfold init_double_buffer. step.
      rewrite effect_test, effect_test_lor, bool_decide_eq_true_2, orb_true_r by done.
      match goal with
      | |- mask_obs3 (?m ?w0).2 = _ =>
          assert (Hm : pres mask_obs3 m) by solve_pres;
          rewrite (Hm w0)
      end.
      unfold mask_obs3; state_simpl. rewrite Hfr4, Hfr3, app_nil_r. reflexivity.
    - assert (Hhit : ∀ i, 0 ≤ i < 4 →
                i = 0 ∨ i = 1 ∨ i = 2 ∨ i = 3) by (intros; lia).
      unfold init_double_buffer, DRW_TEXTURE_FREE_SAFE, DRW_FRAMEBUFFER_FREE_SAFE.
      change (seqZ 0 4) with [0; 1; 2; 3]. cbn [for_each].
      destruct (tex3 TXL_ssr_normal_input) eqn:E1,
        (tex3 TXL_ssr_specrough_input) eqn:E2,
        (tex3 TXL_color_double_buffer) eqn:E3,
        (fb3 FBL_screen_tracing_fb) eqn:E4,
        (fb3 FBL_double_buffer) eqn:E5;
        repeat first
          [ step
          | progress rewrite ?E1, ?E2, ?E3, ?E4, ?E5
          | rewrite effect_test, Hdb
          | progress cbv beta iota ];
        unfold emit, put_fb, get_fb, put_tex, get_tex;
        unfold modify, gets, mret, M_ret, mbind, M_bind;
        cbn [fst snd]; state_simpl; rewrite ?E5; cbn [fst snd]; state_simpl;
        (split;
         [ unfold mask_obs3; state_simpl;
           rewrite ?freed_textures_app, Hfr3; cbn;
           rewrite ?app_nil_r, <- ?app_assoc;
           rewrite <- ?Htn3, <- ?Hts3, <- ?Htc3; cbn;
           rewrite ?app_nil_r; reflexivity
         | intros _;
           rewrite ?fn_lookup_insert; rewrite ?fn_lookup_insert_ne by discriminate;
           rewrite ?fn_lookup_insert;
           repeat (split; [first [reflexivity | assumption]|]);
           intros i Hi; destruct (Hhit i Hi) as [-> | [-> | [-> | ->]]];
           rewrite ?fn_lookup_insert; rewrite ?fn_lookup_insert_ne by discriminate;
           rewrite ?fn_lookup_insert; reflexivity ]). }
  assert (Hdb0 : Z.testbit e2 (effect_bit DOUBLE_BUFFER) = false).
  { subst e2 e1 e0.
    repeat match goal with
    | |- context [if ?b then _ else _] => destruct b
    end; rewrite ?effect_test_lor, ?effect_test_0;
    repeat (rewrite bool_decide_eq_false_2 by discriminate); reflexivity. }
  destruct (get_bool inp "volumetric_enable") eqn:Hvol;
    [destruct (world_nodetree inp) eqn:Hnode|]; cbn [when].
  - unfold init_volumetric. do 4 step.
    skip_pres mask_obs ltac:(unfold DRW_FRAMEBUFFER_FREE_SAFE; solve_pres).
    injection Hp as -> -> Hfr Htn Hts Htc.
    rewrite Hfr1 in Hfr. rewrite Htn1 in Htn. rewrite Hts1 in Hts.
    rewrite Htc1 in Htc.
    match goal with
    | |- context [(init_ssr inp ≫= _) ?w0] =>
        destruct (Hfinal (Z.lor e2 EFFECT_VOLUMETRIC)
                    (Some (get_bool inp "volumetric_colored_transmittance"%string))
                    w0) as [Ha Hb]
    end.
    { unfold mask_obs; state_simpl. rewrite Hfr, Htn, Hts, Htc. reflexivity. }
    { rewrite effect_test_lor, Hdb0.
      rewrite bool_decide_eq_false_2 by discriminate. reflexivity. }
    cbv zeta in Ha, Hb. split; [|exact Hb].
    rewrite Ha. unfold init_mask, init_enables. cbn [foldl]. rewrite Hvol, Hnode.
    subst e2 e1 e0. state_simpl.
    destruct (get_bool inp "motion_blur_enable"), (evil_C inp),
      (camera_view inp), (camera_not_keyed inp),
      (get_bool inp "bloom_enable"), (get_bool inp "dof_enable"),
      (get_bool inp "ssr_enable"); reflexivity.
  - step.
    match goal with
    | |- context [(init_ssr inp ≫= _) ?w0] =>
        destruct (Hfinal e2 v0 w0) as [Ha Hb]
    end.
    { unfold mask_obs; state_simpl. rewrite Hfr1, Htn1, Hts1, Htc1. reflexivity. }
    { exact Hdb0. }
    cbv zeta in Ha, Hb. split; [|exact Hb].
    rewrite Ha. unfold init_mask, init_enables. cbn [foldl]. rewrite Hvol, Hnode.
    subst e2 e1 e0. state_simpl.
    destruct (get_bool inp "motion_blur_enable"), (evil_C inp),
      (camera_view inp), (camera_not_keyed inp),
      (get_bool inp "bloom_enable"), (get_bool inp "dof_enable"),
      (get_bool inp "ssr_enable"); reflexivity.
  - step.
    match goal with
    | |- context [(init_ssr inp ≫= _) ?w0] =>
        destruct (Hfinal e2 v0 w0) as [Ha Hb]
    end.
    { unfold mask_obs; state_simpl. rewrite Hfr1, Htn1, Hts1, Htc1. reflexivity. }
    { exact Hdb0. }
    cbv zeta in Ha, Hb. split; [|exact Hb].
    rewrite Ha. unfold init_mask, init_enables. cbn [foldl]. rewrite Hvol.
    subst e2 e1 e0. state_simpl.
    destruct (get_bool inp "motion_blur_enable"), (evil_C inp),
      (camera_view inp), (camera_not_keyed inp),
      (get_bool inp "bloom_enable"), (get_bool inp "dof_enable"),
      (get_bool inp "ssr_enable"); reflexivity.
Qed.

(** X9.  The mask that [EEVEE_effects_init] leaves is built from the
    settings of the frame alone, whatever the mask of the frame before
    held: each effect's bit is set exactly under its condition (motion
    blur: enabled, with a context, through a camera that is not being
    keyed; bloom: enabled; depth of field: enabled, through a camera;
    volumetrics: enabled, in a world with a node tree; reflections:
    enabled), the double-buffer bit goes with the reflection bit, and no
    other bit is set. *)
Theorem init_mask_from_settings (inp : FrameInput) (w : World) :
  let w' := exec (EEVEE_effects_init inp) w in
  enabled_effects w' = init_mask inp ∧
  (∀ x, Z.testbit (enabled_effects w') (effect_bit x) = init_enables inp x) ∧
  (∀ n, Z.testbit (enabled_effects w') n = true → ∃ x, n = effect_bit x).
Proof.
  intros w'. subst w'.
  destruct (init_mask_obs inp w) as [Hobs _]. unfold mask_obs3 in Hobs.
  injection Hobs as Hmask _ _. rewrite Hmask.
  split; [reflexivity|]. split; [apply init_mask_testbit|].
  intros n. unfold init_mask. cbn [foldl].
  repeat match goal with
  | |- context [if init_enables inp ?y then _ else _] =>
      destruct (init_enables inp y)
  end;
  rewrite ?Z.lor_spec, ?EFFECT_testbit, ?Z.bits_0;
  repeat case_bool_decide; cbn; try discriminate; eauto.
Qed.

(** X10.  Whenever [EEVEE_effects_init] sets the volumetric bit it
    leaves [sldata->volumetrics] allocated, holding the frame's setting
    of coloured transmittance; so the later stages, which read the
    structure without a test when the bit is set, never read a NULL. *)
Theorem init_allocates_volumetrics (inp : FrameInput) (w : World) :
  let w' := exec (EEVEE_effects_init inp) w in
  Z.land (enabled_effects w') EFFECT_VOLUMETRIC ≠ 0 →
  volumetrics w' =
    Some (get_bool inp "volumetric_colored_transmittance"%string).
Proof.
  intros w' Hbit. subst w'.
  destruct (init_mask_obs inp w) as [Hobs _]. unfold mask_obs3 in Hobs.
  injection Hobs as Hmask Hvol _.
  apply (bool_decide_eq_true_2 _) in Hbit.
  rewrite effect_test, Hmask, init_mask_testbit in Hbit.
  rewrite Hvol. unfold init_enables in Hbit. rewrite Hbit. reflexivity.
Qed.

(** X11.  The only textures [EEVEE_effects_init] ever frees are
    txl->ssr_normal_input, txl->ssr_specrough_input and
    txl->color_double_buffer, each when it exists and only in a frame
    whose settings have reflections off; in that frame these three
    fields, fbl->screen_tracing_fb and fbl->double_buffer are NULL
    afterwards and the four hit outputs are forgotten.  With reflections
    on the init frees no texture at all. *)
Theorem init_frees_reflection_textures_only (inp : FrameInput) (w : World) :
  let w' := exec (EEVEE_effects_init inp) w in
  let ssr := get_bool inp "ssr_enable"%string in
  freed_textures (trace w') =
    freed_textures (trace w) ++
    (if ssr then []
     else option_list (tex w TXL_ssr_normal_input) ++
          option_list (tex w TXL_ssr_specrough_input) ++
          option_list (tex w TXL_color_double_buffer)) ∧
  (ssr = false →
   tex w' TXL_ssr_normal_input = None ∧
   tex w' TXL_ssr_specrough_input = None ∧
   tex w' TXL_color_double_buffer = None ∧
   fb w' FBL_screen_tracing_fb = None ∧
   fb w' FBL_double_buffer = None ∧
   ∀ i, 0 ≤ i < 4 → tex w' (G_ssr_hit_output i) = None).
Proof.
  intros w' ssr. subst w' ssr.
  destruct (init_mask_obs inp w) as [Hobs Hnull]. cbv zeta in Hnull.
  unfold mask_obs3 in Hobs. injection Hobs as _ _ Hfreed.
  split; [exact Hfreed | exact Hnull].
Qed.

End init_mask_proofs.

(** ** The shader cache of e_data *)

Lemma E_bind_run {A B} (m : E A) (f : A → E B) (d : ShaderData) :
  (m ≫= f) d = f (m d).1 (m d).2.
Proof. unfold mbind, E_bind. destruct (m d); reflexivity. Qed.

Lemma created_shaders_app (t1 t2 : list shader_event) :
  created_shaders (t1 ++ t2) = created_shaders t1 ++ created_shaders t2.
Proof. apply omap_app. Qed.

Lemma freed_shaders_app (t1 t2 : list shader_event) :
  freed_shaders (t1 ++ t2) = freed_shaders t1 ++ freed_shaders t2.
Proof. apply omap_app. Qed.

Section shader_proofs.
Variable SHADER_DEFINES : string.
Variable compile : nat → shader_source → option GPUShader.

Lemma DRW_SHADER_FREE_SAFE_run (f : shader_field) (d : ShaderData) :
  (DRW_SHADER_FREE_SAFE f d).2 =
  match shaders d f with
  | Some sh =>
      mkShaderData (<[f := None]> (shaders d)) (shader_trace d ++ [Sh_free sh])
  | None => d
  end.
Proof.
  unfold DRW_SHADER_FREE_SAFE. rewrite E_bind_run. cbn [get_shader fst snd].
  destruct (shaders d f); reflexivity.
Qed.

Lemma omap_insert_fresh (g : shader_field → option GPUShader)
    (f0 : shader_field) (v : option GPUShader) (l : list shader_field) :
  f0 ∉ l → omap (<[f0 := v]> g) l = omap g l.
Proof.
  induction l as [|f l IH]; intros Hf0; [reflexivity|].
  apply not_elem_of_cons in Hf0 as [Hne Hf0].
  cbn [omap list_omap]. rewrite fn_lookup_insert_ne by done.
  rewrite IH by done. reflexivity.
Qed.

(** Releasing a list of distinct fields. *)
Lemma free_fields (l : list shader_field) (d : ShaderData) :
  NoDup l →
  let d' := (shader_for_each l DRW_SHADER_FREE_SAFE d).2 in
  (∀ f, shaders d' f = if decide (f ∈ l) then None else shaders d f) ∧
  shader_trace d' = shader_trace d ++ (Sh_free <$> omap (shaders d) l).
Proof.
  intros Hl. revert d. induction Hl as [|f0 l Hf0 Hl IH]; intros d.
  - cbn. split; [|rewrite app_nil_r; reflexivity].
    intros f. rewrite decide_False by apply not_elem_of_nil. reflexivity.
  - cbn [shader_for_each]. rewrite E_bind_run.
    specialize (IH (DRW_SHADER_FREE_SAFE f0 d).2).
    rewrite DRW_SHADER_FREE_SAFE_run in IH |- *.
    cbv zeta in IH |- *. destruct IH as [IHs IHt].
    split.
    + intros f. rewrite IHs.
      destruct (decide (f = f0)) as [->|Hne].
      * rewrite decide_False by done.
        rewrite decide_True by apply list_elem_of_here.
        destruct (shaders d f0) eqn:E0; cbn; [apply fn_lookup_insert | exact E0].
      * destruct (decide (f ∈ l)) as [Hin|Hin].
        -- rewrite decide_True by (apply list_elem_of_further; done). reflexivity.
        -- rewrite decide_False by (apply not_elem_of_cons; done).
           destruct (shaders d f0); cbn;
             [apply fn_lookup_insert_ne; done | reflexivity].
    + rewrite IHt. cbn [omap list_omap].
      destruct (shaders d f0) eqn:E0; cbn.
      * rewrite omap_insert_fresh, <- app_assoc by done. reflexivity.
      * reflexivity.
Qed.

Lemma freed_shader_fields_list :
  freed_shader_fields =
  [ E_ssr_sh 0; E_ssr_sh 1; E_ssr_sh 2; E_ssr_sh 3;
    E_downsample_sh; E_volumetric_upsample_sh;
    E_minz_downlevel_sh; E_maxz_downlevel_sh;
    E_minz_downdepth_sh; E_maxz_downdepth_sh;
    E_minz_downdepth_layer_sh; E_maxz_downdepth_layer_sh;
    E_minz_copydepth_sh; E_maxz_copydepth_sh;
    E_motion_blur_sh;
    E_dof_downsample_sh; E_dof_scatter_sh; E_dof_resolve_sh;
    E_bloom_blit_sh 0; E_bloom_downsample_sh 0;
    E_bloom_upsample_sh 0; E_bloom_resolve_sh 0;
    E_bloom_blit_sh 1; E_bloom_downsample_sh 1;
    E_bloom_upsample_sh 1; E_bloom_resolve_sh 1 ].
Proof. reflexivity. Qed.

Lemma freed_shader_fields_NoDup : NoDup freed_shader_fields.
Proof.
  rewrite freed_shader_fields_list.
  repeat (apply NoDup_cons_2;
          [rewrite ?elem_of_cons, elem_of_nil;
           intros Hin; repeat destruct Hin as [Hin|Hin]; done |]).
  apply NoDup_nil_2.
Qed.

Lemma freed_shader_fields_complete (f : shader_field) :
  shader_field_exists f = true → f ∈ freed_shader_fields.
Proof.
  rewrite freed_shader_fields_list. intros Hf.
  destruct f; cbn in Hf; try apply bool_decide_eq_true_1 in Hf;
    try (change SSR_MAX_SHADER with 4 in Hf);
    try (assert (i = 0 ∨ i = 1) as [-> | ->] by lia);
    try (assert (options = 0 ∨ options = 1 ∨ options = 2 ∨ options = 3)
           as [-> | [-> | [-> | ->]]] by lia);
    rewrite !elem_of_cons; tauto.
Qed.

(** X12.  [EEVEE_effects_free] releases every shader field of e_data:
    afterwards each field that exists is NULL, every shader that was
    held has been freed exactly once (the fields freed are pairwise
    distinct, and the shaders freed are those they held, in the order of
    the function), no shader is created, and a second call finds nothing
    to free. *)
Theorem effects_free_releases_every_shader (d : ShaderData) :
  let d' := (EEVEE_effects_free d).2 in
  (∀ f, shader_field_exists f = true → shaders d' f = None) ∧
  NoDup freed_shader_fields ∧
  freed_shaders (shader_trace d') =
    freed_shaders (shader_trace d) ++ omap (shaders d) freed_shader_fields ∧
  created_shaders (shader_trace d') = created_shaders (shader_trace d) ∧
  shader_trace (EEVEE_effects_free d').2 = shader_trace d'.
Proof.
  intros d'. subst d'. unfold EEVEE_effects_free.
  pose proof freed_shader_fields_NoDup as Hnd.
  destruct (free_fields freed_shader_fields d Hnd) as [Hs Ht].
  cbv zeta in Hs, Ht.
  set (d' := (shader_for_each freed_shader_fields DRW_SHADER_FREE_SAFE d).2) in *.
  assert (Hnone : ∀ f, f ∈ freed_shader_fields → shaders d' f = None)
    by (intros f Hf; rewrite Hs, decide_True by done; reflexivity).
  split; [intros f Hf; apply Hnone, freed_shader_fields_complete, Hf|].
  split; [exact Hnd|].
  assert (Hfree : ∀ l, freed_shaders (Sh_free <$> l) = l)
    by (intros l; induction l as [|x l IH]; [reflexivity|];
        cbn; f_equal; exact IH).
  assert (Hcreate : ∀ l, created_shaders (Sh_free <$> l) = [])
    by (intros l; induction l as [|x l IH]; [reflexivity|]; cbn; exact IH).
  split; [rewrite Ht, freed_shaders_app, Hfree; reflexivity|].
  split; [rewrite Ht, created_shaders_app, Hcreate, app_nil_r; reflexivity|].
  destruct (free_fields freed_shader_fields d' Hnd) as [_ Ht2].
  cbv zeta in Ht2. rewrite Ht2.
  assert (Hempty : omap (shaders d') freed_shader_fields = []).
  { revert Hnone. generalize freed_shader_fields. intros l Hl.
    induction l as [|f l IH]; [reflexivity|].
    cbn [omap list_omap]. rewrite Hl by apply list_elem_of_here.
    cbn. apply IH. intros f' Hf'. apply Hl, list_elem_of_further, Hf'. }
  rewrite Hempty. cbn. apply app_nil_r.
Qed.

(** X13.  [eevee_effects_ssr_shader_get] returns what
    e_data.ssr_sh[options] holds when it is done.  When the element holds
    a shader at the call, that shader is returned and nothing else
    happens.  When it is NULL the call makes exactly one compilation, with
    the sources and defines of the variation, stores the result (NULL
    included) and touches no other field.  So once a call has returned a
    shader, a further call with the same options returns it and creates
    nothing; after a call that returned NULL, the next call compiles the
    variation again. *)
Theorem ssr_shader_get_caches_success (options : Z) (d : ShaderData) :
  let get := eevee_effects_ssr_shader_get SHADER_DEFINES compile options in
  let source :=
    mkSource None None ssr_shader_str
      (Some (ssr_define_str SHADER_DEFINES options)) in
  let r := get d in
  r.1 = shaders r.2 (E_ssr_sh options) ∧
  (shaders d (E_ssr_sh options) ≠ None →
   r = (shaders d (E_ssr_sh options), d)) ∧
  (shaders d (E_ssr_sh options) = None →
   shader_trace r.2 = shader_trace d ++ [Sh_create source r.1] ∧
   r.1 = compile (length (created_shaders (shader_trace d))) source ∧
   ∀ f, f ≠ E_ssr_sh options → shaders r.2 f = shaders d f) ∧
  (r.1 ≠ None → get r.2 = r) ∧
  (r.1 = None →
   shader_trace (get r.2).2 =
     shader_trace r.2 ++ [Sh_create source (get r.2).1]).
Proof.
  intros get source r.
  assert (Hheld : ∀ d0 sh, shaders d0 (E_ssr_sh options) = Some sh →
                  get d0 = (Some sh, d0)).
  { intros d0 sh Hsh. unfold get, eevee_effects_ssr_shader_get.
    rewrite !E_bind_run. cbn [get_shader fst snd]. rewrite Hsh.
    cbn [mret E_ret fst snd]. unfold get_shader. rewrite Hsh. reflexivity. }
  assert (Hnull : ∀ d0, shaders d0 (E_ssr_sh options) = None →
                  let sh := compile (length (created_shaders (shader_trace d0)))
                              source in
                  get d0 =
                  (sh, mkShaderData (<[E_ssr_sh options := sh]> (shaders d0))
                         (shader_trace d0 ++ [Sh_create source sh]))).
  { intros d0 Hsh. unfold get, eevee_effects_ssr_shader_get.
    rewrite !E_bind_run. cbn [get_shader fst snd]. rewrite Hsh.
    rewrite E_bind_run.
    unfold DRW_shader_create_fullscreen, DRW_shader_create, put_shader,
      get_shader.
    cbn [fst snd shaders shader_trace]. rewrite fn_lookup_insert.
    reflexivity. }
  destruct (shaders d (E_ssr_sh options)) as [cur|] eqn:Hcur.
  - subst r. rewrite (Hheld d cur Hcur). cbn [fst snd].
    split; [symmetry; exact Hcur|].
    split; [intros _; reflexivity|].
    split; [discriminate|].
    split; [intros _; apply Hheld, Hcur | discriminate].
  - subst r. rewrite (Hnull d Hcur). cbv zeta. cbn [fst snd shaders shader_trace].
    split; [rewrite fn_lookup_insert; reflexivity|].
    split; [intros Hn; contradiction|].
    split.
    { intros _. split; [reflexivity|]. split; [reflexivity|].
      intros f Hf. rewrite fn_lookup_insert_ne by done. reflexivity. }
    split.
    + intros Hsome.
      destruct (compile (length (created_shaders (shader_trace d))) source)
        as [sh|] eqn:Hc; [|contradiction].
      apply Hheld. cbn [shaders]. rewrite fn_lookup_insert. reflexivity.
    + intros Hnone. rewrite Hnone.
      rewrite Hnull by (cbn [shaders]; rewrite fn_lookup_insert; reflexivity).
      reflexivity.
Qed.

Lemma init_shader_fields_NoDup : NoDup (fst <$> init_shader_assignments compile).
Proof.
  cbn.
  repeat (apply NoDup_cons_2;
          [rewrite ?elem_of_cons, elem_of_nil;
           intros Hin; repeat destruct Hin as [Hin|Hin]; done |]).
  apply NoDup_nil_2.
Qed.

(** Running a list of assignments [e_data.field = create(...)] on
    distinct fields. *)
Lemma run_assignments
    (l : list (shader_field * E (option GPUShader))) (d : ShaderData) :
  NoDup (fst <$> l) →
  Forall (λ a, ∃ vert geom frag defines,
            a.2 = DRW_shader_create compile vert geom frag defines) l →
  let d' := (shader_for_each l (λ a, sh ← a.2; put_shader a.1 sh) d).2 in
  freed_shaders (shader_trace d') = freed_shaders (shader_trace d) ∧
  length (created_shaders (shader_trace d')) =
    (length (created_shaders (shader_trace d)) + length l)%nat ∧
  shaders d' <$> (fst <$> l) =
    snd <$> drop (length (created_shaders (shader_trace d)))
              (created_shaders (shader_trace d')) ∧
  (∀ f, f ∉ fst <$> l → shaders d' f = shaders d f) ∧
  ∃ t, shader_trace d' = shader_trace d ++ t.
Proof.
  revert d. induction l as [|[f0 c0] l IH]; intros d Hnd Hall.
  - cbn. rewrite Nat.add_0_r, drop_all.
    repeat split; try reflexivity. exists []. rewrite app_nil_r. reflexivity.
  - cbn [fmap list_fmap fst] in Hnd. apply list.NoDup_cons in Hnd as [Hf0 Hnd].
    apply Forall_cons_1 in Hall as [(vert & geom & frag & defines & Hc0) Hall].
    cbn [fst snd] in Hf0, Hc0. subst c0.
    cbn [shader_for_each fst snd]. rewrite !E_bind_run.
    set (d1 := (put_shader f0 _ _).2).
    specialize (IH d1 Hnd Hall). cbv zeta in IH |- *.
    destruct IH as (Hfreed & Hlen & Hmap & Hother & t & Ht).
    assert (Ht1 : shader_trace d1 =
              shader_trace d ++
              [Sh_create (mkSource vert geom frag defines)
                 (compile (length (created_shaders (shader_trace d)))
                    (mkSource vert geom frag defines))])
      by reflexivity.
    assert (Hs1 : shaders d1 f0 =
              compile (length (created_shaders (shader_trace d)))
                (mkSource vert geom frag defines))
      by (subst d1; cbn; apply fn_lookup_insert).
    assert (Hc1 : created_shaders (shader_trace d1) =
              created_shaders (shader_trace d) ++
              [(mkSource vert geom frag defines,
                compile (length (created_shaders (shader_trace d)))
                  (mkSource vert geom frag defines))])
      by (rewrite Ht1, created_shaders_app; reflexivity).
    split; [|split; [|split; [|split]]].
    + rewrite Hfreed, Ht1, freed_shaders_app. cbn. apply app_nil_r.
    + rewrite Hlen, Hc1, length_app. cbn. lia.
    + cbn [fmap list_fmap fst]. rewrite Hother by done. rewrite Hs1.
      rewrite Hmap, Ht, created_shaders_app, Hc1.
      rewrite drop_app_length.
      rewrite <- app_assoc, drop_app_length. reflexivity.
    + intros f Hf. apply not_elem_of_cons in Hf as [Hne Hf].
      rewrite Hother by done. subst d1. cbn.
      apply fn_lookup_insert_ne. done.
    + exists (Sh_create (mkSource vert geom frag defines)
                (compile (length (created_shaders (shader_trace d)))
                   (mkSource vert geom frag defines)) :: t).
      rewrite Ht, Ht1, <- app_assoc. reflexivity.
Qed.

(** X14.  The shader block of [EEVEE_effects_init] is guarded by
    e_data.motion_blur_sh alone.  When that field holds a shader the
    block does nothing, whatever the other fields hold.  When it is NULL
    the block creates all 22 shaders, stores in each of its 22 fields what
    the creation for that field returned (NULL included), overwrites what
    the fields held without freeing it, and touches no other field. *)
Theorem init_shaders_guarded_by_motion_blur (d : ShaderData) :
  let d' := (init_shaders compile d).2 in
  (shaders d E_motion_blur_sh ≠ None → d' = d) ∧
  (shaders d E_motion_blur_sh = None →
   freed_shaders (shader_trace d') = freed_shaders (shader_trace d) ∧
   length (created_shaders (shader_trace d')) =
     (length (created_shaders (shader_trace d)) + 22)%nat ∧
   shaders d' <$> (fst <$> init_shader_assignments compile) =
     snd <$> drop (length (created_shaders (shader_trace d)))
               (created_shaders (shader_trace d')) ∧
   (∀ options, shaders d' (E_ssr_sh options) = shaders d (E_ssr_sh options))).
Proof.
  intros d'. subst d'. unfold init_shaders. rewrite E_bind_run.
  cbn [get_shader fst snd].
  destruct (shaders d E_motion_blur_sh) eqn:Hmb.
  - split; [reflexivity | discriminate].
  - split; [done | intros _].
    destruct (run_assignments (init_shader_assignments compile) d
                init_shader_fields_NoDup)
      as (Hfreed & Hlen & Hmap & Hother & _).
    { unfold init_shader_assignments, create_minmaxz_sh, create_bloom_sh,
        create_dof_sh, DRW_shader_create_fullscreen.
      repeat (apply Forall_cons_2; [cbn [snd]; eauto 10|]).
      apply Forall_nil_2. }
    cbv zeta in Hfreed, Hlen, Hmap, Hother.
    split; [exact Hfreed|]. split; [exact Hlen|]. split; [exact Hmap|].
    intros options. apply Hother. cbn.
    rewrite ?elem_of_cons, elem_of_nil.
    intros Hin; repeat destruct Hin as [Hin|Hin]; done.
Qed.

(** X15.  The two shader lookups of the reflection block of
    [EEVEE_effects_cache_init] use two different elements of
    e_data.ssr_sh, both inside the array of SSR_MAX_SHADER elements; the
    first is the variation defined with STEP_RAYTRACE, the second the one
    defined with STEP_RESOLVE, and both are defined with FULLRES exactly
    when reflections are traced at full resolution.  What the block gets
    back is what the two elements hold afterwards. *)
Theorem cache_init_ssr_shader_variations
    (reflection_trace_full : bool) (d : ShaderData) :
  let options := if reflection_trace_full then SSR_FULL_TRACE else 0 in
  let resolve_options := Z.lor SSR_RESOLVE options in
  let fullres :=
    if reflection_trace_full then define "FULLRES"%string else ""%string in
  let r := cache_init_ssr_shaders SHADER_DEFINES compile reflection_trace_full d in
  shader_field_exists (E_ssr_sh options) = true ∧
  shader_field_exists (E_ssr_sh resolve_options) = true ∧
  options ≠ resolve_options ∧
  ssr_define_str SHADER_DEFINES options =
    String.append SHADER_DEFINES
      (String.append (define "STEP_RAYTRACE"%string) fullres) ∧
  ssr_define_str SHADER_DEFINES resolve_options =
    String.append SHADER_DEFINES
      (String.append (define "STEP_RESOLVE"%string) fullres) ∧
  r.1 = (shaders r.2 (E_ssr_sh options), shaders r.2 (E_ssr_sh resolve_options)).
Proof.
  intros options resolve_options fullres r.
  subst r fullres resolve_options options.
  split; [destruct reflection_trace_full; reflexivity|].
  split; [destruct reflection_trace_full; reflexivity|].
  split; [destruct reflection_trace_full; discriminate|].
  split; [destruct reflection_trace_full; reflexivity|].
  split; [destruct reflection_trace_full; reflexivity|].
  unfold cache_init_ssr_shaders, eevee_effects_ssr_shader_get.
  set (o1 := if reflection_trace_full then SSR_FULL_TRACE else 0).
  set (o2 := Z.lor SSR_RESOLVE o1).
  assert (Hne : E_ssr_sh o2 ≠ E_ssr_sh o1)
    by (subst o2 o1; destruct reflection_trace_full; discriminate).
  assert (Hne' : E_ssr_sh o1 ≠ E_ssr_sh o2) by congruence.
  clearbody o2 o1.
  unfold get_shader, put_shader, DRW_shader_create_fullscreen,
    DRW_shader_create, mbind, E_bind, mret, E_ret.
  repeat first
    [ progress cbn [fst snd shaders shader_trace]
    | rewrite fn_lookup_insert
    | rewrite fn_lookup_insert_ne by done
    | match goal with
      | |- context [match shaders d ?f with _ => _ end] =>
          destruct (shaders d f) eqn:?
      end ];
    reflexivity.
Qed.

End shader_proofs.

(** ** The passes of the Hi-Z pyramids *)

Lemma recursive_downsample_draws
    (n : nat) (level width height : Z)
    (f : option GPUFrameBuffer) (t : GPUTexture) (p : pass) (w : World) :
  minmax_pass_obs
    (recursive_downsample_from n level width height f t
       (λ _, DRW_draw_pass p) w).2 =
  (drawn (trace w) ++ replicate (length (mip_chain n level width height)) p,
   attached (trace w), detached (trace w), tex w, fb w, depth_src_layer w).
Proof.
  revert w level width height.
  induction n as [|n IH]; intros w level width height; simpl.
  - rewrite app_nil_r. reflexivity.
  - case_bool_decide; [simpl; rewrite app_nil_r; reflexivity|].
    rewrite run_emit, run_draw, IH.
    destruct w as [tex0 fb0 e0 ct0 rc0 full0 valid0 v0 layer0 psl0 id0 trace0].
    state_simpl.
    rewrite !drawn_app, !attached_app, !detached_app. cbn.
    rewrite !app_nil_r, <- app_assoc. reflexivity.
Qed.

Lemma driver_draws f t num_iter (p : pass) (w : World) :
  minmax_pass_obs
    (DRW_framebuffer_recursive_downsample f t num_iter
       (λ _, DRW_draw_pass p) w).2 =
  (drawn (trace w) ++ replicate (length (pyramid t num_iter)) p,
   attached (trace w), detached (trace w), tex w, fb w, depth_src_layer w).
Proof.
  unfold DRW_framebuffer_recursive_downsample, pyramid.
  destruct t as [t|]; [|cbn; rewrite app_nil_r; reflexivity].
  rewrite recursive_downsample_draws, length_fmap. reflexivity.
Qed.

(** X17.  [EEVEE_create_minmax_buffer] builds the min pyramid
    completely before it begins the max pyramid: it draws the copy pass
    of the min texture, then the min downsample pass once per lower level,
    then the copy pass of the max texture, then the max downsample pass
    once per lower level.  A layer that is not negative selects the
    layered copy passes and is stored in e_data.depth_src_layer; a
    negative layer selects the plain copy passes and leaves the stored
    layer as it was.  Each texture is attached to the downsample
    framebuffer at point 0 for its copy and detached again, and
    e_data.depth_src is the depth source given. *)
Theorem create_minmax_buffer_passes
    (depth_src : option GPUTexture) (layer : Z) (w : World) :
  let w' := exec (EEVEE_create_minmax_buffer depth_src layer) w in
  let layered := bool_decide (0 ≤ layer) in
  drawn (trace w') =
    drawn (trace w) ++
    [if layered then PSL_minz_downdepth_layer_ps else PSL_minz_downdepth_ps] ++
    replicate (length (pyramid (tex w G_minzbuffer) 8)) PSL_minz_downlevel_ps ++
    [if layered then PSL_maxz_downdepth_layer_ps else PSL_maxz_downdepth_ps] ++
    replicate (length (pyramid (tex w TXL_maxzbuffer) 8)) PSL_maxz_downlevel_ps ∧
  depth_src_layer w' = (if layered then layer else depth_src_layer w) ∧
  tex w' E_depth_src = depth_src ∧
  attached (trace w') =
    attached (trace w) ++
    [(fb w FBL_downsample_fb, tex w G_minzbuffer, 0);
     (fb w FBL_downsample_fb, tex w TXL_maxzbuffer, 0)] ∧
  detached (trace w') =
    detached (trace w) ++ [tex w G_minzbuffer; tex w TXL_maxzbuffer].
Proof.
  intros w' layered. subst w' layered.
  unfold exec, EEVEE_create_minmax_buffer, min_downsample_cb, max_downsample_cb.
  destruct w as [tex0 fb0 e0 ct0 rc0 full0 valid0 v0 layer0 psl0 id0 trace0].
  do 5 step.
  destruct (bool_decide (0 ≤ layer)).
  - do 3 step.
    match goal with
    | |- context [DRW_framebuffer_recursive_downsample ?f ?t ?n ?cb] =>
        run_by (driver_draws f t n PSL_minz_downlevel_ps)
    end.
    unfold minmax_pass_obs in Hp. state_simpl in Hp.
    injection Hp as Hd Ha He -> -> ->.
    do 7 step.
    match goal with
    | |- context [(DRW_framebuffer_recursive_downsample ?f ?t ?n ?cb ?w0)] =>
        pose proof (driver_draws f t n PSL_maxz_downlevel_ps w0) as Hp;
        set (r := DRW_framebuffer_recursive_downsample f t n cb w0) in *;
        clearbody r; destruct_run r
    end.
    unfold minmax_pass_obs in Hp. state_simpl in Hp. state_simpl.
    injection Hp as Hd2 Ha2 He2 -> -> ->.
    rewrite Hd2, Ha2, He2, !drawn_app, !attached_app, !detached_app, Hd, Ha, He.
    rewrite !drawn_app, !attached_app, !detached_app. cbn.
    rewrite ?app_nil_r, <- ?app_assoc.
    rewrite ?fn_lookup_insert; rewrite ?fn_lookup_insert_ne by discriminate.
    repeat split; reflexivity.
  - do 2 step.
    match goal with
    | |- context [DRW_framebuffer_recursive_downsample ?f ?t ?n ?cb] =>
        run_by (driver_draws f t n PSL_minz_downlevel_ps)
    end.
    unfold minmax_pass_obs in Hp. state_simpl in Hp.
    injection Hp as Hd Ha He -> -> ->.
    do 6 step.
    match goal with
    | |- context [(DRW_framebuffer_recursive_downsample ?f ?t ?n ?cb ?w0)] =>
        pose proof (driver_draws f t n PSL_maxz_downlevel_ps w0) as Hp;
        set (r := DRW_framebuffer_recursive_downsample f t n cb w0) in *;
        clearbody r; destruct_run r
    end.
    unfold minmax_pass_obs in Hp. state_simpl in Hp. state_simpl.
    injection Hp as Hd2 Ha2 He2 -> -> ->.
    rewrite Hd2, Ha2, He2, !drawn_app, !attached_app, !detached_app, Hd, Ha, He.
    rewrite !drawn_app, !attached_app, !detached_app. cbn.
    rewrite ?app_nil_r, <- ?app_assoc.
    rewrite ?fn_lookup_insert; rewrite ?fn_lookup_insert_ne by discriminate.
    repeat split; reflexivity.
Qed.

(** ** The sizes of the bloom buffers *)

Lemma bloom_framebuffer_inits_app (t1 t2 : list event) :
  bloom_framebuffer_inits (t1 ++ t2) =
  bloom_framebuffer_inits t1 ++ bloom_framebuffer_inits t2.
Proof. apply omap_app. Qed.

Ltac pres_side ::=
  try match goal with |- ?obs _ = ?obs _ => unfold obs end;
  try unfold frame_obs;
  repeat match goal with w : World |- _ => destruct w end;
  cbn; rewrite ?swap_count_app, ?drawn_app, ?displayed_app, ?ssr_steps_app, ?mip_levels_app,
    ?framebuffer_inits_app, ?freed_framebuffers_app, ?freed_textures_app,
    ?framebuffer_init_found_app, ?scatter_draws_app,
    ?bound_app, ?attached_app, ?detached_app, ?redraw_requests_app,
    ?framebuffer_init_sizes_app, ?created_textures_app,
    ?stage_steps_app, ?frame_steps_app,
    ?bloom_framebuffer_inits_app, ?omap_app; cbn;
  rewrite ?Nat.add_0_r, ?app_nil_r; reflexivity.

Lemma for_fold_app {A S} (l1 l2 : list A) (s : S) (body : A → S → M S) (w : World) :
  for_fold (l1 ++ l2) s body w =
  for_fold l2 (for_fold l1 s body w).1 body (for_fold l1 s body w).2.
Proof.
  revert s w. induction l1 as [|i l1 IH]; intros s w; [reflexivity|].
  cbn [app for_fold]. rewrite !bind_run. apply IH.
Qed.

Lemma half_of_max (a : Z) :
  0 ≤ a → MAX2 (Z.max a 2 `quot` 2) 2 = Z.max (a / 2) 2.
Proof.
  intros Ha. unfold MAX2. rewrite Z.quot_div_nonneg by lia.
  destruct (Z_lt_le_dec a 2) as [Hlt|Hge].
  - rewrite Z.max_r by lia. change (2 / 2) with 1.
    rewrite (Z.div_small a 2) by lia. reflexivity.
  - rewrite Z.max_l by lia.
    destruct (Z.gtb_spec (a / 2) 2); lia.
Qed.

(** The halving chain in closed form. *)
Lemma bloom_half_iter_1 (x : Z) (k : nat) :
  0 ≤ x →
  Nat.iter (S k) (λ y, MAX2 (y `quot` 2) 2) x = Z.max (x / 2 ^ (Z.of_nat k + 1)) 2.
Proof.
  intros Hx. induction k as [|k IH].
  - rewrite Nat.iter_succ. change (Nat.iter 0 ?f x) with x. cbv beta.
    unfold MAX2. rewrite Z.quot_div_nonneg by lia.
    change (2 ^ (Z.of_nat 0 + 1)) with 2.
    destruct (Z.gtb_spec (x / 2) 2); lia.
  - rewrite Nat.iter_succ.
    rewrite IH. clear IH. cbv beta.
    assert (Hdiv : x / 2 ^ (Z.of_nat (S k) + 1) = x / 2 ^ (Z.of_nat k + 1) / 2).
    { replace (Z.of_nat (S k) + 1) with (Z.of_nat k + 1 + 1) by lia.
      rewrite (Z.pow_add_r 2 (Z.of_nat k + 1) 1), Z.pow_1_r by lia.
      rewrite Z.div_div by lia. reflexivity. }
    rewrite Hdiv. apply half_of_max. apply Z.div_pos; lia.
Qed.

Lemma bloom_half_iter (s : Z * Z) (k : nat) :
  0 ≤ s.1 → 0 ≤ s.2 →
  Nat.iter (S k) bloom_half s =
  (Z.max (s.1 / 2 ^ (Z.of_nat k + 1)) 2, Z.max (s.2 / 2 ^ (Z.of_nat k + 1)) 2).
Proof.
  intros H1 H2.
  rewrite <- (bloom_half_iter_1 s.1 k H1), <- (bloom_half_iter_1 s.2 k H2).
  generalize (S k). intros n. induction n as [|n IH]; [destruct s; reflexivity|].
  rewrite !Nat.iter_succ, IH. reflexivity.
Qed.

(** A call of [DRW_framebuffer_init] on a framebuffer of bloom. *)
Lemma DRW_framebuffer_init_bloom
    (s : fb_slot) (x y : Z) (l : list DRWFboTexture) (n : Z) (w : World) :
  (match s with
   | FBL_bloom_blit_fb | FBL_bloom_down_fb _ | FBL_bloom_accum_fb _ => True
   | _ => False
   end) →
  bloom_init_obs (DRW_framebuffer_init s x y l n w).2 =
  (bloom_framebuffer_inits (trace w) ++ [(s, x, y)], bloom_iteration_ct w).
Proof.
  intros Hs. unfold DRW_framebuffer_init.
  destruct w as [tex0 fb0 e0 ct0 rc0 full0 valid0 v0 layer0 psl0 id0 trace0].
  do 2 step.
  match goal with
  | |- bloom_init_obs (?m ?w0).2 = _ =>
      assert (Hm : pres bloom_init_obs m) by solve_pres;
      rewrite (Hm w0)
  end.
  unfold bloom_init_obs; state_simpl. rewrite bloom_framebuffer_inits_app.
  destruct s; try done; reflexivity.
Qed.

(** A loop of the bloom block over the levels 0 .. len - 1. *)
Lemma bloom_buffer_loop
    (slot : Z → fb_slot) (textures : Z → list DRWFboTexture)
    (len : Z) (s : Z * Z) (w : World) :
  (∀ i, match slot i with
        | FBL_bloom_blit_fb | FBL_bloom_down_fb _ | FBL_bloom_accum_fb _ => True
        | _ => False
        end) →
  let body := λ (i : Z) (texsize : Z * Z),
    let texsize := (texsize.1 `quot` 2, texsize.2 `quot` 2) in
    let texsize := (MAX2 texsize.1 2, MAX2 texsize.2 2) in
    DRW_framebuffer_init (slot i) texsize.1 texsize.2 (textures i) 1;;
    mret texsize in
  let r := for_fold (seqZ 0 len) s body w in
  r.1 = Nat.iter (Z.to_nat len) bloom_half s ∧
  bloom_init_obs r.2 =
    (bloom_framebuffer_inits (trace w) ++
     ((λ k, (slot (Z.of_nat k),
             (Nat.iter (S k) bloom_half s).1,
             (Nat.iter (S k) bloom_half s).2)) <$> seq 0 (Z.to_nat len)),
     bloom_iteration_ct w).
Proof.
  intros Hslot body r. subst r. unfold seqZ.
  induction (Z.to_nat len) as [|n IH].
  - cbn. rewrite app_nil_r. split; reflexivity.
  - rewrite seq_S, !fmap_app. cbn [fmap list_fmap plus].
    rewrite for_fold_app. destruct IH as [IH1 IH2].
    set (r := for_fold _ s body w) in *.
    cbn [for_fold]. rewrite !bind_run. unfold body at 1 3.
    rewrite !bind_run. cbn [mret M_ret fst snd].
    rewrite IH1. replace (Z.of_nat n + 0) with (Z.of_nat n) by lia.
    split; [reflexivity|].
    unfold body. cbv zeta. rewrite bind_run. unfold mret, M_ret. cbn [snd].
    rewrite DRW_framebuffer_init_bloom by apply Hslot.
    unfold bloom_init_obs in IH2. injection IH2 as -> ->.
    rewrite <- app_assoc. reflexivity.
Qed.

Lemma bloom_sizes_closed_form (slot : Z → fb_slot) (s : Z * Z) (len : Z) :
  0 ≤ s.1 → 0 ≤ s.2 →
  (λ k, (slot (Z.of_nat k),
         (Nat.iter (S k) bloom_half s).1,
         (Nat.iter (S k) bloom_half s).2)) <$> seq 0 (Z.to_nat len) =
  (λ i, (slot i, Z.max (s.1 / 2 ^ (i + 1)) 2, Z.max (s.2 / 2 ^ (i + 1)) 2))
    <$> seqZ 0 len.
Proof.
  intros H1 H2. unfold seqZ. rewrite <- list_fmap_compose.
  apply list_fmap_ext. intros _ k _. unfold compose.
  rewrite bloom_half_iter by done. cbn [fst snd].
  replace (Z.of_nat k + 0) with (Z.of_nat k) by lia. reflexivity.
Qed.

Section bloom_size_proofs.
Context `{EEVEE_private}.

Lemma init_bloom_sizes (inp : FrameInput) (enabled : Z) (w : World) :
  let ct := CLAMP (maxIterInt (get_float inp "bloom_radius"%string)
                     (viewport_size inp)) 1 MAX_BLOOM_STEP in
  let s := viewport_size inp in
  bloom_init_obs (init_bloom inp enabled w).2 =
  (bloom_framebuffer_inits (trace w) ++
   [(FBL_bloom_blit_fb, s.1, s.2)] ++
   ((λ k, (FBL_bloom_down_fb (Z.of_nat k),
           (Nat.iter (S k) bloom_half s).1,
           (Nat.iter (S k) bloom_half s).2)) <$> seq 0 (Z.to_nat ct)) ++
   ((λ k, (FBL_bloom_accum_fb (Z.of_nat k),
           (Nat.iter (S k) bloom_half s).1,
           (Nat.iter (S k) bloom_half s).2)) <$> seq 0 (Z.to_nat (ct - 1))),
   ct).
Proof.
  intros ct s. subst s. unfold init_bloom.
  destruct w as [tex0 fb0 e0 ct0 rc0 full0 valid0 v0 layer0 psl0 id0 trace0].
  match goal with
  | |- context [(DRW_framebuffer_init ?sl ?x ?y ?l ?n ≫= _)] =>
      run_by (λ w, DRW_framebuffer_init_bloom sl x y l n w I)
  end.
  unfold bloom_init_obs in Hp. state_simpl in Hp. injection Hp as Hi ->.
  do 4 step. fold ct.
  match goal with
  | |- context [(for_fold ?l ?s ?body ≫= _) ?w0] =>
      pose proof (bloom_buffer_loop FBL_bloom_down_fb
        (λ i, [mkFboTex (TXL_bloom_downsample i) DRW_TEX_RGB_11_11_10
                 [DRW_TEX_FILTER]])
        ct s w0 (λ _, I)) as Hl;
      cbv zeta in Hl;
      change (for_fold (seqZ 0 ct) s _ w0) with (for_fold l s body w0) in Hl;
      rewrite (bind_run (for_fold l s body));
      set (r := for_fold l s body w0) in *; clearbody r; destruct_run r
  end.
  destruct Hl as [_ Hl]. unfold bloom_init_obs in Hl.
  state_simpl in Hl. state_simpl. injection Hl as Hi2 ->.
  step. fold ct.
  match goal with
  | |- context [(for_fold ?l ?s ?body ≫= _) ?w0] =>
      pose proof (bloom_buffer_loop FBL_bloom_accum_fb
        (λ i, [mkFboTex (TXL_bloom_upsample i) DRW_TEX_RGB_11_11_10
                 [DRW_TEX_FILTER]])
        (ct - 1) s w0 (λ _, I)) as Hl;
      cbv zeta in Hl;
      change (for_fold (seqZ 0 (ct - 1)) s _ w0) with (for_fold l s body w0) in Hl;
      rewrite (bind_run (for_fold l s body));
      set (r := for_fold l s body w0) in *; clearbody r; destruct_run r
  end.
  destruct Hl as [_ Hl]. unfold bloom_init_obs in Hl.
  state_simpl in Hl. state_simpl. injection Hl as Hi3 ->.
  unfold mret, M_ret. cbn [snd]. unfold bloom_init_obs; state_simpl.
  rewrite Hi3, Hi2, Hi, <- !app_assoc. reflexivity.
Qed.

(** X18.  With bloom enabled, [EEVEE_effects_init] sets up the blit
    framebuffer at the viewport size, the downsample framebuffers 0 ..
    ct - 1 and the accumulation framebuffers 0 .. ct - 2, ct being the
    iteration count it stores, which lies in [1, MAX_BLOOM_STEP]: so
    every index stays inside the arrays of MAX_BLOOM_STEP elements.
    Level i of either chain is asked for at
    max(width / 2^(i+1), 2) x max(height / 2^(i+1), 2): the accumulation
    buffer of a level has the size of its downsample buffer, and no
    buffer is smaller than 2 x 2.  No other framebuffer of bloom is set
    up by the init. *)
Theorem init_bloom_buffer_sizes (inp : FrameInput) (w : World) :
  get_bool inp "bloom_enable"%string = true →
  0 ≤ (viewport_size inp).1 →
  0 ≤ (viewport_size inp).2 →
  let w' := exec (EEVEE_effects_init inp) w in
  let ct := bloom_iteration_ct w' in
  let width := (viewport_size inp).1 in
  let height := (viewport_size inp).2 in
  1 ≤ ct ≤ MAX_BLOOM_STEP ∧
  bloom_framebuffer_inits (trace w') =
    bloom_framebuffer_inits (trace w) ++
    [(FBL_bloom_blit_fb, width, height)] ++
    ((λ i, (FBL_bloom_down_fb i,
            Z.max (width / 2 ^ (i + 1)) 2, Z.max (height / 2 ^ (i + 1)) 2))
       <$> seqZ 0 ct) ++
    ((λ i, (FBL_bloom_accum_fb i,
            Z.max (width / 2 ^ (i + 1)) 2, Z.max (height / 2 ^ (i + 1)) 2))
       <$> seqZ 0 (ct - 1)).
Proof.
  intros Hbloom Hw Hh w' ct width height.
  assert (Hobs : bloom_init_obs w' =
    (bloom_framebuffer_inits (trace w) ++
     [(FBL_bloom_blit_fb, width, height)] ++
     ((λ i, (FBL_bloom_down_fb i,
             Z.max (width / 2 ^ (i + 1)) 2, Z.max (height / 2 ^ (i + 1)) 2))
        <$> seqZ 0 ct) ++
     ((λ i, (FBL_bloom_accum_fb i,
             Z.max (width / 2 ^ (i + 1)) 2, Z.max (height / 2 ^ (i + 1)) 2))
        <$> seqZ 0 (ct - 1)),
     CLAMP (maxIterInt (get_float inp "bloom_radius"%string)
              (viewport_size inp)) 1 MAX_BLOOM_STEP)).
  { assert (Hct : ct = CLAMP (maxIterInt (get_float inp "bloom_radius"%string)
                                (viewport_size inp)) 1 MAX_BLOOM_STEP)
      by (apply init_bloom_iteration_ct; exact Hbloom).
    rewrite Hct. subst w' width height.
    unfold exec, EEVEE_effects_init. rewrite Hbloom.
    rewrite bind_run.
    match goal with
    | |- bloom_init_obs (?tail ?w1).2 = _ =>
        assert (Htail : pres bloom_init_obs tail)
          by (unfold init_dof, init_volumetric, init_ssr, init_double_buffer;
              solve_pres);
        rewrite (Htail w1); clear Htail
    end.
    rewrite init_bloom_sizes. cbv zeta.
    rewrite !bloom_sizes_closed_form by done. reflexivity. }
  unfold bloom_init_obs in Hobs. injection Hobs as Hinits Hct.
  split; [|exact Hinits].
  fold ct in Hct. rewrite Hct. apply CLAMP_range, MAX_BLOOM_STEP_pos.
Qed.

End bloom_size_proofs.

(** ** Where in the frame the exchange happens *)

Lemma for_fold_steps {A S} (l : list A) (s : S) (body : A → S → M S) (p : pass) :
  (∀ i s w, steps_obs (body i s w).2 =
            (frame_steps (trace w) ++ [Fs_draw p],
             enabled_effects w, bloom_iteration_ct w)) →
  ∀ w, steps_obs (for_fold l s body w).2 =
       (frame_steps (trace w) ++ replicate (length l) (Fs_draw p),
        enabled_effects w, bloom_iteration_ct w).
Proof.
  intros Hbody. revert s. induction l as [|i l IH]; intros s w.
  - cbn. rewrite app_nil_r. reflexivity.
  - cbn [for_fold length replicate]. rewrite bind_run, IH.
    specialize (Hbody i s w). unfold steps_obs in Hbody.
    injection Hbody as -> -> ->.
    rewrite <- app_assoc. reflexivity.
Qed.

(** A block of the frame that is run or skipped. *)
Lemma optional_block_steps
    (b : bool) (blk : bool → M bool) (ps : list pass) (sdb : bool) (w : World) :
  (∀ sdb,
     (blk sdb w).1 = false ∧
     steps_obs (blk sdb w).2 =
       (frame_steps (trace w) ++ (Fs_draw <$> ps) ++
          (if sdb then [Fs_exchange] else []),
        enabled_effects w, bloom_iteration_ct w)) →
  ((if b then blk sdb else mret sdb) w).1 = (if b then false else sdb) ∧
  steps_obs ((if b then blk sdb else mret sdb) w).2 =
    (frame_steps (trace w) ++
       (if b then (Fs_draw <$> ps) ++ (if sdb then [Fs_exchange] else [])
        else []),
     enabled_effects w, bloom_iteration_ct w).
Proof.
  intros Hblk. destruct b; [apply Hblk|].
  split; [reflexivity|]. unfold mret, M_ret, steps_obs. cbn [snd].
  rewrite app_nil_r. reflexivity.
Qed.

Section exchange_proofs.
Context `{EEVEE_private}.

Lemma SWAP_DOUBLE_BUFFERS_steps (sdb : bool) (w : World) :
  (SWAP_DOUBLE_BUFFERS sdb w).1 = false ∧
  steps_obs (SWAP_DOUBLE_BUFFERS sdb w).2 =
    (frame_steps (trace w) ++ (if sdb then [Fs_exchange] else []),
     enabled_effects w, bloom_iteration_ct w).
Proof.
  destruct w as [tex0 fb0 e0 ct0 rc0 full0 valid0 v0 layer0 psl0 id0 trace0].
  unfold SWAP_DOUBLE_BUFFERS. destruct sdb.
  - do 9 step. unfold mret, M_ret, steps_obs. state_simpl.
    rewrite frame_steps_app. split; reflexivity.
  - unfold mret, M_ret, steps_obs. state_simpl.
    rewrite app_nil_r. split; reflexivity.
Qed.

Lemma SWAP_BUFFERS_steps (sdb : bool) (w : World) :
  (SWAP_BUFFERS sdb w).1 = false ∧
  steps_obs (SWAP_BUFFERS sdb w).2 =
    (frame_steps (trace w) ++ (if sdb then [Fs_exchange] else []),
     enabled_effects w, bloom_iteration_ct w).
Proof.
  destruct w as [tex0 fb0 e0 ct0 rc0 full0 valid0 v0 layer0 psl0 id0 trace0].
  unfold SWAP_BUFFERS. do 2 step.
  destruct (bool_decide (tex0 EFX_source_buffer = tex0 TXL_color));
    run_by (SWAP_DOUBLE_BUFFERS_steps sdb);
    destruct Hp as [-> Hp]; unfold steps_obs in Hp; state_simpl in Hp;
    injection Hp as Hs -> ->;
    do 4 step; unfold mret, M_ret, steps_obs; state_simpl;
    rewrite Hs; split; reflexivity.
Qed.

(** Ends the proof of a block: the state before its SWAP_BUFFERS is
    known, and the draws so far are collected. *)
Ltac finish_block Hs :=
  match goal with
  | |- context [SWAP_BUFFERS ?sdb ?w0] =>
      destruct (SWAP_BUFFERS_steps sdb w0) as [Hflag Hs];
      rewrite Hflag, Hs; clear Hflag Hs
  end;
  state_simpl; rewrite !frame_steps_app; cbn;
  rewrite ?app_nil_r, <- ?app_assoc; split; reflexivity.

Lemma draw_motion_blur_steps (w : World) (sdb : bool) :
  (draw_motion_blur sdb w).1 = false ∧
  steps_obs (draw_motion_blur sdb w).2 =
    (frame_steps (trace w) ++ (Fs_draw <$> [PSL_motion_blur]) ++
       (if sdb then [Fs_exchange] else []),
     enabled_effects w, bloom_iteration_ct w).
Proof.
  destruct w as [tex0 fb0 e0 ct0 rc0 full0 valid0 v0 layer0 psl0 id0 trace0].
  unfold draw_motion_blur. do 3 step. finish_block Hs.
Qed.

Lemma draw_dof_steps (w : World) (sdb : bool) :
  (draw_dof sdb w).1 = false ∧
  steps_obs (draw_dof sdb w).2 =
    (frame_steps (trace w) ++ (Fs_draw <$> dof_schedule) ++
       (if sdb then [Fs_exchange] else []),
     enabled_effects w, bloom_iteration_ct w).
Proof.
  destruct w as [tex0 fb0 e0 ct0 rc0 full0 valid0 v0 layer0 psl0 id0 trace0].
  unfold draw_dof. do 10 step.
  destruct (bool_decide (Z.land e0 EFFECT_BLOOM ≠ 0)); do 9 step;
    finish_block Hs.
Qed.

Lemma draw_bloom_steps (w : World) (sdb : bool) :
  (draw_bloom sdb w).1 = false ∧
  steps_obs (draw_bloom sdb w).2 =
    (frame_steps (trace w) ++
       (Fs_draw <$> bloom_schedule (bloom_iteration_ct w)) ++
       (if sdb then [Fs_exchange] else []),
     enabled_effects w, bloom_iteration_ct w).
Proof.
  destruct w as [tex0 fb0 e0 ct0 rc0 full0 valid0 v0 layer0 psl0 id0 trace0].
  unfold draw_bloom. do 12 step.
  match goal with
  | |- context [for_fold ?l ?s ?body] =>
      run_by (for_fold_steps l s body PSL_bloom_downsample
        ltac:(intros i s' [tex1 fb1 e1 ct1 rc1 full1 valid1 v1 layer1 psl1 id1 trace1];
              do 4 step; unfold get_tex, gets; cbn [snd];
              unfold steps_obs; state_simpl;
              rewrite !frame_steps_app; cbn; rewrite app_nil_r; reflexivity))
  end.
  unfold steps_obs in Hp. state_simpl in Hp.
  injection Hp as Hd1 -> ->.
  match goal with
  | |- context [for_fold ?l ?s ?body] =>
      run_by (for_fold_steps l s body PSL_bloom_upsample
        ltac:(intros i s' [tex1 fb1 e1 ct1 rc1 full1 valid1 v1 layer1 psl1 id1 trace1];
              do 6 step; unfold get_tex, gets; cbn [snd];
              unfold steps_obs; state_simpl;
              rewrite !frame_steps_app; cbn; rewrite app_nil_r; reflexivity))
  end.
  unfold steps_obs in Hp. state_simpl in Hp.
  injection Hp as Hd2 -> ->.
  do 6 step.
  match goal with
  | |- context [SWAP_BUFFERS ?sdb ?w0] =>
      destruct (SWAP_BUFFERS_steps sdb w0) as [Hflag Hs];
      rewrite Hflag, Hs; clear Hflag Hs
  end.
  state_simpl. rewrite !frame_steps_app, Hd2, Hd1, !frame_steps_app. cbn.
  rewrite ?app_nil_r. unfold bloom_schedule.
  rewrite length_reverse, !length_seqZ.
  rewrite !fmap_app, !fmap_replicate. cbn.
  rewrite <- !app_assoc. split; reflexivity.
Qed.

Lemma draw_debug_steps (debug_value : Z) (w : World) :
  ∃ debug_views : nat,
    steps_obs (draw_debug debug_value w).2 =
      (frame_steps (trace w) ++ replicate debug_views Fs_display,
       enabled_effects w, bloom_iteration_ct w).
Proof.
  assert (Hnone : ∃ debug_views : nat,
            steps_obs w =
              (frame_steps (trace w) ++ replicate debug_views Fs_display,
               enabled_effects w, bloom_iteration_ct w))
    by (exists 0%nat; cbn; rewrite app_nil_r; reflexivity).
  unfold draw_debug.
  destruct (bool_decide (0 < debug_value) && bool_decide (debug_value ≤ 5));
    cbn [when]; [|exact Hnone].
  assert (Hshow : ∀ s, ∃ debug_views : nat,
            steps_obs ((t ← get_tex s;
               when (bool_decide (t ≠ None)) (DRW_transform_to_display t)) w).2 =
              (frame_steps (trace w) ++ replicate debug_views Fs_display,
               enabled_effects w, bloom_iteration_ct w)).
  { intros s. step. destruct (bool_decide (tex w s ≠ None)); cbn [when].
    - exists 1%nat.
      destruct w as [tex0 fb0 e0 ct0 rc0 full0 valid0 v0 layer0 psl0 id0 trace0].
      unfold DRW_transform_to_display, emit, modify, steps_obs. state_simpl.
      rewrite frame_steps_app. reflexivity.
    - exact Hnone. }
  destruct debug_value as [|p|p]; try exact Hnone.
  destruct p as [[[?|?|]|[?|?|]|]|[[?|?|]|[?|?|]|]|];
    first [apply Hshow | exact Hnone].
Qed.

(** The steps of a whole frame with double buffering. *)
Lemma draw_effects_frame_steps
    (debug_value : Z) (is_image_render : bool) (w : World) :
  Z.land (enabled_effects w) EFFECT_DOUBLE_BUFFER ≠ 0 →
  ∃ debug_views : nat,
    frame_steps (trace (EEVEE_draw_effects debug_value is_image_render w).2) =
      frame_steps (trace w) ++
      match frame_blocks w with
      | [] => replicate (S debug_views) Fs_display ++ [Fs_exchange]
      | first :: rest =>
          (Fs_draw <$> first) ++ [Fs_exchange] ++
          (Fs_draw <$> concat rest) ++
          replicate (S debug_views) Fs_display
      end.
Proof.
  intros Hdb. unfold EEVEE_draw_effects, frame_blocks.
  destruct w as [tex0 fb0 e0 ct0 rc0 full0 valid0 v0 layer0 psl0 id0 trace0].
  cbn in Hdb. state_simpl.
  match goal with
  | |- ∃ n, frame_steps (trace (?m ?w0).2) = @?rhs n =>
      set (G := λ r : unit * World, ∃ n, frame_steps (trace r.2) = rhs n);
      change (G (m w0))
  end.
  do 8 step. rewrite (bool_decide_eq_true_2 _ Hdb).
  (* Motion Blur *)
  match goal with
  | |- context [((if ?b then ?blk ?sdb else mret ?sdb) ≫= _) ?w0] =>
      pose proof (optional_block_steps b blk [PSL_motion_blur] sdb w0
                    (draw_motion_blur_steps w0)) as Hp;
      rewrite (bind_run (if b then blk sdb else mret sdb));
      set (r := (if b then blk sdb else mret sdb) w0) in *;
      clearbody r; destruct_run r
  end.
  cbn [fst snd] in Hp. destruct Hp as [-> Hp].
  unfold steps_obs in Hp. state_simpl in Hp. injection Hp as Hs1 -> ->.
  step.
  (* Depth Of Field *)
  match goal with
  | |- context [((if ?b then ?blk ?sdb else mret ?sdb) ≫= _) ?w0] =>
      pose proof (optional_block_steps b blk dof_schedule sdb w0
                    (draw_dof_steps w0)) as Hp;
      rewrite (bind_run (if b then blk sdb else mret sdb));
      set (r := (if b then blk sdb else mret sdb) w0) in *;
      clearbody r; destruct_run r
  end.
  cbn [fst snd] in Hp. destruct Hp as [-> Hp].
  unfold steps_obs in Hp. state_simpl in Hp. injection Hp as Hs2 -> ->.
  step.
  (* Bloom *)
  match goal with
  | |- context [((if ?b then ?blk ?sdb else mret ?sdb) ≫= _) ?w0] =>
      pose proof (optional_block_steps b blk (bloom_schedule ct0) sdb w0
                    (draw_bloom_steps w0)) as Hp;
      rewrite (bind_run (if b then blk sdb else mret sdb));
      set (r := (if b then blk sdb else mret sdb) w0) in *;
      clearbody r; destruct_run r
  end.
  cbn [fst snd] in Hp. destruct Hp as [-> Hp].
  unfold steps_obs in Hp. state_simpl in Hp. injection Hp as Hs3 -> ->.
  (* Restore default framebuffer, tonemapping *)
  do 6 step.
  (* Debug *)
  match goal with
  | |- context [(draw_debug ?dv ≫= _) ?w0] =>
      destruct (draw_debug_steps dv w0) as [n Hp];
      rewrite (bind_run (draw_debug dv));
      set (r := draw_debug dv w0) in *; clearbody r; destruct_run r
  end.
  unfold steps_obs in Hp. state_simpl in Hp.
  rewrite !frame_steps_app in Hp. cbn in Hp. rewrite ?app_nil_r in Hp.
  injection Hp as Hs4 -> ->.
  (* the exchange of a frame without post-effect *)
  match goal with
  | |- context [(SWAP_DOUBLE_BUFFERS ?sdb ≫= _) ?w0] =>
      run_by (SWAP_DOUBLE_BUFFERS_steps sdb)
  end.
  destruct Hp as [-> Hp].
  unfold steps_obs in Hp. state_simpl in Hp. injection Hp as Hs5 -> ->.
  match goal with
  | |- G (?m ?w0) =>
      assert (Hm : pres steps_obs m)
        by (unfold DRW_viewport_request_redraw; solve_pres);
      specialize (Hm w0);
      set (r := m w0) in *; clearbody r; destruct_run r
  end.
  unfold steps_obs in Hm. state_simpl in Hm. injection Hm as Hs6 _ _.
  unfold G. exists n. cbn [snd trace].
  rewrite Hs6, Hs5, Hs4, Hs3, Hs2, Hs1.
  destruct (bool_decide (Z.land e0 EFFECT_MOTION_BLUR ≠ 0)),
    (bool_decide (Z.land e0 EFFECT_DOF ≠ 0)),
    (bool_decide (Z.land e0 EFFECT_BLOOM ≠ 0));
    unfold dof_schedule, bloom_schedule;
    rewrite !frame_steps_app; cbn;
    rewrite ?fmap_app, ?app_nil_r, <- ?app_assoc; cbn;
    rewrite ?app_nil_r, <- ?app_assoc;
    reflexivity.
Qed.

(** C1.  In a frame with EFFECT_DOUBLE_BUFFER set, whatever the other
    bits of the mask (so for every number of enabled post-effects, none
    included), [EEVEE_draw_effects] performs the exchange of
    SWAP_DOUBLE_BUFFERS exactly once: the trace gains one exchange, and at
    the end of the frame fbl->main and fbl->double_buffer, txl->color and
    txl->color_double_buffer have traded places once.  The exchange is
    made by the first SWAP_BUFFERS of the frame: it comes right after the
    draws of the first post-effect that is on and before those of the
    others; with no post-effect on it comes at the end, after the display.
    The macro itself, whenever it is run with the flag up, makes the
    exchange, and it always leaves the flag down. *)
Theorem draw_effects_exchanges_once
    (debug_value : Z) (is_image_render : bool) (w : World) :
  Z.land (enabled_effects w) EFFECT_DOUBLE_BUFFER ≠ 0 →
  let w' := exec (EEVEE_draw_effects debug_value is_image_render) w in
  (swap_count (trace w') = S (swap_count (trace w)) ∧
   fb w' FBL_main = fb w FBL_double_buffer ∧
   fb w' FBL_double_buffer = fb w FBL_main ∧
   tex w' TXL_color = tex w TXL_color_double_buffer ∧
   tex w' TXL_color_double_buffer = tex w TXL_color) ∧
  (∃ debug_views : nat,
     frame_steps (trace w') =
       frame_steps (trace w) ++
       match frame_blocks w with
       | [] => replicate (S debug_views) Fs_display ++ [Fs_exchange]
       | first :: rest =>
           (Fs_draw <$> first) ++ [Fs_exchange] ++
           (Fs_draw <$> concat rest) ++
           replicate (S debug_views) Fs_display
       end) ∧
  (∀ (swap_double_buffer : bool) (w0 : World),
     let r := SWAP_BUFFERS swap_double_buffer w0 in
     r.1 = false ∧
     swap_count (trace r.2) =
       (swap_count (trace w0) + (if swap_double_buffer then 1 else 0))%nat ∧
     (fb r.2 FBL_main, fb r.2 FBL_double_buffer,
      tex r.2 TXL_color, tex r.2 TXL_color_double_buffer) =
       if swap_double_buffer
       then (fb w0 FBL_double_buffer, fb w0 FBL_main,
             tex w0 TXL_color_double_buffer, tex w0 TXL_color)
       else (fb w0 FBL_main, fb w0 FBL_double_buffer,
             tex w0 TXL_color, tex w0 TXL_color_double_buffer)).
Proof.
  intros Hdb w'. subst w'.
  split; [apply draw_effects_exchanged, Hdb|].
  split; [apply draw_effects_frame_steps, Hdb|].
  intros sdb w0 r. subst r.
  destruct (SWAP_BUFFERS_post sdb w0) as [Hflag Hobs].
  split; [exact Hflag|].
  unfold exchange_obs, exchanged in Hobs.
  destruct sdb; injection Hobs as -> -> -> -> -> _;
    (split; [lia | reflexivity]).
Qed.

End exchange_proofs.

(** ** The further theorems at concrete frames *)

Lemma do_volumetrics_schedule_witness :
  let main := fb volumetric_frame FBL_main in
  let volumetric_fb := fb volumetric_frame FBL_volumetric_fb in
  let tex := tex volumetric_frame in
  Z.land (enabled_effects volumetric_frame)
    (@EFFECT blender_private VOLUMETRIC) ≠ 0 ∧
  volumetrics volumetric_frame = Some true ∧
  stage_steps (trace (exec (@EEVEE_effects_do_volumetrics blender_private)
                        volumetric_frame)) =
    stage_steps (trace volumetric_frame) ++
    [St_attach volumetric_fb (tex G_volumetric) 0;
     St_attach volumetric_fb (tex G_volumetric_transmit) 1;
     St_bind volumetric_fb;
     St_draw PSL_volumetric_integrate_ps;
     St_detach (tex DTXL_depth);
     St_bind main;
     St_draw PSL_volumetric_resolve_transmit_ps;
     St_draw PSL_volumetric_resolve_ps;
     St_attach main (tex DTXL_depth) 0;
     St_detach (tex G_volumetric);
     St_detach (tex G_volumetric_transmit);
     St_bind main].
Proof.
  intros main volumetric_fb tex.
  assert (Hbit : Z.land (enabled_effects volumetric_frame)
                   (@EFFECT blender_private VOLUMETRIC) ≠ 0)
    by (vm_compute; discriminate).
  assert (Hvol : volumetrics volumetric_frame = Some true) by reflexivity.
  split; [exact Hbit|]. split; [exact Hvol|].
  apply (proj1 (@do_volumetrics_schedule blender_private volumetric_frame true
                  Hbit Hvol)).
Defined.

Lemma do_ssr_attachments_balanced_witness :
  let main := fb ssr_frame FBL_main in
  let tracing := fb ssr_frame FBL_screen_tracing_fb in
  let tex := tex ssr_frame in
  Z.land (enabled_effects ssr_frame) (@EFFECT blender_private SSR) ≠ 0 ∧
  ∃ levels : nat,
    stage_steps (trace (exec (@EEVEE_effects_do_ssr blender_private) ssr_frame)) =
      stage_steps (trace ssr_frame) ++
      ((λ i, St_attach tracing (tex (G_ssr_hit_output i)) i)
         <$> seqZ 0 (ssr_ray_count ssr_frame)) ++
      [St_bind tracing;
       if valid_double_buffer ssr_frame then St_draw PSL_ssr_raytrace
       else St_clear ssr_clear_col] ++
      ((λ i, St_detach (tex (G_ssr_hit_output i)))
         <$> seqZ 0 (ssr_ray_count ssr_frame)) ++
      replicate levels (St_draw PSL_color_downsample_ps) ++
      [St_detach (tex DTXL_depth);
       St_detach (tex TXL_ssr_normal_input);
       St_detach (tex TXL_ssr_specrough_input);
       St_bind main;
       St_draw PSL_ssr_resolve;
       St_attach main (tex DTXL_depth) 0;
       St_attach main (tex TXL_ssr_normal_input) 1;
       St_attach main (tex TXL_ssr_specrough_input) 2].
Proof.
  intros main tracing tex.
  assert (Hssr : Z.land (enabled_effects ssr_frame)
                   (@EFFECT blender_private SSR) ≠ 0)
    by (vm_compute; discriminate).
  split; [exact Hssr|].
  apply (@do_ssr_attachments_balanced blender_private ssr_frame Hssr).
Defined.

Lemma draw_effects_no_exchange_without_double_buffer_witness :
  Z.land (enabled_effects dof_frame) (@EFFECT blender_private DOUBLE_BUFFER) = 0 ∧
  swap_count (trace (exec (@EEVEE_draw_effects blender_private 0 false) dof_frame)) =
    swap_count (trace dof_frame).
Proof.
  assert (Hdb : Z.land (enabled_effects dof_frame)
                  (@EFFECT blender_private DOUBLE_BUFFER) = 0)
    by reflexivity.
  split; [exact Hdb|].
  apply (proj1 (@draw_effects_no_exchange_without_double_buffer
                  blender_private 0 false dof_frame Hdb)).
Defined.

Lemma draw_effects_displays_last_output_witness :
  tex dof_frame TXL_color_post ≠ tex dof_frame TXL_color ∧
  tex dof_frame TXL_color_post ≠ tex dof_frame TXL_color_double_buffer ∧
  ∃ debug_views,
    displayed (trace (exec (@EEVEE_draw_effects blender_private 0 false) dof_frame)) =
      displayed (trace dof_frame) ++ tex dof_frame TXL_color_post :: debug_views ∧
    (¬ (0 < 0 ≤ 5) → debug_views = []).
Proof.
  assert (Hc : tex dof_frame TXL_color_post ≠ tex dof_frame TXL_color)
    by (vm_compute; discriminate).
  assert (Hd : tex dof_frame TXL_color_post ≠ tex dof_frame TXL_color_double_buffer)
    by (vm_compute; discriminate).
  split; [exact Hc|]. split; [exact Hd|].
  apply (@draw_effects_displays_last_output blender_private 0 false dof_frame
           Hc Hd).
Defined.

Lemma init_allocates_volumetrics_witness :
  Z.land (enabled_effects volumetric_frame)
    (@EFFECT blender_private VOLUMETRIC) ≠ 0 ∧
  volumetrics volumetric_frame =
    Some (get_bool settings_volumetric "volumetric_colored_transmittance").
Proof.
  assert (Hbit : Z.land (enabled_effects volumetric_frame)
                   (@EFFECT blender_private VOLUMETRIC) ≠ 0)
    by (vm_compute; discriminate).
  split; [exact Hbit|].
  apply (@init_allocates_volumetrics blender_private settings_volumetric
           first_frame Hbit).
Defined.

Lemma init_bloom_buffer_sizes_witness :
  get_bool settings_bloom "bloom_enable" = true ∧
  0 ≤ (viewport_size settings_bloom).1 ∧
  0 ≤ (viewport_size settings_bloom).2 ∧
  1 ≤ bloom_iteration_ct
        (exec (@EEVEE_effects_init blender_private settings_bloom) first_frame)
    ≤ @MAX_BLOOM_STEP blender_private.
Proof.
  assert (Hbloom : get_bool settings_bloom "bloom_enable" = true) by reflexivity.
  assert (Hw : 0 ≤ (viewport_size settings_bloom).1) by (cbn; lia).
  assert (Hh : 0 ≤ (viewport_size settings_bloom).2) by (cbn; lia).
  split; [exact Hbloom|]. split; [exact Hw|]. split; [exact Hh|].
  apply (proj1 (@init_bloom_buffer_sizes blender_private settings_bloom
                  first_frame Hbloom Hw Hh)).
Defined.

(** ** The theorems at concrete frames *)

Lemma draw_effects_exchanges_once_witness :
  Z.land (enabled_effects ssr_dof_frame) (@EFFECT blender_private DOUBLE_BUFFER) ≠ 0 ∧
  swap_count
    (trace (exec (@EEVEE_draw_effects blender_private 0 false) ssr_dof_frame)) =
    S (swap_count (trace ssr_dof_frame)) ∧
  ∃ debug_views : nat,
    frame_steps
      (trace (exec (@EEVEE_draw_effects blender_private 0 false) ssr_dof_frame)) =
      frame_steps (trace ssr_dof_frame) ++
      [Fs_draw PSL_dof_down; Fs_draw PSL_dof_scatter; Fs_draw PSL_dof_scatter;
       Fs_draw PSL_dof_resolve; Fs_exchange] ++
      replicate (S debug_views) Fs_display.
Proof.
  assert (Hdb : Z.land (enabled_effects ssr_dof_frame)
                  (@EFFECT blender_private DOUBLE_BUFFER) ≠ 0)
    by (vm_compute; discriminate).
  split; [exact Hdb|].
  destruct (@draw_effects_exchanges_once blender_private 0 false ssr_dof_frame Hdb)
    as ((Hcount & _) & Hsteps & _).
  split; [exact Hcount | exact Hsteps].
Defined.

Lemma draw_effects_pass_through_witness :
  Z.land (enabled_effects plain_frame) (@EFFECT blender_private MOTION_BLUR) = 0 ∧
  Z.land (enabled_effects plain_frame) (@EFFECT blender_private DOF) = 0 ∧
  Z.land (enabled_effects plain_frame) (@EFFECT blender_private BLOOM) = 0 ∧
  tex (exec (@EEVEE_draw_effects blender_private 0 false) plain_frame)
    EFX_source_buffer = tex plain_frame TXL_color.
Proof.
  repeat (split; [reflexivity|]).
  apply (@draw_effects_pass_through blender_private 0 false plain_frame);
    reflexivity.
Defined.

Lemma do_ssr_sentinel_iff_invalid_history_witness :
  Z.land (enabled_effects ssr_frame) (@EFFECT blender_private SSR) ≠ 0 ∧
  ssr_steps (trace (exec (@EEVEE_effects_do_ssr blender_private) ssr_frame)) =
    ssr_steps (trace ssr_frame) ++
    [Ssr_bind (fb ssr_frame FBL_screen_tracing_fb);
     if valid_double_buffer ssr_frame then Ssr_raytrace
     else Ssr_clear true false false (0, 0, -1, 0.001)%Q;
     Ssr_bind (fb ssr_frame FBL_main);
     Ssr_resolve].
Proof.
  assert (Hssr : Z.land (enabled_effects ssr_frame)
                   (@EFFECT blender_private SSR) ≠ 0)
    by (vm_compute; discriminate).
  split; [exact Hssr|].
  apply (@do_ssr_sentinel_iff_invalid_history blender_private ssr_frame Hssr).
Defined.

Lemma resolve_hit_buffers_within_ray_count_witness :
  let w := set_ssr_ray_count 2
             (exec (@EEVEE_effects_init blender_private settings_ssr6) first_frame) in
  Z.land (enabled_effects w) (@EFFECT blender_private SSR) ≠ 0 ∧
  1 ≤ ssr_ray_count w ∧
  ∀ name i,
    (name, G_ssr_hit_output i) ∈
      psl (exec (@EEVEE_effects_cache_init blender_private false) w) PSL_ssr_resolve →
    0 ≤ i < 2.
Proof.
  intros w.
  assert (Hssr : Z.land (enabled_effects w) (@EFFECT blender_private SSR) ≠ 0)
    by (vm_compute; discriminate).
  assert (Hrc : 1 ≤ ssr_ray_count w) by (vm_compute; discriminate).
  split; [exact Hssr|]. split; [exact Hrc|].
  apply (@resolve_hit_buffers_within_ray_count blender_private false w Hssr Hrc).
Defined.

Lemma init_clamps_ssr_ray_count_witness :
  get_bool settings_ssr6 "ssr_enable" = true ∧
  ssr_ray_count (exec (@EEVEE_effects_init blender_private settings_ssr6) first_frame) = 4.
Proof.
  split; [reflexivity|].
  destruct (@init_clamps_ssr_ray_count blender_private settings_ssr6 first_frame
              eq_refl) as (_ & Hrc & _ & H6).
  rewrite Hrc. apply H6. reflexivity.
Defined.

Lemma init_bloom_iteration_count_witness :
  get_bool settings_bloom "bloom_enable" = true ∧
  bloom_iteration_ct
    (exec (@EEVEE_effects_init blender_private settings_bloom) first_frame) = 8.
Proof.
  split; [reflexivity|].
  destruct (@init_bloom_iteration_count blender_private settings_bloom first_frame
              eq_refl) as [_ H8].
  apply H8;
    [reflexivity | reflexivity | vm_compute; reflexivity
    | vm_compute; reflexivity | simpl; lia].
Defined.

(** On a 1024x1024 viewport at the radius just below 7, the real number
    radius - 8 + log2(1024) is 9 - 2^-21 and its floor is 8; the sum,
    formed in [double], lies halfway between two [float]s and is rounded
    to 9.0, so that the code stores 9. *)
Lemma init_bloom_iteration_count_counterexample :
  get_bool settings_bloom_1024 "bloom_enable" = true ∧
  bloom_iteration_ct
    (exec (@EEVEE_effects_init blender_private settings_bloom_1024) first_frame) = 9 ∧
  @spec_bloom_iterations blender_private
    (float_value (get_float settings_bloom_1024 "bloom_radius")) 1024 1024 = 8.
Proof.
  split; [reflexivity|]. split; [vm_compute; reflexivity|].
  unfold spec_bloom_iterations.
  change (get_float settings_bloom_1024 "bloom_radius") with radius_below_7.
  unfold radius_below_7. cbn [float_value cond_Zopp].
  rewrite powerRZ_2_neg.
  change (2 ^ 21)%Z with 2097152%Z.
  change (Z.min 1024 1024) with 1024.
  replace 1024%R with (2 ^ 10)%R by (simpl; lra).
  assert (H2 : (0 < ln 2)%R).
  { rewrite <- ln_1. apply ln_increasing; lra. }
  assert (H10 : (ln (2 ^ 10) / ln 2 = 10)%R).
  { rewrite ln_pow by lra. simpl INR. field. lra. }
  rewrite H10.
  assert (Hfloor : Zfloor (14680063 * / 2097152 - 8 + 10)%R = 8).
  { apply Zfloor_eq. simpl IZR. lra. }
  rewrite Hfloor. reflexivity.
Qed.



Lemma minmax_pyramids_bounded_witness :
  let w := exec (@EEVEE_effects_init blender_private settings_plain) first_frame in
  (length (pyramid (tex w G_minzbuffer) 8) ≤ 8)%nat ∧
  Forall (λ l, 1 ≤ l.1.2 ∧ 1 ≤ l.2) (pyramid (tex w G_minzbuffer) 8).
Proof.
  intros w.
  destruct (minmax_pyramids_bounded (tex w DTXL_depth) (-1) w) as [_ Hlevels].
  destruct (Hlevels (pyramid (tex w G_minzbuffer) 8) (or_introl eq_refl))
    as (Hlen & _ & Hsizes).
  split; [exact Hlen | exact Hsizes].
Defined.
